(** * atom-wiki: the document assembly pipeline of [atomwiki/cli.py]

    A shallow embedding of [MarkdownToHTMLConverter]: markdown discovery and
    ordering, frontmatter splitting, code-fence normalisation, link
    rewriting, heading-id namespacing, the folder navigation and the tag
    index, followed by the properties of the specification.

    Python [str] values are modelled as [string] (a sequence of bytes, the
    UTF-8 encoding of the text).  Every character the converter singles out
    (newline, space, backtick, quote, slash, underscore, ...) is ASCII, so
    slicing and comparing behave on bytes as they do on code points; case
    mapping and whitespace are modelled for ASCII characters. *)

From Stdlib Require Import List String Ascii Bool Arith PeanoNat ZArith Lia.
From Stdlib Require Import Permutation Sorted.
From Stdlib Require Decimal DecimalNat DecimalString.
Import ListNotations.

Open Scope list_scope.
Open Scope string_scope.

(** ** Exceptions a run can raise *)

Inductive exn : Type :=
| FileNotFoundError
| ValueError
| TypeError
| AttributeError
| IndexError.

Inductive result (A : Type) : Type :=
| Ok (a : A)
| Raise (e : exn).

Arguments Ok {A} a.
Arguments Raise {A} e.

Definition bind {A B : Type} (r : result A) (k : A -> result B) : result B :=
  match r with
  | Ok a => k a
  | Raise e => Raise e
  end.

Notation "x <- r ;; k" := (bind r (fun x => k))
  (at level 61, r at next level, right associativity).

Definition is_ok {A : Type} (r : result A) : bool :=
  match r with
  | Ok _ => true
  | Raise _ => false
  end.

(** ** Python string primitives used by the converter *)

Module PyStr.

(** The double quote, written by its code: HTML attributes need it. *)
Definition dq : string := String (ascii_of_nat 34) EmptyString.

Definition nl : string := String (ascii_of_nat 10) EmptyString.

Definition in_range (lo hi : nat) (c : ascii) : bool :=
  let n := nat_of_ascii c in ((lo <=? n)%nat && (n <=? hi)%nat)%bool.

Definition is_upper (c : ascii) : bool := in_range 65 90 c.
Definition is_lower (c : ascii) : bool := in_range 97 122 c.
Definition is_digit (c : ascii) : bool := in_range 48 57 c.

Definition lower_char (c : ascii) : ascii :=
  if is_upper c then ascii_of_nat (nat_of_ascii c + 32) else c.

Definition upper_char (c : ascii) : ascii :=
  if is_lower c then ascii_of_nat (nat_of_ascii c - 32) else c.

Fixpoint map_chars (f : ascii -> ascii) (s : string) : string :=
  match s with
  | EmptyString => EmptyString
  | String c s' => String (f c) (map_chars f s')
  end.

(** [s.lower()] *)
Definition lower (s : string) : string := map_chars lower_char s.

(** [s.replace(a, b)] for one-character [a] and [b]. *)
Definition replace_char (a b : ascii) (s : string) : string :=
  map_chars (fun c => if Ascii.eqb c a then b else c) s.

(** [s.title()]: the first letter of every run of letters in upper case,
    the others in lower case. *)
Fixpoint title_from (prev_cased : bool) (s : string) : string :=
  match s with
  | EmptyString => EmptyString
  | String c s' =>
      let cased := is_upper c || is_lower c in
      String (if prev_cased then lower_char c else upper_char c)
             (title_from cased s')
  end.

Definition title (s : string) : string := title_from false s.

(** [s.startswith(p)] *)
Fixpoint startswith (p s : string) : bool :=
  match p, s with
  | EmptyString, _ => true
  | String _ _, EmptyString => false
  | String a p', String b s' => Ascii.eqb a b && startswith p' s'
  end.

(** [s[n:]] *)
Fixpoint drop (n : nat) (s : string) : string :=
  match n, s with
  | O, _ => s
  | S _, EmptyString => EmptyString
  | S k, String _ s' => drop k s'
  end.

(** [s[:n]] *)
Fixpoint take (n : nat) (s : string) : string :=
  match n, s with
  | O, _ => EmptyString
  | S _, EmptyString => EmptyString
  | S k, String c s' => String c (take k s')
  end.

(** [s.endswith(p)] *)
Definition endswith (p s : string) : bool :=
  (String.length p <=? String.length s)%nat &&
  String.eqb (drop (String.length s - String.length p) s) p.

(** [' ' * n] *)
Fixpoint spaces (n : nat) : string :=
  match n with
  | O => EmptyString
  | S k => String " " (spaces k)
  end.

(** [s.split(sep)] for a one-character separator: never the empty list. *)
Fixpoint split_on (sep : ascii) (s : string) : list string :=
  match s with
  | EmptyString => [EmptyString]
  | String c s' =>
      if Ascii.eqb c sep then EmptyString :: split_on sep s'
      else match split_on sep s' with
           | [] => [String c EmptyString]
           | w :: ws => String c w :: ws
           end
  end.

(** [sep.join(l)] *)
Definition join (sep : string) (l : list string) : string :=
  String.concat sep l.

(** Whitespace removed by [str.strip()], ASCII part: tab, line feed,
    vertical tab, form feed, carriage return, the separators 28-31, space. *)
Definition is_space (c : ascii) : bool :=
  in_range 9 13 c || in_range 28 32 c.

Fixpoint lstrip_by (p : ascii -> bool) (s : string) : string :=
  match s with
  | EmptyString => EmptyString
  | String c s' => if p c then lstrip_by p s' else s
  end.

(** Drops the trailing characters satisfying [p]. *)
Fixpoint rstrip_by (p : ascii -> bool) (s : string) : string :=
  match s with
  | EmptyString => EmptyString
  | String c s' =>
      match rstrip_by p s' with
      | EmptyString => if p c then EmptyString else String c EmptyString
      | r => String c r
      end
  end.

(** [s.strip()] *)
Definition strip (s : string) : string :=
  rstrip_by is_space (lstrip_by is_space s).

(** [str(n)] for a non-negative integer. *)
Definition of_nat (n : nat) : string :=
  DecimalString.NilEmpty.string_of_uint (Nat.to_uint n).

(** Every character satisfies [p]. *)
Fixpoint all_chars (p : ascii -> bool) (s : string) : bool :=
  match s with
  | EmptyString => true
  | String c s' => p c && all_chars p s'
  end.

(** [needle in hay] on strings. *)
Fixpoint contains (needle hay : string) : bool :=
  startswith needle hay ||
  match hay with
  | EmptyString => false
  | String _ hay' => contains needle hay'
  end.

(** [hay.count(needle)] for a non-empty needle: the occurrences met from left
    to right without overlap. *)
Fixpoint count_from (skip : nat) (needle hay : string) : nat :=
  match hay with
  | EmptyString => 0
  | String _ hay' =>
      match skip with
      | S k => count_from k needle hay'
      | O => if startswith needle hay
             then S (count_from (String.length needle - 1) needle hay')
             else count_from 0 needle hay'
      end
  end.

Definition count (needle hay : string) : nat := count_from 0 needle hay.

End PyStr.

Import PyStr.

(** ** [pathlib] paths (POSIX flavour)

    A path is its root ([""] for a relative path, ["/"], or ["//"]) and its
    components; parsing drops empty and ["."] components and keeps [".."],
    as [pathlib] does. *)

Module PyPath.

Record Path : Type := mkPath { root : string; parts : list string }.

Definition parse (s : string) : Path :=
  let r := if startswith "//" s && negb (startswith "///" s) then "//"
           else if startswith "/" s then "/" else "" in
  mkPath r (filter (fun c => negb (String.eqb c "" || String.eqb c "."))
                   (split_on "/" s)).

(** [p / q] *)
Definition joinpath (p q : Path) : Path :=
  if String.eqb (root q) "" then mkPath (root p) (parts p ++ parts q)%list else q.

(** [str(p)] *)
Definition str (p : Path) : string :=
  match parts p with
  | [] => if String.eqb (root p) "" then "." else root p
  | _ => root p ++ join "/" (parts p)
  end.

(** [p.name] *)
Definition name (p : Path) : string := last (parts p) "".

(** [p.parent] *)
Definition parent (p : Path) : Path := mkPath (root p) (removelast (parts p)).

(** [s.rfind(c)] *)
Fixpoint rfind (c : ascii) (s : string) : option nat :=
  match s with
  | EmptyString => None
  | String d s' =>
      match rfind c s' with
      | Some i => Some (S i)
      | None => if Ascii.eqb d c then Some 0 else None
      end
  end.

(** [p.stem]: the name without its last suffix; a leading or a trailing dot
    does not start a suffix. *)
Definition stem_of_name (n : string) : string :=
  match rfind "." n with
  | Some i => if (0 <? i)%nat && (i <? String.length n - 1)%nat
              then take i n else n
  | None => n
  end.

Definition stem (p : Path) : string := stem_of_name (name p).

(** Collapsing [".."] against the components already walked; at the root
    [".."] stays at the root. *)
Fixpoint collapse (walked_rev : list string) (l : list string) : list string :=
  match l with
  | [] => rev walked_rev
  | c :: t => if String.eqb c ".." then collapse (tl walked_rev) t
              else collapse (c :: walked_rev) t
  end.

(** [p.resolve()] in a process whose working directory is [cwd] (the
    components of an absolute, normalised path), on a file system without
    symbolic links along the way, for a path that holds no NUL character
    (on one that does, [resolve] raises [ValueError]). *)
Definition resolve (cwd : list string) (p : Path) : Path :=
  if String.eqb (root p) "" then mkPath "/" (collapse (rev cwd) (parts p))
  else mkPath (root p) (collapse [] (parts p)).

Fixpoint is_prefix (l1 l2 : list string) : bool :=
  match l1, l2 with
  | [], _ => true
  | _ :: _, [] => false
  | a :: t1, b :: t2 => String.eqb a b && is_prefix t1 t2
  end.

(** [p.relative_to(other)]; [None] stands for the [ValueError]. *)
Definition relative_to (p other : Path) : option Path :=
  if String.eqb (root p) (root other) && is_prefix (parts other) (parts p)
  then Some (mkPath "" (skipn (List.length (parts other)) (parts p)))
  else None.

End PyPath.

Import PyPath.

(** ** Document loader: [find_markdown_files]

    The input folder on disk is the list of the paths below it, relative to
    the folder, in the order the directory scan meets them, each with what
    reading it yields ([None] when [open] or [read] fails).  A discovered
    file is kept as that relative path [rel]: the source's [file_path] is
    [input_folder / rel], and [file_path.relative_to(self.input_folder)] is
    [rel] again. *)

Definition RelPath : Type := list string.

Record Disk : Type := mkDisk {
  folder_exists : bool;
  entries : list (RelPath * option string)
}.

Definition rel_path (f : RelPath) : Path := mkPath "" f.

Definition file_path (input_folder : Path) (f : RelPath) : Path :=
  joinpath input_folder (rel_path f).

(** [self.input_folder.rglob("*.md")]: the entries whose name matches the
    pattern, case-sensitively, in scan order. *)
Definition rglob_md (d : Disk) : list RelPath :=
  filter (fun f => endswith ".md" (last f "")) (map fst (entries d)).

(** ** The input folder as a tree, and the scan [rglob] makes of it

    A directory lists its entries in an order of its own, the one
    [os.scandir] yields them in, which no rule fixes.  [rglob] walks the
    tree from the input folder: it takes the entries of a directory, in that
    order, before those of its sub-directories, and one sub-directory, with
    all that is below it, after the other.  Reading a directory fails. *)

#[warnings="-register-all"]
Inductive fs_entry : Type :=
| FsFile (entry_name : string) (content : option string)
| FsDir (entry_name : string) (children : list fs_entry).

Definition own_entry (folder : RelPath) (e : fs_entry) : RelPath * option string :=
  match e with
  | FsFile n content => ((folder ++ [n])%list, content)
  | FsDir n _ => ((folder ++ [n])%list, None)
  end.

(** What the walk meets below the entry [e] of [folder]. *)
Fixpoint walk (folder : RelPath) (e : fs_entry) : list (RelPath * option string) :=
  match e with
  | FsFile _ _ => []
  | FsDir n children =>
      (map (own_entry (folder ++ [n])%list) children
       ++ flat_map (walk (folder ++ [n])%list) children)%list
  end.

(** The scan of an existing input folder that lists [children]. *)
Definition scan (children : list fs_entry) : Disk :=
  mkDisk true (map (own_entry []) children ++ flat_map (walk []) children)%list.

(** Python's stable [list.sort(key=...)] on string keys. *)
Fixpoint insert_by {A : Type} (key : A -> string) (x : A) (l : list A) : list A :=
  match l with
  | [] => [x]
  | y :: t => if String.ltb (key y) (key x) then y :: insert_by key x t
              else x :: l
  end.

Definition sort_by {A : Type} (key : A -> string) (l : list A) : list A :=
  fold_right (insert_by key) [] l.

Definition is_entry_name (n : string) : bool :=
  existsb (String.eqb (lower n)) ["index.md"; "index.markdown"].

(** The loop over [all_md_files]: the last entry-named file met becomes
    [index_file], every other file goes to [other_files]. *)
Definition classify (input_folder : Path) (all_md_files : list RelPath)
  : option RelPath * list RelPath :=
  fold_left
    (fun (st : option RelPath * list RelPath) (file : RelPath) =>
       if is_entry_name (name (file_path input_folder file))
       then (Some file, snd st)
       else (fst st, (snd st ++ [file])%list))
    all_md_files (None, []).

Definition order_files (input_folder : Path) (all_md_files : list RelPath)
  : result (list RelPath) :=
  let '(index_file, other_files) := classify input_folder all_md_files in
  let other_files := sort_by (fun x => str (file_path input_folder x)) other_files in
  match index_file with
  | None => Raise ValueError
  | Some index_file => Ok (index_file :: other_files)
  end.

Definition find_markdown_files (input_folder : Path) (d : Disk)
  : result (list RelPath) :=
  if negb (folder_exists d) then Raise FileNotFoundError
  else
    let all_md_files := rglob_md d in
    match all_md_files with
    | [] => Raise FileNotFoundError
    | _ => order_files input_folder all_md_files
    end.

(** ** Values produced by the YAML loader

    The values [yaml.safe_load] builds, as Python sees them.  Floats and
    dates are left out; a byte string stands for a [str]. *)

#[warnings="-register-all"]
Inductive yaml : Type :=
| YNull
| YBool (b : bool)
| YInt (n : Z)
| YStr (s : string)
| YSeq (l : list yaml)
| YMap (m : list (yaml * yaml)).

(** Python truth value. *)
Definition truthy (y : yaml) : bool :=
  match y with
  | YNull => false
  | YBool b => b
  | YInt n => negb (n =? 0)%Z
  | YStr s => negb (String.eqb s "")
  | YSeq l => match l with [] => false | _ => true end
  | YMap m => match m with [] => false | _ => true end
  end.

(** Lists and dicts cannot be dict keys. *)
Definition hashable (y : yaml) : bool :=
  match y with
  | YSeq _ | YMap _ => false
  | _ => true
  end.

(** [a == b] on hashable values: [True == 1] and [False == 0]. *)
Definition key_eqb (a b : yaml) : bool :=
  match a, b with
  | YNull, YNull => true
  | YStr s, YStr t => String.eqb s t
  | YInt x, YInt y => (x =? y)%Z
  | YBool x, YBool y => Bool.eqb x y
  | YInt x, YBool y | YBool y, YInt x => (x =? (if y then 1 else 0))%Z
  | _, _ => false
  end.

(** [f"{tag}"] for a scalar. *)
Definition format_scalar (y : yaml) : string :=
  match y with
  | YNull => "None"
  | YBool b => if b then "True" else "False"
  | YInt n => if (n <? 0)%Z then "-" ++ of_nat (Z.to_nat (- n)) else of_nat (Z.to_nat n)
  | YStr s => s
  | _ => ""
  end.

(** What the run prints besides its progress lines. *)
Inductive warning : Type :=
| FrontmatterWarning
| LinkWarning (link_path : string) (current_file_index : nat)
| ReadError (file : RelPath).

(** ** Frontmatter splitter: [parse_frontmatter] *)

Definition nl_char : ascii := ascii_of_nat 10.

(** The first [i], counting from [start], whose line strips to ["---"]. *)
Fixpoint first_closing (start : nat) (lines : list string) : option nat :=
  match lines with
  | [] => None
  | l :: t => if String.eqb (strip l) "---" then Some start
              else first_closing (S start) t
  end.

Section Frontmatter.

(** [yaml.safe_load]; [None] stands for a raised [yaml.YAMLError]. *)
Variable safe_load : string -> option yaml.

Definition parse_frontmatter (content : string)
  : yaml * string * list warning :=
  if startswith "---" (strip content) then
    let lines := split_on nl_char (strip content) in
    if (1 <? List.length lines)%nat then
      match first_closing 1 (tl lines) with
      | Some end_index =>
          let fm_section := join nl (firstn (end_index - 1) (tl lines)) in
          let markdown_content := strip (join nl (skipn (end_index + 1) lines)) in
          match safe_load fm_section with
          | Some v => (if truthy v then v else YMap [], markdown_content, [])
          | None => (YMap [], markdown_content, [FrontmatterWarning])
          end
      | None => (YMap [], content, [])
      end
    else (YMap [], content, [])
  else (YMap [], content, []).

End Frontmatter.

(** ** Code-fence normalisation: [normalize_code_fence_indentation] *)

Fixpoint leading_spaces (s : string) : nat :=
  match s with
  | String c s' => if Ascii.eqb c " " then S (leading_spaces s') else 0
  | EmptyString => 0
  end.

(** [re.match] of the fence pattern (spaces, then three backquotes) at the
    start of [line]: the length of group 1, the spaces, on a match. *)
Definition fence_match (line : string) : option nat :=
  let indent := leading_spaces line in
  if startswith "```" (drop indent line) then Some indent else None.

(** [line[fence_indent:] if line.startswith(' ' * fence_indent) else line] *)
Definition dedent (fence_indent : nat) (line : string) : string :=
  if startswith (spaces fence_indent) line then drop fence_indent line else line.

Fixpoint normalize_lines (in_code_fence : bool) (fence_indent : nat)
         (lines : list string) : list string :=
  match lines with
  | [] => []
  | line :: rest =>
      match fence_match line with
      | Some indent =>
          if negb in_code_fence
          then drop indent line :: normalize_lines true indent rest
          else dedent fence_indent line :: normalize_lines false 0 rest
      | None =>
          if in_code_fence
          then dedent fence_indent line :: normalize_lines true fence_indent rest
          else line :: normalize_lines false fence_indent rest
      end
  end.

Definition normalize_code_fence_indentation (markdown_content : string) : string :=
  join nl (normalize_lines false 0 (split_on nl_char markdown_content)).

(** ** Regular-expression scanning

    [re.sub] and [re.findall] walk the text from left to right; at every
    position not covered by the previous match they try the pattern, and no
    pattern of the converter matches the empty string.  A pattern is given by
    its matcher at the start of a text, which returns what the match yields
    and how many characters it spans. *)

(** The longest prefix of characters satisfying [p], and what follows. *)
Fixpoint span (p : ascii -> bool) (s : string) : string * string :=
  match s with
  | EmptyString => (EmptyString, EmptyString)
  | String c s' =>
      if p c then let '(a, b) := span p s' in (String c a, b)
      else (EmptyString, s)
  end.

Definition is_not (c : ascii) : ascii -> bool := fun d => negb (Ascii.eqb d c).

Definition dq_char : ascii := ascii_of_nat 34.

(** [dq ++ s ++ dq] *)
Definition q (s : string) : string := dq ++ s ++ dq.

Fixpoint sub_scan (try_match : string -> option (result (string * list warning) * nat))
         (skip : nat) (s : string) : result (string * list warning) :=
  match s with
  | EmptyString => Ok (EmptyString, [])
  | String c s' =>
      match skip with
      | S k => sub_scan try_match k s'
      | O =>
          match try_match s with
          | Some (r, n) =>
              x <- r ;;
              y <- sub_scan try_match (n - 1) s' ;;
              Ok (fst x ++ fst y, (snd x ++ snd y)%list)
          | None =>
              y <- sub_scan try_match 0 s' ;;
              Ok (String c (fst y), snd y)
          end
      end
  end.

(** [re.sub] with a replacement that neither warns nor raises. *)
Fixpoint sub_plain (try_match : string -> option (string * nat))
         (skip : nat) (s : string) : string :=
  match s with
  | EmptyString => EmptyString
  | String c s' =>
      match skip with
      | S k => sub_plain try_match k s'
      | O =>
          match try_match s with
          | Some (r, n) => r ++ sub_plain try_match (n - 1) s'
          | None => String c (sub_plain try_match 0 s')
          end
      end
  end.

Fixpoint findall_scan {A : Type} (try_match : string -> option (A * nat))
         (skip : nat) (s : string) : list A :=
  match s with
  | EmptyString => []
  | String c s' =>
      match skip with
      | S k => findall_scan try_match k s'
      | O =>
          match try_match s with
          | Some (a, n) => a :: findall_scan try_match (n - 1) s'
          | None => findall_scan try_match 0 s'
          end
      end
  end.

(** A literal pattern replaced by a literal. *)
Definition literal (pat repl : string) (s : string) : option (string * nat) :=
  if startswith pat s then Some (repl, String.length pat) else None.

(** ** [wrap_tables] *)

Definition wrap_tables (html_content : string) : string :=
  let html_content :=
    sub_plain (literal "<table>" ("<div class=" ++ q "table-wrapper" ++ "><table>"))
              0 html_content in
  sub_plain (literal "</table>" "</table></div>") 0 html_content.

(** ** Heading namespacer: [prefix_heading_ids] *)

(** [new_id] of [replace_id]. *)
Definition new_id (section_index : nat) (old_id : string) : string :=
  "section-" ++ of_nat section_index ++ "-" ++ old_id.

(** The heading pattern with an id: [<], [h] and a digit from 1 to 6 (group
    1), white space, [id=], and a non-empty quoted value (group 2). *)
Definition match_heading_id (s : string) : option (string * string * nat) :=
  match s with
  | String "<" (String "h" (String d r)) =>
      if in_range 49 54 d then
        let '(ws, r1) := span is_space r in
        if negb (String.eqb ws "") && startswith ("id=" ++ dq) r1 then
          let '(old_id, r2) := span (is_not dq_char) (drop 4 r1) in
          if negb (String.eqb old_id "") && startswith dq r2
          then Some (String "h" (String d ""), old_id,
                     3 + String.length ws + 4 + String.length old_id + 1)
          else None
        else None
      else None
  | _ => None
  end.

Definition replace_id (section_index : nat) (s : string) : option (string * nat) :=
  match match_heading_id s with
  | Some (tag, old_id, n) =>
      Some ("<" ++ tag ++ " id=" ++ q (new_id section_index old_id), n)
  | None => None
  end.

Definition prefix_heading_ids (html_content : string) (section_index : nat) : string :=
  sub_plain (replace_id section_index) 0 html_content.

(** ** Table-of-contents extractor: [generate_toc] *)

(** The lazy group 3 and the closing tag: the shortest text without a line
    break that a closing heading tag follows. *)
Fixpoint heading_text (s : string) : option (string * nat) :=
  match s with
  | String "<" (String "/" (String "h" (String d (String ">" _)))) =>
      if in_range 49 54 d then Some (EmptyString, 5)
      else match s with
           | String c s' =>
               match heading_text s' with
               | Some (t, n) => Some (String c t, S n)
               | None => None
               end
           | EmptyString => None
           end
  | String c s' =>
      if Ascii.eqb c nl_char then None
      else match heading_text s' with
           | Some (t, n) => Some (String c t, S n)
           | None => None
           end
  | EmptyString => None
  end.

(** From [id=] on: the id (group 2), further attributes up to the closing
    bracket of the tag, the text (group 3) and the closing tag. *)
Definition heading_from_id (s : string) : option (string * string * nat) :=
  if startswith ("id=" ++ dq) s then
    let '(heading_id, r1) := span (is_not dq_char) (drop 4 s) in
    if startswith dq r1 then
      let '(attrs, r2) := span (is_not ">") (drop 1 r1) in
      if startswith ">" r2 then
        match heading_text (drop 1 r2) with
        | Some (t, n) =>
            Some (heading_id, t,
                  4 + String.length heading_id + 1 + String.length attrs + 1 + n)
        | None => None
        end
      else None
    else None
  else None.

(** The greedy run of attribute characters before [id=]: the longest run
    after which the rest of the pattern matches. *)
Fixpoint heading_attrs (s : string) : option (string * string * nat) :=
  match s with
  | EmptyString => None
  | String c s' =>
      if Ascii.eqb c ">" then None
      else match heading_attrs s' with
           | Some (i, t, n) => Some (i, t, S n)
           | None => heading_from_id s
           end
  end.

Definition match_heading (s : string) : option ((string * string * string) * nat) :=
  match s with
  | String "<" (String "h" (String d r)) =>
      if in_range 49 54 d then
        match heading_attrs r with
        | Some (i, t, n) => Some ((String d "", i, t), 3 + n)
        | None => None
        end
      else None
  | _ => None
  end.

(** A tag: an opening bracket, at least one character, a closing bracket. *)
Definition match_tag (s : string) : option (string * nat) :=
  match s with
  | String "<" r =>
      let '(inner, r1) := span (is_not ">") r in
      if negb (String.eqb inner "") && startswith ">" r1
      then Some (EmptyString, 1 + String.length inner + 1)
      else None
  | _ => None
  end.

Definition toc_item (h : string * string * string) : list string :=
  let '(level, heading_id, heading_text) := h in
  let clean_text := strip (sub_plain match_tag 0 heading_text) in
  if negb (String.eqb clean_text "") then
    ["<li class=" ++ q ("toc-level-" ++ level) ++ "><a href=" ++ q ("#" ++ heading_id)
     ++ " onclick=" ++ q ("event.preventDefault(); scrollToHeading('" ++ heading_id
                          ++ "'); return false;")
     ++ ">" ++ clean_text ++ "</a></li>"]
  else [].

Definition toc_empty : string :=
  "<div class=" ++ q "toc-empty" ++ ">No headings found</div>".

Definition generate_toc (html_content : string) : string :=
  let headings := findall_scan match_heading 0 html_content in
  match headings with
  | [] => toc_empty
  | _ => "<ul class=" ++ q "toc-list" ++ ">"
         ++ join "" (flat_map toc_item headings) ++ "</ul>"
  end.

(** ** Cross-document link resolver *)

Fixpoint first_index {A : Type} (p : A -> bool) (i : nat) (l : list A) : option nat :=
  match l with
  | [] => None
  | x :: t => if p x then Some i else first_index p (S i) t
  end.

(** [s.replace('\\', '/')] *)
Definition unbackslash (s : string) : string := replace_char "\" "/" s.

(** [link_path.lstrip('./')] *)
Definition lstrip_dot_slash (s : string) : string :=
  lstrip_by (fun c => Ascii.eqb c "." || Ascii.eqb c "/") s.

Section Resolver.

(** The working directory of the process, the converter's input folder and
    the document sequence. *)
Variable cwd : list string.
Variable input_folder : Path.
Variable markdown_files : list RelPath.

Definition find_file_index_by_path (link_path : string) (current_file_index : nat)
  : result (option nat) :=
  match nth_error markdown_files current_file_index with
  | None => Raise IndexError
  | Some current_file =>
      let current_file_rel_path := rel_path current_file in
      let current_dir := parent current_file_rel_path in
      let link_path_clean := lstrip_dot_slash link_path in
      let target_path :=
        if startswith "../" link_path
        then resolve cwd (joinpath current_dir (parse link_path))
        else if startswith "./" link_path
        then resolve cwd (joinpath current_dir (parse link_path_clean))
        else resolve cwd (joinpath current_dir (parse link_path)) in
      let target_rel :=
        match relative_to target_path (resolve cwd input_folder) with
        | Some r => r
        | None => parse (unbackslash (str (joinpath current_dir (parse link_path))))
        end in
      match first_index
              (fun f => String.eqb (unbackslash (str (rel_path f)))
                                   (unbackslash (str target_rel)))
              0 markdown_files with
      | Some i => Ok (Some i)
      | None =>
          let target_name := name (parse link_path) in
          Ok (first_index
                (fun f => String.eqb (name (file_path input_folder f)) target_name)
                0 markdown_files)
      end
  end.

(** The anchor pattern: an [a] element whose only attribute is an [href]
    ending in [.md] (group 1) and whose content has no markup (group 2). *)
Definition match_link (s : string) : option (string * string * nat) :=
  if startswith ("<a href=" ++ dq) s then
    let '(link_path, r1) := span (is_not dq_char) (drop 9 s) in
    if endswith ".md" link_path && startswith (dq ++ ">") r1 then
      let '(link_text, r2) := span (is_not "<") (drop 2 r1) in
      if startswith "</a>" r2
      then Some (link_path, link_text,
                 9 + String.length link_path + 2 + String.length link_text + 4)
      else None
    else None
  else None.

Definition internal_link (target_index : nat) (link_text : string) : string :=
  "<a href=" ++ q "#" ++ " onclick="
  ++ q ("navigateToSection(" ++ of_nat target_index ++ "); return false;")
  ++ " class=" ++ q "internal-link" ++ ">" ++ link_text ++ "</a>".

Definition replace_link (current_file_index : nat) (s : string)
  : option (result (string * list warning) * nat) :=
  match match_link s with
  | Some (link_path, link_text, n) =>
      Some (target_index <- find_file_index_by_path link_path current_file_index ;;
            match target_index with
            | Some t => Ok (internal_link t link_text, [])
            | None => Ok (take n s, [LinkWarning link_path current_file_index])
            end, n)
  | None => None
  end.

Definition process_internal_links (html_content : string) (current_file_index : nat)
  : result (string * list warning) :=
  sub_scan (replace_link current_file_index) 0 html_content.

(** ** [convert_markdown_to_html] *)

(** [markdown.Markdown(extensions=['extra', 'toc']).convert] *)
Variable md_convert : string -> string.

Definition convert_markdown_to_html (markdown_content : string) (current_file_index : nat)
  : result (string * list warning) :=
  let markdown_content := normalize_code_fence_indentation markdown_content in
  let html_content := md_convert markdown_content in
  r <- process_internal_links html_content current_file_index ;;
  let html_content := prefix_heading_ids (fst r) current_file_index in
  let html_content := wrap_tables html_content in
  Ok (html_content, snd r).

End Resolver.

(** ** Navigation tree builder: [generate_navigation]

    [folder_tree] is a Python dict whose values are lists of
    [(index, stem)] pairs (under the keys ['root'] and ['files']) or nested
    dicts (one per folder).  Dicts keep insertion order, so a dict is an
    association list with distinct keys. *)

#[warnings="-register-all"]
Inductive node : Type :=
| Files (l : list (nat * string))
| Folder (d : list (string * node)).

Definition dict : Type := list (string * node).

(** [d[k]] when [k in d] *)
Fixpoint dict_get (k : string) (d : dict) : option node :=
  match d with
  | [] => None
  | (k', v) :: t => if String.eqb k' k then Some v else dict_get k t
  end.

(** [d[k] = v]: an existing key keeps its place, a new one goes last. *)
Fixpoint dict_set (k : string) (v : node) (d : dict) : dict :=
  match d with
  | [] => [(k, v)]
  | (k', v') :: t => if String.eqb k' k then (k', v) :: t
                     else (k', v') :: dict_set k v t
  end.

(** A root-level file: appended to the list under ['root']. *)
Definition add_root_file (e : nat * string) (folder_tree : dict) : result dict :=
  match dict_get "root" folder_tree with
  | None => Ok (dict_set "root" (Files [e]) folder_tree)
  | Some (Files l) => Ok (dict_set "root" (Files (l ++ [e])%list) folder_tree)
  | Some (Folder _) => Raise AttributeError
  end.

(** A nested file: the walk down [path_parts], creating the missing dicts,
    then the append to the list under ['files'].  Indexing a list by a string
    raises [TypeError]; a dict has no [append]. *)
Fixpoint add_nested_file (path_parts : list string) (e : nat * string)
         (current_level : dict) : result dict :=
  match path_parts with
  | [] =>
      match dict_get "files" current_level with
      | None => Ok (dict_set "files" (Files [e]) current_level)
      | Some (Files l) => Ok (dict_set "files" (Files (l ++ [e])%list) current_level)
      | Some (Folder _) => Raise AttributeError
      end
  | part :: rest =>
      match dict_get part current_level with
      | None =>
          sub <- add_nested_file rest e [] ;;
          Ok (dict_set part (Folder sub) current_level)
      | Some (Folder d) =>
          sub <- add_nested_file rest e d ;;
          Ok (dict_set part (Folder sub) current_level)
      | Some (Files _) => Raise TypeError
      end
  end.

Definition add_file (i : nat) (rel : RelPath) (folder_tree : dict) : result dict :=
  let p := rel_path rel in
  match parts (parent p) with
  | [] => add_root_file (i, stem p) folder_tree
  | _ => add_nested_file (removelast (parts p)) (i, stem p) folder_tree
  end.

Fixpoint build_tree (i : nat) (files : list RelPath) (folder_tree : dict) : result dict :=
  match files with
  | [] => Ok folder_tree
  | f :: rest =>
      t <- add_file i f folder_tree ;;
      build_tree (S i) rest t
  end.

(** [for i, filename in v]: a list yields its pairs; a dict yields its keys,
    and a key unpacks into two names only when it has two characters. *)
Fixpoint unpack_keys (d : dict) : result (list (string * string)) :=
  match d with
  | [] => Ok []
  | (String a (String b EmptyString), _) :: t =>
      r <- unpack_keys t ;;
      Ok ((String a EmptyString, String b EmptyString) :: r)
  | _ :: _ => Raise ValueError
  end.

Definition unpack_pairs (v : node) : result (list (string * string)) :=
  match v with
  | Files l => Ok (map (fun e => (of_nat (fst e), snd e)) l)
  | Folder d => unpack_keys d
  end.

(** [name.replace('_', ' ').replace('-', ' ').title()] *)
Definition display_name (s : string) : string :=
  title (replace_char "-" " " (replace_char "_" " " s)).

Definition root_link (e : string * string) : string :=
  let '(i, filename) := e in
  "<li><a href=" ++ q "#" ++ " onclick=" ++ q ("showSection(" ++ i ++ ")")
  ++ " class=" ++ q "nav-link" ++ " data-section-index=" ++ q i ++ ">"
  ++ display_name filename ++ "</a></li>".

Definition file_link (folder_id : string) (e : string * string) : string :=
  let '(i, filename) := e in
  "<li><a href=" ++ q "#" ++ " onclick=" ++ q ("showSection(" ++ i ++ ")")
  ++ " class=" ++ q "nav-link file-link" ++ " data-section-index=" ++ q i
  ++ " data-parent-folder=" ++ q folder_id ++ ">"
  ++ display_name filename ++ "</a></li>".

Definition folder_id_of (parent_path folder_name : string) : string :=
  replace_char "\" "_"
    (replace_char "/" "_"
       (if String.eqb parent_path "" then folder_name
        else parent_path ++ "_" ++ folder_name)).

Definition folder_header (folder_id clean_folder_name : string) : string :=
  nl ++ spaces 16 ++ "<li class=" ++ q "folder-item" ++ ">"
  ++ nl ++ spaces 20 ++ "<div class=" ++ q "folder-header" ++ " onclick="
  ++ q ("toggleFolder('" ++ folder_id ++ "')") ++ ">"
  ++ nl ++ spaces 24 ++ "<span class=" ++ q "material-symbols-rounded folder-icon"
  ++ " data-fallback=" ++ q "📁" ++ ">folder</span>"
  ++ nl ++ spaces 24 ++ "<span class=" ++ q "folder-name" ++ ">"
  ++ clean_folder_name ++ "</span>"
  ++ nl ++ spaces 24 ++ "<span class=" ++ q "material-symbols-rounded folder-toggle"
  ++ " data-fallback=" ++ q "▶" ++ ">chevron_right</span>"
  ++ nl ++ spaces 20 ++ "</div>"
  ++ nl ++ spaces 20 ++ "<ul class=" ++ q "folder-contents" ++ " id=" ++ q folder_id
  ++ " style=" ++ q "display: none;" ++ ">"
  ++ nl ++ spaces 16.

(** The [nav_items] one entry of [folder_tree] contributes. *)
Fixpoint folder_items (folder_name : string) (folder_content : node)
         (parent_path : string) {struct folder_content} : result (list string) :=
  if String.eqb folder_name "root" then Ok []
  else
    match folder_content with
    | Files _ => Ok []
    | Folder d =>
        let clean_folder_name := display_name folder_name in
        let folder_id := folder_id_of parent_path folder_name in
        files <- match dict_get "files" d with
                 | Some v => ps <- unpack_pairs v ;; Ok (map (file_link folder_id) ps)
                 | None => Ok []
                 end ;;
        subs <- (fix subfolders (l : list (string * node)) : result (list string) :=
                   match l with
                   | [] => Ok []
                   | (subfolder_name, subfolder_content) :: t =>
                       if String.eqb subfolder_name "files" then subfolders t
                       else
                         r <- folder_items subfolder_name subfolder_content folder_id ;;
                         rs <- subfolders t ;;
                         Ok (join nl r :: rs)
                   end) d ;;
        Ok ([folder_header folder_id clean_folder_name]
              ++ files ++ subs ++ ["</ul></li>"])%list
    end.

Fixpoint all_folder_items (folder_tree : dict) (parent_path : string)
  : result (list string) :=
  match folder_tree with
  | [] => Ok []
  | (folder_name, folder_content) :: t =>
      r <- folder_items folder_name folder_content parent_path ;;
      rs <- all_folder_items t parent_path ;;
      Ok (r ++ rs)%list
  end.

Definition _build_folder_navigation (folder_tree : dict) (parent_path : string)
  : result string :=
  nav_items <- all_folder_items folder_tree parent_path ;;
  Ok (join nl nav_items).

Definition generate_navigation (markdown_files : list RelPath) : result string :=
  folder_tree <- build_tree 0 markdown_files [] ;;
  root_items <- match dict_get "root" folder_tree with
                | Some v => ps <- unpack_pairs v ;; Ok (map root_link ps)
                | None => Ok []
                end ;;
  folders <- _build_folder_navigation folder_tree "" ;;
  Ok (join nl (root_items ++ [folders])%list).

(** ** Tag index and section assembly: [generate_html_content] *)

Record tag_entry : Type := mkTagEntry {
  entry_name : string;
  entry_index : nat;
  entry_path : string
}.

(** [tag_file_map]: a dict from tag to list of entries, in insertion order. *)
Definition tag_map : Type := list (yaml * list tag_entry).

Fixpoint tag_get (tag : yaml) (m : tag_map) : option (list tag_entry) :=
  match m with
  | [] => None
  | (k, v) :: t => if key_eqb k tag then Some v else tag_get tag t
  end.

(** The bucket of [tag] gets [e] appended; a missing bucket is created
    last. *)
Fixpoint tag_append (tag : yaml) (e : tag_entry) (m : tag_map) : tag_map :=
  match m with
  | [] => [(tag, [e])]
  | (k, v) :: t => if key_eqb k tag then (k, (v ++ [e])%list) :: t
                   else (k, v) :: tag_append tag e t
  end.

Definition is_str_tags (y : yaml) : bool :=
  match y with
  | YStr s => String.eqb s "tags"
  | _ => false
  end.

(** ['tags' in frontmatter and frontmatter['tags']]: the tags when the
    condition holds.  Membership is a key test on a dict, an element test on
    a list, a substring test on a string, and a [TypeError] on any other
    value; only a dict can then be indexed by ['tags']. *)
Definition frontmatter_tags (frontmatter : yaml) : result (option yaml) :=
  match frontmatter with
  | YMap m =>
      match find (fun kv => key_eqb (fst kv) (YStr "tags")) m with
      | Some (_, v) => Ok (if truthy v then Some v else None)
      | None => Ok None
      end
  | YSeq l => if existsb is_str_tags l then Raise TypeError else Ok None
  | YStr s => if contains "tags" s then Raise TypeError else Ok None
  | _ => Raise TypeError
  end.

(** [for tag in tags]: the elements of a list, the characters of a string,
    the keys of a dict. *)
Definition iterate (tags : yaml) : result (list yaml) :=
  match tags with
  | YSeq l => Ok l
  | YStr s => Ok (map (fun c => YStr (String c EmptyString)) (list_ascii_of_string s))
  | YMap m => Ok (map fst m)
  | _ => Raise TypeError
  end.

Fixpoint add_tags (tags : list yaml) (e : tag_entry) (tag_file_map : tag_map)
  : result tag_map :=
  match tags with
  | [] => Ok tag_file_map
  | tag :: rest =>
      if hashable tag then add_tags rest e (tag_append tag e tag_file_map)
      else Raise TypeError
  end.

Definition tag_chip (tag : yaml) : string :=
  "<span class=" ++ q "tag" ++ " data-tag=" ++ q (format_scalar tag) ++ ">"
  ++ format_scalar tag ++ " <span class=" ++ q "tag-count" ++ "></span></span>".

Record section : Type := mkSection {
  section_index : nat;
  section_id : string;
  section_title : string;
  tags_html : string;
  html_content : string;
  toc_content : string
}.

Record run_state : Type := mkState {
  sections : list section;
  tag_file_map : tag_map;
  warnings : list warning
}.

Definition title_of (rel : RelPath) : string :=
  let p := rel_path rel in
  match parts (parent p) with
  | [] => display_name (stem p)
  | _ => display_name (name (parent p)) ++ " / " ++ display_name (stem p)
  end.

Section Assembly.

Variable safe_load : string -> option yaml.
Variable md_convert : string -> string.
Variable cwd : list string.
Variable input_folder : Path.
Variable show_file_titles : bool.
Variable show_frontmatter : bool.
Variable disk : Disk.

(** [read_markdown_file]: any failure is printed and yields the empty
    string. *)
Definition read_markdown_file (f : RelPath) : string * list warning :=
  match find (fun e => if list_eq_dec string_dec (fst e) f then true else false)
             (entries disk) with
  | Some (_, Some content) => (content, [])
  | _ => (EmptyString, [ReadError f])
  end.

Definition section_header (section_title : string) : string :=
  if show_file_titles then
    nl ++ spaces 20 ++ "<div class=" ++ q "section-header" ++ ">"
    ++ nl ++ spaces 24 ++ "<h1 class=" ++ q "section-title" ++ ">"
    ++ section_title ++ "</h1>"
    ++ nl ++ spaces 20 ++ "</div>"
    ++ nl ++ spaces 20
  else EmptyString.

Definition section_html (s : section) : string :=
  nl ++ spaces 16 ++ "<div id=" ++ q (section_id s) ++ " class=" ++ q "content-section"
  ++ " style=" ++ q ("display: " ++ (if (section_index s =? 0)%nat then "block" else "none") ++ ";")
  ++ ">"
  ++ nl ++ spaces 20 ++ section_header (section_title s)
  ++ nl ++ spaces 20 ++ tags_html s
  ++ nl ++ spaces 20 ++ "<div class=" ++ q "section-content" ++ ">"
  ++ nl ++ spaces 24 ++ html_content s
  ++ nl ++ spaces 20 ++ "</div>"
  ++ nl ++ spaces 16 ++ "</div>"
  ++ nl ++ spaces 16.

(** One turn of the loop over [enumerate(self.markdown_files)]. *)
Definition process_file (markdown_files : list RelPath) (i : nat) (f : RelPath)
           (st : run_state) : result run_state :=
  let '(markdown_content, read_warnings) := read_markdown_file f in
  if negb (String.eqb (strip markdown_content) "") then
    let '(frontmatter, markdown_content, fm_warnings) :=
      parse_frontmatter safe_load markdown_content in
    r <- convert_markdown_to_html cwd input_folder markdown_files md_convert
           markdown_content i ;;
    let html_content := fst r in
    let section_id := "section-" ++ of_nat i in
    let section_title := title_of f in
    let toc_content := generate_toc html_content in
    tags <- frontmatter_tags frontmatter ;;
    tagged <- match tags with
              | Some tags =>
                  l <- iterate tags ;;
                  m <- add_tags l (mkTagEntry section_title i (str (rel_path f)))
                         (tag_file_map st) ;;
                  Ok (m, if show_frontmatter
                         then "<div class=" ++ q "frontmatter-tags" ++ ">"
                              ++ join "" (map tag_chip l) ++ "</div>"
                         else EmptyString)
              | None => Ok (tag_file_map st, EmptyString)
              end ;;
    Ok (mkState
          (sections st ++ [mkSection i section_id section_title (snd tagged)
                                     html_content toc_content])%list
          (fst tagged)
          (warnings st ++ read_warnings ++ fm_warnings ++ snd r)%list)
  else Ok (mkState (sections st) (tag_file_map st) (warnings st ++ read_warnings)%list).

Fixpoint process_files (markdown_files : list RelPath) (i : nat)
         (rest : list RelPath) (st : run_state) : result run_state :=
  match rest with
  | [] => Ok st
  | f :: rest' =>
      st' <- process_file markdown_files i f st ;;
      process_files markdown_files (S i) rest' st'
  end.

(** What [generate_html_content] hands to the page template: the sections,
    the navigation and the tag index (the template itself, styling and
    scripts, is not part of this development). *)
Record page : Type := mkPage {
  page_sections : list section;
  page_navigation : string;
  page_tags : tag_map;
  page_warnings : list warning
}.

Definition generate_html_content (markdown_files : list RelPath) : result page :=
  st <- process_files markdown_files 0 markdown_files (mkState [] [] []) ;;
  navigation <- generate_navigation markdown_files ;;
  Ok (mkPage (sections st) navigation (tag_file_map st) (warnings st)).

(** [convert], up to the write of the output file. *)
Definition convert : result page :=
  markdown_files <- find_markdown_files input_folder disk ;;
  generate_html_content markdown_files.

End Assembly.

(** ** Order of the sequence

    A line without line break, and the orders on path strings that
    [list.sort] follows: strictly below, and not above. *)

Definition no_newline (s : string) : bool := all_chars (is_not nl_char) s.

Definition key_lt {A : Type} (key : A -> string) (x y : A) : Prop :=
  String.ltb (key x) (key y) = true.

Definition key_le {A : Type} (key : A -> string) (x y : A) : Prop :=
  String.ltb (key y) (key x) = false.

(** ** Documents listed in the navigation

    [needle] occurs in [hay]; the call a navigation link makes for the
    document of ordinal [i]; and the documents a folder dict lists, under
    ['files'] at any depth. *)

Definition Contains (needle hay : string) : Prop :=
  exists a b, hay = a ++ needle ++ b.

Definition show_section (i : nat) : string := "showSection(" ++ of_nat i ++ ")".

Inductive listed (e : nat * string) : dict -> Prop :=
| listed_here (d : dict) (l : list (nat * string)) :
    dict_get "files" d = Some (Files l) -> In e l -> listed e d
| listed_below (d : dict) (k : string) (d' : dict) :
    String.eqb k "files" = false -> dict_get k d = Some (Folder d') ->
    listed e d' -> listed e d.

(** At the top of [folder_tree] the root-level documents stand under
    ['root'], the others in the dict of their first folder. *)
Definition listed_top (e : nat * string) (folder_tree : dict) : Prop :=
  (exists l, dict_get "root" folder_tree = Some (Files l) /\ In e l)
  \/ (exists k d', String.eqb k "root" = false
                   /\ dict_get k folder_tree = Some (Folder d') /\ listed e d').

(** ** The tag index as the loop fills it *)

(** [enumerate(l, start)] *)
Definition enumerate_from {A : Type} (start : nat) (l : list A) : list (nat * A) :=
  combine (seq start (List.length l)) l.

Definition entry_of (i : nat) (f : RelPath) : tag_entry :=
  mkTagEntry (title_of f) i (str (rel_path f)).

(** Keys in the order of their first occurrence, equal keys merged. *)
Fixpoint note_tag (t : yaml) (seen : list yaml) : list yaml :=
  match seen with
  | [] => [t]
  | k :: r => if key_eqb k t then k :: r else k :: note_tag t r
  end.

Definition first_seen (l : list yaml) : list yaml :=
  fold_left (fun seen t => note_tag t seen) l [].

Section TagSpec.

Variable safe_load : string -> option yaml.
Variable disk : Disk.

(** The tag list the loop reads off a document: none for a blank document
    or one without a true ['tags'] value; the run stops on a frontmatter or a
    tag of the wrong type. *)
Definition document_tags (f : RelPath) : result (list yaml) :=
  let content := fst (read_markdown_file disk f) in
  if negb (String.eqb (strip content) "") then
    tags <- frontmatter_tags (fst (fst (parse_frontmatter safe_load content))) ;;
    match tags with
    | Some tags =>
        l <- iterate tags ;;
        if forallb hashable l then Ok l else Raise TypeError
    | None => Ok []
    end
  else Ok [].

Definition tags_of (f : RelPath) : list yaml :=
  match document_tags f with
  | Ok l => l
  | Raise _ => []
  end.

(** The bucket of [t] over the tags the loop reads: document after document,
    one entry per occurrence of [t] among [tags_of] the document.  What the
    loop reads is the code's own reading of the frontmatter (the characters
    of a string, the keys of a mapping); the tag list of the specification
    is [spec_tag_list] below. *)
Definition tag_index_spec (docs : list (nat * RelPath)) (t : yaml) : list tag_entry :=
  flat_map
    (fun d => map (fun _ => entry_of (fst d) (snd d))
                  (filter (fun k => key_eqb k t) (tags_of (snd d))))
    docs.

End TagSpec.

(** The fold of [tag_append] over a tag list, the content of a bucket, and
    the agreement between an index and the entries each tag must hold. *)
Definition append_all (l : list yaml) (e : tag_entry) (m : tag_map) : tag_map :=
  fold_left (fun m t => tag_append t e m) l m.

Definition bucket (t : yaml) (m : tag_map) : list tag_entry :=
  match tag_get t m with
  | Some v => v
  | None => []
  end.

Definition nonempty {A : Type} (l : list A) : option (list A) :=
  match l with
  | [] => None
  | _ => Some l
  end.

Definition holds (m : tag_map) (L : yaml -> list tag_entry) : Prop :=
  forall t, tag_get t m = nonempty (L t).

(** ** Regular inputs

    The inputs on which every document is assembled: a frontmatter that is a
    mapping whose ['tags'] value, if any, is null or a sequence of scalars,
    and folders named neither [root] nor [files] (the two keys
    [generate_navigation] reserves in [folder_tree]). *)

Definition regular_frontmatter (frontmatter : yaml) : bool :=
  match frontmatter with
  | YMap m =>
      match find (fun kv => key_eqb (fst kv) (YStr "tags")) m with
      | Some (_, YSeq l) => forallb hashable l
      | Some (_, YNull) => true
      | Some _ => false
      | None => true
      end
  | _ => false
  end.

Definition regular_name (c : string) : bool :=
  negb (String.eqb c "root") && negb (String.eqb c "files").

(** The folders of a relative path, its file name left out. *)
Definition regular_folders (f : RelPath) : bool :=
  forallb regular_name (removelast f).

Definition is_files (v : node) : bool :=
  match v with Files _ => true | Folder _ => false end.

Definition is_folder (v : node) : bool :=
  match v with Files _ => false | Folder _ => true end.

(** A folder dict as [generate_navigation] means it: a list under ['files'],
    a dict under every other key, none of them ['root']. *)
Fixpoint wf_node (v : node) : bool :=
  match v with
  | Files _ => true
  | Folder d =>
      (fix wf_entries (l : list (string * node)) : bool :=
         match l with
         | [] => true
         | (k, v') :: t =>
             (if String.eqb k "files" then is_files v'
              else negb (String.eqb k "root") && is_folder v' && wf_node v')
             && wf_entries t
         end) d
  end.

Definition wf_entry (kv : string * node) : bool :=
  if String.eqb (fst kv) "files" then is_files (snd kv)
  else negb (String.eqb (fst kv) "root") && is_folder (snd kv) && wf_node (snd kv).

(** The top of [folder_tree]: a list under ['root'], folders elsewhere. *)
Definition wf_top_entry (kv : string * node) : bool :=
  if String.eqb (fst kv) "root" then is_files (snd kv)
  else negb (String.eqb (fst kv) "files") && is_folder (snd kv) && wf_node (snd kv).

Definition nonblank (disk : Disk) (f : RelPath) : bool :=
  negb (String.eqb (strip (fst (read_markdown_file disk f))) "").

Definition frontmatter_of (safe_load : string -> option yaml) (disk : Disk)
           (f : RelPath) : yaml :=
  fst (fst (parse_frontmatter safe_load (fst (read_markdown_file disk f)))).

(** The loop over the subfolders in [folder_items], the recursive call
    given as [F]. *)
Definition sub_items (F : string -> node -> result (list string))
  : dict -> result (list string) :=
  fix subfolders (l : dict) : result (list string) :=
    match l with
    | [] => Ok []
    | (subfolder_name, subfolder_content) :: t =>
        if String.eqb subfolder_name "files" then subfolders t
        else
          r <- F subfolder_name subfolder_content ;;
          rs <- subfolders t ;;
          Ok (join nl r :: rs)
    end.

(** ** Sample inputs

    A YAML loader and a markdown renderer to run the converter on concrete
    folders: the loader knows the few blocks used below and rejects any other
    text, the renderer wraps its input in a paragraph. *)

Definition sample_yaml (s : string) : option yaml :=
  if String.eqb s "tags: [setup, intro]"
  then Some (YMap [(YStr "tags", YSeq [YStr "setup"; YStr "intro"])])
  else if String.eqb s "tags: 5" then Some (YMap [(YStr "tags", YInt 5)])
  else if String.eqb s "title: Guide" then Some (YMap [(YStr "title", YStr "Guide")])
  else if String.eqb s "" then Some YNull
  else None.

Definition sample_md (s : string) : string := "<p>" ++ s ++ "</p>".

(** The process runs in [/home/u] on the folder [docs]. *)
Definition sample_cwd : list string := ["home"; "u"].
Definition docs : Path := parse "docs".

Definition fenced_sample : string :=
  "- item" ++ nl ++ "```py" ++ nl ++ "    x = 1" ++ nl ++ "```" ++ nl ++ "done".

Definition unclosed_sample : string :=
  "---" ++ nl ++ "title: Guide" ++ nl ++ nl ++ "# Guide".

Definition broken_sample : string :=
  "---" ++ nl ++ "tags: [setup" ++ nl ++ "---" ++ nl ++ "# Guide".

Definition broken_disk : Disk := mkDisk true [(["index.md"], Some broken_sample)].

(** The same three files, met by the directory scan in two orders. *)
(** One folder, listed by the file system in two orders: an entry document
    and a guide at the root, and an entry document in each of the
    sub-directories [a] and [b]. *)
Definition siblings_a_first : list fs_entry :=
  [ FsFile "index.md" (Some "# Home"); FsFile "guide.md" (Some "# Guide");
    FsDir "a" [FsFile "index.md" (Some "# A")];
    FsDir "b" [FsFile "index.md" (Some "# B")] ].

Definition siblings_b_first : list fs_entry :=
  [ FsFile "index.md" (Some "# Home"); FsFile "guide.md" (Some "# Guide");
    FsDir "b" [FsFile "index.md" (Some "# B")];
    FsDir "a" [FsFile "index.md" (Some "# A")] ].

Definition markdown_entry_disk : Disk :=
  mkDisk true [(["index.markdown"], Some "# Home"); (["guide.md"], Some "# Guide")].

Definition markdown_only_disk : Disk :=
  mkDisk true [(["index.markdown"], Some "# Home")].

(** Document A at [x/a.md] links to [../b.md]; B is [b.md] at the root, and
    another [b.md] lives in the folder [a]. *)
Definition parent_link : string := "<a href=" ++ q "../b.md" ++ ">B</a>".

Definition link_disk : Disk :=
  mkDisk true [(["index.md"], Some "# Home");
               (["b.md"], Some "# B");
               (["a"; "b.md"], Some "# Other B");
               (["x"; "a.md"], Some parent_link)].

Definition link_files : list RelPath :=
  [["index.md"]; ["a"; "b.md"]; ["b.md"]; ["x"; "a.md"]].

(** Two folders: [a_b] at the root, and [b] inside [a]. *)
Definition folder_files : list RelPath :=
  [["index.md"]; ["a"; "b"; "x.md"]; ["a_b"; "y.md"]].

(** A blank document inside a folder named [root]. *)
Definition blank_disk : Disk :=
  mkDisk true [(["index.md"], Some "Welcome"); (["a"; "root"; "x.md"], Some "  ")].



Definition tagged_disk : Disk :=
  mkDisk true
    [(["index.md"], Some ("See <a href=" ++ q "guide/setup.md" ++ ">the setup</a>"));
     (["guide"; "setup.md"],
      Some ("---" ++ nl ++ "tags: [setup, intro]" ++ nl ++ "---" ++ nl ++ "Setup"))].


(** An entry document with an unresolved link, a blank document and a
    tagged one. *)
Definition mixed_disk : Disk :=
  mkDisk true
    [(["index.md"], Some ("See <a href=" ++ q "missing.md" ++ ">this</a>"));
     (["guide"; "setup.md"],
      Some ("---" ++ nl ++ "tags: [setup, intro]" ++ nl ++ "---" ++ nl ++ "Setup"));
     (["guide"; "empty.md"], Some nl)].

(** The folder of [link_disk], its files met in another order. *)
Definition link_disk_rescanned : Disk :=
  mkDisk true [(["x"; "a.md"], Some parent_link);
               (["a"; "b.md"], Some "# Other B");
               (["index.md"], Some "# Home");
               (["b.md"], Some "# B")].

Definition closed_sample : string :=
  "---" ++ nl ++ "tags: [setup, intro]" ++ nl ++ "---" ++ nl ++ nl ++ "# Setup" ++ nl.

(** ** Folder names and identifiers

    A character that is neither the underscore that joins the identifiers
    nor a slash or backslash that [folder_id] turns into one; a folder name
    made of such characters; a character that is no word separator of
    [display_name]. *)

Definition id_safe_char (c : ascii) : bool :=
  negb (Ascii.eqb c "_") && negb (Ascii.eqb c "/") && negb (Ascii.eqb c "\").

Definition clean_name (n : string) : bool :=
  negb (String.eqb n "") && all_chars id_safe_char n.

Definition no_slash_char (c : ascii) : bool :=
  negb (Ascii.eqb c "/") && negb (Ascii.eqb c "\").

Definition no_separator_char (c : ascii) : bool :=
  negb (Ascii.eqb c "_") && negb (Ascii.eqb c "-").

(** ** A heading element

    A heading as the renderer writes it: the level, an [id] as only
    attribute, the text and the closing tag (whose level the patterns do not
    compare with the opening one).  [plain] characters stand outside markup;
    an id or a text is made of characters that end neither an attribute value
    nor a tag. *)

Definition heading_element (d : ascii) (id text : string) (d' : ascii) : string :=
  "<h" ++ String d (" id=" ++ q id ++ ">" ++ text ++ "</h" ++ String d' ">").

Definition is_level (d : ascii) : bool := in_range 49 54 d.

Definition plain_char (c : ascii) : bool :=
  negb (Ascii.eqb c "<") && negb (Ascii.eqb c dq_char).

Definition id_char (c : ascii) : bool :=
  negb (Ascii.eqb c dq_char) && negb (Ascii.eqb c ">") && negb (Ascii.eqb c "<").

Definition text_char (c : ascii) : bool :=
  negb (Ascii.eqb c "<") && negb (Ascii.eqb c dq_char) && negb (Ascii.eqb c nl_char).

(** The entry [generate_toc] writes for a heading. *)
Definition toc_entry (level : ascii) (heading_id clean_text : string) : string :=
  "<li class=" ++ q ("toc-level-" ++ String level "") ++ "><a href="
  ++ q ("#" ++ heading_id) ++ " onclick="
  ++ q ("event.preventDefault(); scrollToHeading('" ++ heading_id ++ "'); return false;")
  ++ ">" ++ clean_text ++ "</a></li>".

(** A renderer of one-line documents: the line becomes a first-level heading
    whose id is the line in lower case. *)
Definition heading_md (s : string) : string := heading_element "1" (lower s) s "1".

(** ** Configuration: [load_config] and the constructor *)

(** [v.get(key, default)]: only a dict has [get]. *)
Definition py_get (v : yaml) (key : string) (default : yaml) : result yaml :=
  match v with
  | YMap m =>
      match find (fun kv => key_eqb (fst kv) (YStr key)) m with
      | Some (_, x) => Ok x
      | None => Ok default
      end
  | _ => Raise AttributeError
  end.

(** A configuration file as [load_config] meets it: absent, present but
    failing to open or to parse, or parsed to a value. *)
Inductive config_file : Type :=
| NoFile
| Unreadable
| Parsed (v : yaml).

(** [load_config]: the file given by the user, else the one beside the
    program; whatever is raised on the way is printed and gives [{}]. *)
Definition load_config (user packaged : config_file) : yaml :=
  match user with
  | Parsed config => if truthy config then config else YMap []
  | Unreadable => YMap []
  | NoFile =>
      match packaged with
      | Parsed config => if truthy config then config else YMap []
      | _ => YMap []
      end
  end.

(** The attributes [__init__] reads from the configuration. *)
Record settings : Type := mkSettings {
  enable_chat : yaml;
  show_file_titles : yaml;
  show_frontmatter : yaml;
  enable_datatables : yaml
}.

Definition __init__ (cli_enable_chat : option bool) (user packaged : config_file)
  : result settings :=
  let config := load_config user packaged in
  chat <- match cli_enable_chat with
          | Some b => Ok (YBool b)
          | None =>
              section <- py_get config "chat" (YMap []) ;;
              py_get section "enabled" (YBool true)
          end ;;
  features <- py_get config "features" (YMap []) ;;
  titles <- py_get features "show_file_titles" (YBool true) ;;
  features <- py_get config "features" (YMap []) ;;
  frontmatter <- py_get features "show_frontmatter" (YBool true) ;;
  features <- py_get config "features" (YMap []) ;;
  datatables <- py_get features "enable_datatables" (YBool false) ;;
  Ok (mkSettings chat titles frontmatter datatables).

Definition is_dict (v : yaml) : bool :=
  match v with YMap _ => true | _ => false end.

(** The value under [key] is a dict, or [key] is absent. *)
Definition section_is_dict (config : yaml) (key : string) : bool :=
  match config with
  | YMap m =>
      match find (fun kv => key_eqb (fst kv) (YStr key)) m with
      | Some (_, x) => is_dict x
      | None => true
      end
  | _ => false
  end.

(** ** Theme families: [get_theme_families] *)

(** [key in v] for a string [key]: a key test on a dict, an element test on
    a list, a substring test on a string. *)
Definition py_in (key : string) (v : yaml) : result bool :=
  match v with
  | YMap m => Ok (existsb (fun kv => key_eqb (fst kv) (YStr key)) m)
  | YSeq l => Ok (existsb (fun x => key_eqb x (YStr key)) l)
  | YStr s => Ok (contains key s)
  | _ => Raise TypeError
  end.

(** [v.keys()] *)
Definition py_keys (v : yaml) : result (list yaml) :=
  match v with
  | YMap m => Ok (map fst m)
  | _ => Raise AttributeError
  end.

(** [theme_name.rsplit('_', 1)[0]] *)
Definition family_base (theme_name : string) : string :=
  match rfind "_" theme_name with
  | Some i => take i theme_name
  | None => theme_name
  end.

(** One turn of the loop over [themes.keys()]; a key that is not a string
    has no substring test. *)
Definition add_family (families : list (string * string)) (theme_name : yaml)
  : result (list (string * string)) :=
  match theme_name with
  | YStr theme_name =>
      if contains "_" theme_name
         && (endswith "_light" theme_name || endswith "_dark" theme_name)
      then
        let family_base := family_base theme_name in
        if existsb (fun kv => String.eqb (fst kv) family_base) families
        then Ok families
        else Ok (families ++ [(family_base, title (replace_char "_" " " family_base))])%list
      else Ok families
  | _ => Raise TypeError
  end.

Fixpoint add_families (families : list (string * string)) (theme_names : list yaml)
  : result (list (string * string)) :=
  match theme_names with
  | [] => Ok families
  | theme_name :: rest =>
      families <- add_family families theme_name ;;
      add_families families rest
  end.

Definition get_theme_families (config : yaml) : result (list (string * string)) :=
  themes <- py_get config "themes" (YMap []) ;;
  light <- py_in "light" themes ;;
  light_or_dark <- (if light then Ok true else py_in "dark" themes) ;;
  let families := if light_or_dark then [("default", "Default")] else [] in
  theme_names <- py_keys themes ;;
  families <- add_families families theme_names ;;
  Ok (sort_by fst families).

(** [get_default_theme] and [get_default_mode] *)
Definition get_default_theme (config : yaml) : result yaml :=
  styling <- py_get config "styling" (YMap []) ;;
  py_get styling "default_theme" (YStr "default").

Definition get_default_mode (config : yaml) : result yaml :=
  styling <- py_get config "styling" (YMap []) ;;
  py_get styling "default_mode" (YStr "system").

(** A configuration with two families and the two unprefixed themes. *)
Definition themed_config : yaml :=
  YMap [(YStr "themes",
         YMap [(YStr "rose_pine_dark", YMap []); (YStr "light", YMap []);
               (YStr "nord_light", YMap []); (YStr "rose_pine_light", YMap []);
               (YStr "dark", YMap [])])].

(** Families with distinct keys, each displayed under the name made from its
    key. *)
Definition named (families : list (string * string)) : Prop :=
  NoDup (map fst families)
  /\ forall f dn, In (f, dn) families -> dn = title (replace_char "_" " " f).

(** ** Components of a relative path

    A component as a directory scan yields it: not empty, neither ["."] nor
    [".."], without slash or backslash.  A link component may also be
    [".."]. *)

Definition link_component (c : string) : bool :=
  negb (String.eqb c "") && negb (String.eqb c ".") && all_chars no_slash_char c.

Definition component (c : string) : bool :=
  link_component c && negb (String.eqb c "..").

(** ** The offline test version: [offline_test.py]

    [create_offline_version] rewrites the addresses of the content delivery
    networks in a generated page so that they no longer load. *)

(** A character of [[0-9.]]. *)
Definition version_char (c : ascii) : bool := is_digit c || Ascii.eqb c ".".

(** [[0-9.]+] followed by the literal [rest]: the longest run of version
    characters after which [rest] follows; the characters spanned by both. *)
Fixpoint version_then (rest : string) (s : string) : option nat :=
  match s with
  | EmptyString => None
  | String c s' =>
      if version_char c then
        match version_then rest s' with
        | Some n => Some (S n)
        | None => if startswith rest s' then Some (S (String.length rest)) else None
        end
      else None
  end.

(** A pattern made of a literal, a version and a literal. *)
Definition versioned (before after repl : string) (s : string) : option (string * nat) :=
  if startswith before s then
    match version_then after (drop (String.length before) s) with
    | Some n => Some (repl, String.length before + n)
    | None => None
    end
  else None.

Definition replacements : list (string -> option (string * nat)) :=
  [ literal "https://fonts.googleapis.com" "https://fonts.googleapis.com/BROKEN";
    literal "https://fonts.gstatic.com" "https://fonts.gstatic.com/BROKEN";
    literal "https://cdnjs.cloudflare.com/ajax/libs/prism"
            "https://cdnjs.cloudflare.com/BROKEN/prism";
    versioned "https://code.jquery.com/jquery-" ".min.js"
              "https://code.jquery.com/BROKEN_jquery.js";
    versioned "https://cdn.datatables.net/" "/js/jquery.dataTables.min.js"
              "https://cdn.datatables.net/BROKEN_datatables.js" ].

(** One turn of the loop over [replacements]. *)
Definition break_pattern (st : string * nat) (pattern : string -> option (string * nat))
  : string * nat :=
  let '(content, broken_count) := st in
  let matches := List.length (findall_scan pattern 0 content) in
  if (0 <? matches)%nat
  then (sub_plain pattern 0 content, broken_count + matches)
  else (content, broken_count).

Definition break_links (content : string) : string * nat :=
  fold_left break_pattern replacements (content, 0).

(** What a run does: it leaves with an exit code, or writes [content] to
    [output_file] and reports [broken_count]. *)
Inductive offline_outcome : Type :=
| Exit (code : nat)
| Written (output_file : string) (content : string) (broken_count : nat).

(** [input] is what stands at [input_file]: nothing, or a file that reads
    as a string. *)
Definition create_offline_version (input_file : string) (output_file : option string)
           (input : option string) : offline_outcome :=
  match input with
  | None => Exit 1
  | Some content =>
      let output_file :=
        match output_file with
        | None => stem (parse input_file) ++ "_offline.html"
        | Some output_file => output_file
        end in
      let '(content, broken_count) := break_links content in
      Written output_file content broken_count
  end.

(** Case analysis on the eight bits of a character. *)
Ltac by_bits c :=
  destruct c as [[|] [|] [|] [|] [|] [|] [|] [|]].

(** ** Characters a path or a name is made of

    The NUL character, which no file name holds and on which [Path.resolve]
    raises; and the ASCII characters, on which [str.title] and the other case
    mappings act as they do here. *)

Definition nul_char : ascii := ascii_of_nat 0.

Definition no_nul (s : string) : bool := all_chars (is_not nul_char) s.

Definition is_ascii (c : ascii) : bool := (nat_of_ascii c <? 128)%nat.

(** ** A heading with a class

    The renderer writes the attributes of an element in alphabetical order:
    for the line [## Intro {: .lead }] the [class] given by the attribute
    list stands before the [id] given by the table-of-contents extension.
    [lead_md] knows this one line and renders any other text as
    [sample_md] does. *)

Definition lead_heading (id text : string) : string :=
  "<h2 class=" ++ q "lead" ++ " id=" ++ q id ++ ">" ++ text ++ "</h2>".

Definition lead_line : string := "## Intro {: .lead }".

Definition lead_md (s : string) : string :=
  if String.eqb s lead_line then lead_heading "intro" "Intro" else sample_md s.

(** ** The tag list of a document, as the specification words it

    Modelled on the specification's wording ([tags] is a sequence of
    strings; the accessor reads the tags as a sequence of strings, defaulting
    to empty): the strings of the sequence under [tags], and no tag when the
    frontmatter holds no such sequence. *)

Definition as_string (y : yaml) : option string :=
  match y with
  | YStr s => Some s
  | _ => None
  end.

Fixpoint strings_of (l : list yaml) : option (list string) :=
  match l with
  | [] => Some []
  | y :: r =>
      match as_string y, strings_of r with
      | Some s, Some ss => Some (s :: ss)
      | _, _ => None
      end
  end.

Definition spec_tag_list (frontmatter : yaml) : list string :=
  match frontmatter with
  | YMap m =>
      match find (fun kv => key_eqb (fst kv) (YStr "tags")) m with
      | Some (_, YSeq l) =>
          match strings_of l with
          | Some tags => tags
          | None => []
          end
      | _ => []
      end
  | _ => []
  end.

(** The bucket of [t]: document after document, one entry per occurrence of
    [t] in the tag list of the document. *)
Definition spec_tag_index (safe_load : string -> option yaml) (disk : Disk)
           (docs : list (nat * RelPath)) (t : string) : list tag_entry :=
  flat_map
    (fun d => map (fun _ => entry_of (fst d) (snd d))
                  (filter (String.eqb t)
                          (spec_tag_list (frontmatter_of safe_load disk (snd d)))))
    docs.

(** A loader that also knows a block whose [tags] value is one string, and
    an entry document with that block. *)
Definition scalar_yaml (s : string) : option yaml :=
  if String.eqb s "tags: setup" then Some (YMap [(YStr "tags", YStr "setup")])
  else sample_yaml s.

Definition string_tag_disk : Disk :=
  mkDisk true
    [(["index.md"],
      Some ("---" ++ nl ++ "tags: setup" ++ nl ++ "---" ++ nl ++ "Welcome"))].

(** ** What a run leaves of the anomalies of its documents *)


Section Anomalies.

Variable safe_load : string -> option yaml.
Variable md_convert : string -> string.
Variable cwd : list string.
Variable input_folder : Path.
Variable disk : Disk.
Variable markdown_files : list RelPath.





End Anomalies.


(** ** Folders of the navigation tree

    The document [e] stands in the folder reached from the dict [d] through
    the chain of folder names; and, at the top of [folder_tree], in the list
    under ['root'] for the empty chain. *)

Inductive listed_at (e : nat * string) : list string -> dict -> Prop :=
| listed_at_here (d : dict) (l : list (nat * string)) :
    dict_get "files" d = Some (Files l) -> In e l -> listed_at e [] d
| listed_at_below (d : dict) (k : string) (d' : dict) (chain : list string) :
    String.eqb k "files" = false -> dict_get k d = Some (Folder d') ->
    listed_at e chain d' -> listed_at e (k :: chain) d.

Definition listed_top_at (e : nat * string) (chain : list string) (folder_tree : dict)
  : Prop :=
  match chain with
  | [] => exists l, dict_get "root" folder_tree = Some (Files l) /\ In e l
  | k :: chain' =>
      String.eqb k "root" = false
      /\ exists d', dict_get k folder_tree = Some (Folder d') /\ listed_at e chain' d'
  end.

(** The identifier of the folder reached from the root through a chain of
    names: [_build_folder_navigation] hands the identifier of a folder to its
    subfolders as their parent path. *)
Definition chain_id (chain : list string) : string :=
  fold_left folder_id_of chain "".

(** Documents in two folders named [docs], under [a] and under [b]. *)
Definition docs_files : list RelPath :=
  [["index.md"]; ["a"; "docs"; "x.md"]; ["b"; "docs"; "y.md"]].

(** A frontmatter whose tags are as the specification has them: a mapping
    whose [tags] value, if any, is a sequence of strings or counts as
    absent. *)
Definition tags_as_specified (frontmatter : yaml) : bool :=
  match frontmatter with
  | YMap m =>
      match find (fun kv => key_eqb (fst kv) (YStr "tags")) m with
      | Some (_, YSeq l) =>
          match strings_of l with
          | Some _ => true
          | None => false
          end
      | Some (_, v) => negb (truthy v)
      | None => true
      end
  | _ => false
  end.

(** * Properties *)

#[local] Arguments Ascii.eqb : simpl never.

(** ** Strings *)

Lemma string_app_assoc (a b c : string) : (a ++ b) ++ c = a ++ (b ++ c).
Proof. induction a as [|x a IH]; simpl; [reflexivity | now rewrite IH]. Qed.

Lemma string_app_nil_r (a : string) : a ++ "" = a.
Proof. induction a as [|x a IH]; simpl; [reflexivity | now rewrite IH]. Qed.

Lemma drop_zero (s : string) : drop 0 s = s.
Proof. now destruct s. Qed.

Lemma startswith_nil (s : string) : startswith "" s = true.
Proof. now destruct s. Qed.

(** ** Heading namespacer *)

Lemma digits_of_uint (d : Decimal.uint) :
  all_chars is_digit (DecimalString.NilEmpty.string_of_uint d) = true.
Proof. induction d; simpl; auto. Qed.

Lemma of_nat_digits (n : nat) : all_chars is_digit (of_nat n) = true.
Proof. apply digits_of_uint. Qed.

Lemma of_nat_inj (n m : nat) : of_nat n = of_nat m -> n = m.
Proof.
  unfold of_nat. intros H.
  assert (E : Some (Nat.to_uint n) = Some (Nat.to_uint m)).
  { rewrite <- !DecimalString.NilEmpty.usu. now rewrite H. }
  injection E as E.
  rewrite <- (DecimalNat.Unsigned.of_to n), <- (DecimalNat.Unsigned.of_to m).
  now rewrite E.
Qed.

(** Two runs of digits followed by a hyphen agree as soon as the texts do,
    whatever follows the hyphen. *)
Lemma digits_dash_inj (a b x y : string) :
  all_chars is_digit a = true -> all_chars is_digit b = true ->
  a ++ String "-" x = b ++ String "-" y -> a = b.
Proof.
  revert b. induction a as [|c a IH]; intros [|c' b] Ha Hb E; simpl in *.
  - reflexivity.
  - injection E as E1 E2. subst c'. discriminate.
  - injection E as E1 E2. subst c. discriminate.
  - apply andb_true_iff in Ha as [_ Ha]. apply andb_true_iff in Hb as [_ Hb].
    injection E as E1 E2. subst c'. f_equal. now apply IH.
Qed.

(** The ids written by the namespacer under distinct ordinals never
    coincide, whatever the local ids are. *)
Lemma new_id_injective_across_documents (i j : nat) (u v : string) :
  i <> j -> new_id i u <> new_id j v.
Proof.
  intros Hij E. apply Hij. unfold new_id in E. simpl in E.
  injection E as E.
  apply of_nat_inj. eapply digits_dash_inj; eauto using of_nat_digits.
Qed.

Lemma new_id_injective_witness :
  1 <> 11 /\ new_id 1 "1-intro" <> new_id 11 "intro".
Proof.
  split; [discriminate | apply (new_id_injective_across_documents 1 11); discriminate].
Defined.

(** ** Code-fence normalisation *)

Lemma split_on_nonempty (c : ascii) (s : string) : split_on c s <> [].
Proof.
  induction s as [|a s IH]; simpl; [discriminate|].
  destruct (Ascii.eqb a c); [discriminate|].
  destruct (split_on c s); [contradiction | discriminate].
Qed.

Lemma join_cons (sep x : string) (l : list string) :
  l <> [] -> join sep (x :: l) = x ++ sep ++ join sep l.
Proof. destruct l; [contradiction | reflexivity]. Qed.

Lemma join_split (s : string) : join nl (split_on nl_char s) = s.
Proof.
  induction s as [|a s IH]; simpl; [reflexivity|].
  destruct (Ascii.eqb_spec a nl_char) as [->|Hne].
  - rewrite join_cons by apply split_on_nonempty. simpl. now rewrite IH.
  - destruct (split_on nl_char s) as [|w ws] eqn:E.
    + now apply split_on_nonempty in E.
    + destruct ws as [|w' ws]; simpl in *; now rewrite <- IH.
Qed.

Lemma split_on_plain (c : ascii) (s : string) :
  all_chars (is_not c) s = true -> split_on c s = [s].
Proof.
  induction s as [|a s IH]; simpl; [reflexivity|].
  unfold is_not at 1. intros H. apply andb_true_iff in H as [Ha Hs].
  apply negb_true_iff in Ha. rewrite Ha, (IH Hs). reflexivity.
Qed.

Lemma split_on_app (c : ascii) (l t : string) :
  all_chars (is_not c) l = true ->
  split_on c (l ++ String c t) = l :: split_on c t.
Proof.
  induction l as [|a l IH]; simpl.
  - intros _. now rewrite Ascii.eqb_refl.
  - unfold is_not at 1. intros H. apply andb_true_iff in H as [Ha Hl].
    apply negb_true_iff in Ha. rewrite Ha, (IH Hl). reflexivity.
Qed.

Lemma split_join (lines : list string) :
  lines <> [] -> forallb no_newline lines = true ->
  split_on nl_char (join nl lines) = lines.
Proof.
  induction lines as [|l rest IH]; [contradiction|].
  intros _ H. simpl in H. apply andb_true_iff in H as [Hl Hrest].
  destruct rest as [|l' rest].
  - simpl. now apply split_on_plain.
  - rewrite join_cons by discriminate. unfold nl at 1. simpl append.
    change (String (ascii_of_nat 10) (join nl (l' :: rest)))
      with (String nl_char (join nl (l' :: rest))).
    rewrite split_on_app by exact Hl.
    f_equal. apply IH; [discriminate | exact Hrest].
Qed.

Lemma split_on_no_sep (c : ascii) (s : string) :
  forallb (all_chars (is_not c)) (split_on c s) = true.
Proof.
  induction s as [|a s IH]; simpl; [reflexivity|].
  destruct (Ascii.eqb a c) eqn:E; simpl; [exact IH|].
  destruct (split_on c s) as [|w ws]; simpl in *.
  - unfold is_not. now rewrite E.
  - unfold is_not at 1. now rewrite E.
Qed.

Lemma all_chars_drop (p : ascii -> bool) (n : nat) (s : string) :
  all_chars p s = true -> all_chars p (drop n s) = true.
Proof.
  revert s. induction n as [|n IH]; intros [|a s]; simpl; auto.
  intros H. apply andb_true_iff in H as [_ H]. auto.
Qed.

Lemma all_chars_dedent (p : ascii -> bool) (k : nat) (s : string) :
  all_chars p s = true -> all_chars p (dedent k s) = true.
Proof.
  unfold dedent. destruct (startswith (spaces k) s); auto using all_chars_drop.
Qed.

Lemma normalize_lines_no_newline (lines : list string) :
  forall b k, forallb no_newline lines = true ->
              forallb no_newline (normalize_lines b k lines) = true.
Proof.
  induction lines as [|l rest IH]; intros b k H; simpl in *; [reflexivity|].
  apply andb_true_iff in H as [Hl Hrest].
  destruct (fence_match l), b; simpl; apply andb_true_iff; split; auto;
    solve [apply all_chars_drop; exact Hl | apply all_chars_dedent; exact Hl].
Qed.

Lemma normalize_lines_nonempty (lines : list string) (b : bool) (k : nat) :
  lines <> [] -> normalize_lines b k lines <> [].
Proof.
  destruct lines as [|l rest]; [contradiction|]. intros _. simpl.
  destruct (fence_match l), b; discriminate.
Qed.

(** Dropping leading spaces of a line does not change whether it is a
    fence. *)
Lemma leading_spaces_drop (n : nat) (s : string) :
  n <= leading_spaces s ->
  leading_spaces (drop n s) = leading_spaces s - n /\
  drop (leading_spaces s - n) (drop n s) = drop (leading_spaces s) s.
Proof.
  revert s. induction n as [|n IH]; intros s H.
  - rewrite drop_zero, Nat.sub_0_r. auto.
  - destruct s as [|a s]; simpl in *; [lia|].
    destruct (Ascii.eqb a " "); simpl in *; [|lia].
    apply IH. lia.
Qed.

Lemma fence_match_drop (n : nat) (s : string) :
  n <= leading_spaces s ->
  fence_match (drop n s) = option_map (fun k => k - n) (fence_match s).
Proof.
  intros H. unfold fence_match.
  destruct (leading_spaces_drop n s H) as [E1 E2]. rewrite E1, E2.
  now destruct (startswith "```" (drop (leading_spaces s) s)).
Qed.

Lemma startswith_spaces (k : nat) (s : string) :
  startswith (spaces k) s = true -> k <= leading_spaces s.
Proof.
  revert s. induction k as [|k IH]; intros s H; [lia|].
  destruct s as [|a s]; simpl in *; [discriminate|].
  apply andb_true_iff in H as [Ha H].
  rewrite Ascii.eqb_sym in Ha. rewrite Ha. apply IH in H. lia.
Qed.

Lemma fence_match_dedent (k : nat) (s : string) :
  fence_match (dedent k s) = None <-> fence_match s = None.
Proof.
  unfold dedent. destruct (startswith (spaces k) s) eqn:E; [|tauto].
  rewrite fence_match_drop by now apply startswith_spaces.
  destruct (fence_match s); simpl; split; congruence.
Qed.

Lemma fence_match_opening (s : string) (indent : nat) :
  fence_match s = Some indent -> fence_match (drop indent s) = Some 0.
Proof.
  intros H.
  assert (indent = leading_spaces s) as ->.
  { unfold fence_match in H. destruct (startswith _ _); congruence. }
  rewrite fence_match_drop by lia. rewrite H. simpl. f_equal. lia.
Qed.

Lemma dedent_zero (s : string) : dedent 0 s = s.
Proof. unfold dedent. simpl. now destruct s. Qed.

Lemma normalize_lines_idempotent (lines : list string) :
  forall b k,
    normalize_lines b 0 (normalize_lines b k lines) = normalize_lines b k lines.
Proof.
  induction lines as [|l rest IH]; intros b k; simpl; [reflexivity|].
  destruct (fence_match l) as [indent|] eqn:E.
  - destruct b; simpl.
    + destruct (fence_match (dedent k l)) eqn:E'.
      * now rewrite dedent_zero, IH.
      * apply fence_match_dedent in E'. congruence.
    + rewrite (fence_match_opening _ _ E). simpl. now rewrite ?drop_zero, IH.
  - destruct b; simpl.
    + rewrite (proj2 (fence_match_dedent k l) E). now rewrite dedent_zero, IH.
    + rewrite E. now rewrite IH.
Qed.

Lemma normalize_lines_unindented (lines : list string) :
  (forall l k, In l lines -> fence_match l = Some k -> k = 0) ->
  forall b, normalize_lines b 0 lines = lines.
Proof.
  induction lines as [|l rest IH]; intros H b; simpl; [reflexivity|].
  assert (Hrest : forall l' k, In l' rest -> fence_match l' = Some k -> k = 0)
    by (intros; eapply H; [right|]; eauto).
  destruct (fence_match l) as [indent|] eqn:E.
  - rewrite (H l indent (or_introl eq_refl) E).
    destruct b; simpl; now rewrite ?dedent_zero, ?drop_zero, IH.
  - destruct b; now rewrite ?dedent_zero, IH.
Qed.

(** C6: code-fence normalisation is idempotent, and a body whose fence lines
    carry no indentation is returned unchanged. *)
Theorem normalize_code_fence_indentation_idempotent (body : string) :
  normalize_code_fence_indentation (normalize_code_fence_indentation body)
  = normalize_code_fence_indentation body
  /\ ((forall l k, In l (split_on nl_char body) -> fence_match l = Some k -> k = 0) ->
      normalize_code_fence_indentation body = body).
Proof.
  unfold normalize_code_fence_indentation. split.
  - rewrite split_join.
    + now rewrite normalize_lines_idempotent.
    + apply normalize_lines_nonempty, split_on_nonempty.
    + apply normalize_lines_no_newline, split_on_no_sep.
  - intros H. rewrite normalize_lines_unindented by exact H. apply join_split.
Qed.

Lemma normalize_code_fence_indentation_witness :
  (forall l k, In l (split_on nl_char fenced_sample) -> fence_match l = Some k -> k = 0)
  /\ normalize_code_fence_indentation fenced_sample = fenced_sample.
Proof.
  assert (H : forall l k, In l (split_on nl_char fenced_sample) ->
                          fence_match l = Some k -> k = 0).
  { intros l k Hin Hm. vm_compute in Hin.
    repeat (destruct Hin as [<-|Hin]; [vm_compute in Hm; congruence|]).
    contradiction. }
  split; [exact H|].
  exact (proj2 (normalize_code_fence_indentation_idempotent fenced_sample) H).
Defined.

(** ** Link resolver: it never raises on a document of the sequence *)

Lemma find_file_index_by_path_ok cwd input_folder markdown_files link_path i f :
  nth_error markdown_files i = Some f ->
  exists r, find_file_index_by_path cwd input_folder markdown_files link_path i = Ok r.
Proof.
  intros H. unfold find_file_index_by_path. rewrite H.
  destruct (first_index _ 0 markdown_files); eauto.
Qed.

Lemma sub_scan_ok try_match :
  (forall s r n, try_match s = Some (r, n) -> exists x, r = Ok x) ->
  forall s skip, exists y, sub_scan try_match skip s = Ok y.
Proof.
  intros Hm s. induction s as [|c s IH]; intros skip; simpl; [eauto|].
  destruct skip as [|k]; [|apply IH].
  destruct (try_match (String c s)) as [[r n]|] eqn:E.
  - destruct (Hm _ _ _ E) as [x ->]. destruct (IH (n - 1)) as [y ->].
    simpl. eauto.
  - destruct (IH 0) as [y ->]. simpl. eauto.
Qed.

Lemma process_internal_links_ok cwd input_folder markdown_files html i f :
  nth_error markdown_files i = Some f ->
  exists r, process_internal_links cwd input_folder markdown_files html i = Ok r.
Proof.
  intros H. apply sub_scan_ok. intros s r n E.
  unfold replace_link in E. destruct (match_link s) as [[[lp lt] m]|]; [|discriminate].
  injection E as <- <-.
  destruct (find_file_index_by_path_ok cwd input_folder markdown_files lp i f H)
    as [t ->].
  simpl. destruct t; eauto.
Qed.

Lemma convert_markdown_to_html_ok cwd input_folder markdown_files md body i f :
  nth_error markdown_files i = Some f ->
  exists r, convert_markdown_to_html cwd input_folder markdown_files md body i = Ok r.
Proof.
  intros H. unfold convert_markdown_to_html.
  destruct (process_internal_links_ok cwd input_folder markdown_files
              (md (normalize_code_fence_indentation body)) i f H) as [r ->].
  simpl. eauto.
Qed.

(** ** Frontmatter splitter *)

(** C7, as stated, fails: an opening delimiter without a closing one yields
    the empty mapping and the text as it was, and no warning. *)
Lemma unclosed_frontmatter_is_silent :
  parse_frontmatter sample_yaml unclosed_sample = (YMap [], unclosed_sample, []).
Proof. vm_compute. reflexivity. Qed.

(** C7, amended: a block without closing delimiter yields the empty mapping,
    the text unchanged and no warning; a delimited block the loader rejects
    yields the empty mapping, the text after the block and one warning; in
    both cases the document is assembled and the loop goes on. *)
Theorem malformed_frontmatter_is_recoverable
        safe_load md cwd input_folder show_frontmatter disk
        markdown_files i f st content rw :
  startswith "---" (strip content) = true ->
  nth_error markdown_files i = Some f ->
  read_markdown_file disk f = (content, rw) ->
  let lines := split_on nl_char (strip content) in
  (first_closing 1 (tl lines) = None ->
   parse_frontmatter safe_load content = (YMap [], content, []))
  /\ (forall end_index,
         first_closing 1 (tl lines) = Some end_index ->
         safe_load (join nl (firstn (end_index - 1) (tl lines))) = None ->
         parse_frontmatter safe_load content
         = (YMap [], strip (join nl (skipn (end_index + 1) lines)),
            [FrontmatterWarning]))
  /\ (fst (fst (parse_frontmatter safe_load content)) = YMap [] ->
      exists st' sec,
        process_file safe_load md cwd input_folder show_frontmatter disk
                     markdown_files i f st = Ok st'
        /\ sections st' = (sections st ++ [sec])%list
        /\ section_index sec = i
        /\ tag_file_map st' = tag_file_map st).
Proof.
  intros Hstart Hnth Hread lines. subst lines.
  unfold parse_frontmatter at 1 2. rewrite Hstart.
  repeat split.
  - intros Hnone. rewrite Hnone. now destruct (1 <? _)%nat.
  - intros end_index Hsome Hload. rewrite Hsome.
    destruct (split_on nl_char (strip content)) as [|l0 [|l1 ls]] eqn:E;
      simpl in Hsome; try discriminate.
    simpl Nat.ltb. cbv iota. simpl tl in *. now rewrite Hload.
  - intros Hfm. unfold process_file. rewrite Hread.
    assert (Hne : String.eqb (strip content) "" = false)
      by (destruct (strip content); [discriminate | reflexivity]).
    rewrite Hne. simpl negb. cbv iota.
    destruct (parse_frontmatter safe_load content) as [[fm body] fw].
    simpl in Hfm. subst fm.
    destruct (convert_markdown_to_html_ok cwd input_folder markdown_files md body i f Hnth)
      as [r ->].
    simpl. eexists _, _. repeat split.
Qed.

Lemma malformed_frontmatter_witness :
  parse_frontmatter sample_yaml broken_sample
  = (YMap [], "# Guide", [FrontmatterWarning])
  /\ exists st' sec,
      process_file sample_yaml sample_md sample_cwd docs true broken_disk
                   [["index.md"]] 0 ["index.md"] (mkState [] [] []) = Ok st'
      /\ sections st' = [sec] /\ section_index sec = 0 /\ tag_file_map st' = [].
Proof.
  destruct (malformed_frontmatter_is_recoverable
              sample_yaml sample_md sample_cwd docs true broken_disk
              [["index.md"]] 0 ["index.md"] (mkState [] [] []) broken_sample []
              eq_refl eq_refl eq_refl) as (_ & H2 & H3).
  split.
  - exact (H2 2 eq_refl eq_refl).
  - exact (H3 eq_refl).
Defined.

(** ** Evaluations of the converter on the sample folders *)

(** C8: a folder whose entry document is named [index.markdown] is refused:
    the scan only yields names ending in [.md], so the entry test never sees
    the file; with another document the run stops on the missing entry, alone
    it stops on the empty scan. *)
Theorem index_markdown_is_not_discovered :
  rglob_md markdown_entry_disk = [["guide.md"]]
  /\ find_markdown_files docs markdown_entry_disk = Raise ValueError
  /\ find_markdown_files docs markdown_only_disk = Raise FileNotFoundError.
Proof. vm_compute. auto. Qed.

(** C1: the sequence depends on the order in which the file system lists
    two sibling directories that both hold an entry-named file: the last such
    file the scan meets becomes the entry document, and every other
    entry-named file, the one at the root included, is dropped. *)
Theorem entry_document_depends_on_scan_order :
  Permutation siblings_a_first siblings_b_first
  /\ rglob_md (scan siblings_a_first)
     = [["index.md"]; ["guide.md"]; ["a"; "index.md"]; ["b"; "index.md"]]
  /\ rglob_md (scan siblings_b_first)
     = [["index.md"]; ["guide.md"]; ["b"; "index.md"]; ["a"; "index.md"]]
  /\ find_markdown_files docs (scan siblings_a_first)
     = Ok [["b"; "index.md"]; ["guide.md"]]
  /\ find_markdown_files docs (scan siblings_b_first)
     = Ok [["a"; "index.md"]; ["guide.md"]].
Proof.
  split; [|vm_compute; auto].
  unfold siblings_a_first, siblings_b_first.
  do 2 apply perm_skip. apply perm_swap.
Qed.

(** C2: run from [/home/u] on [docs], the link [../b.md] of [x/a.md] is not
    resolved against the document tree; the name fallback picks the first
    document named [b.md], which is [a/b.md] (ordinal 1), not [b.md]
    (ordinal 2). *)
Theorem parent_link_resolves_to_wrong_document :
  find_markdown_files docs link_disk = Ok link_files
  /\ nth_error link_files 2 = Some ["b.md"]
  /\ nth_error link_files 3 = Some ["x"; "a.md"]
  /\ find_file_index_by_path sample_cwd docs link_files "../b.md" 3 = Ok (Some 1)
  /\ process_internal_links sample_cwd docs link_files parent_link 3
     = Ok (internal_link 1 "B", []).
Proof. vm_compute. repeat split. Qed.

(** C5: the folders [a_b] and [a/b] receive the same identifier. *)
Theorem folder_identifiers_collide :
  folder_id_of "" "a_b" = "a_b"
  /\ folder_id_of (folder_id_of "" "a") "b" = "a_b"
  /\ exists nav, generate_navigation folder_files = Ok nav
                 /\ count ("<ul class=" ++ q "folder-contents" ++ " id=" ++ q "a_b") nav = 2.
Proof.
  split; [reflexivity|]. split; [reflexivity|].
  eexists. split; [vm_compute; reflexivity|]. vm_compute. reflexivity.
Qed.

(** C4: a heading whose [id] is not its first attribute is left out by the
    namespacer: rendered with a class, the heading [Intro] keeps the id
    [intro] under every ordinal, so the sections 1 and 2 both hold a heading
    with that id, which the table of contents of each of them targets. *)
Theorem heading_with_class_keeps_its_id :
  (forall i, prefix_heading_ids (lead_heading "intro" "Intro") i
             = lead_heading "intro" "Intro")
  /\ convert_markdown_to_html sample_cwd docs [["index.md"]; ["a.md"]; ["b.md"]]
                              lead_md lead_line 1
     = Ok (lead_heading "intro" "Intro", [])
  /\ convert_markdown_to_html sample_cwd docs [["index.md"]; ["a.md"]; ["b.md"]]
                              lead_md lead_line 2
     = Ok (lead_heading "intro" "Intro", [])
  /\ generate_toc (lead_heading "intro" "Intro")
     = "<ul class=" ++ q "toc-list" ++ ">" ++ toc_entry "2" "intro" "Intro" ++ "</ul>".
Proof.
  split; [intros i; reflexivity|]. vm_compute. auto.
Qed.

(** C9: a [tags] value that is one string is filed letter by letter: the
    entry document, whose frontmatter is [tags: setup], stands in the tag
    index under [s], [e], [t], [u] and [p], and under no other tag, while
    its tag list, read as a sequence of strings, is empty. *)
Theorem string_tag_is_filed_by_letter :
  frontmatter_of scalar_yaml string_tag_disk ["index.md"]
  = YMap [(YStr "tags", YStr "setup")]
  /\ spec_tag_list (frontmatter_of scalar_yaml string_tag_disk ["index.md"]) = []
  /\ spec_tag_index scalar_yaml string_tag_disk [(0, ["index.md"])] "s" = []
  /\ exists p,
      convert scalar_yaml sample_md sample_cwd docs true string_tag_disk = Ok p
      /\ map fst (page_tags p) = [YStr "s"; YStr "e"; YStr "t"; YStr "u"; YStr "p"]
      /\ tag_get (YStr "s") (page_tags p) = Some [mkTagEntry "Index" 0 "index.md"]
      /\ tag_get (YStr "setup") (page_tags p) = None.
Proof.
  split; [vm_compute; reflexivity|]. split; [vm_compute; reflexivity|].
  split; [vm_compute; reflexivity|].
  eexists. split; [vm_compute; reflexivity|]. vm_compute. auto.
Qed.

(** C10: a blank document inside a folder named [root] gets ordinal 1 and no
    section, and no navigation link either. *)
Theorem blank_document_in_root_folder_has_no_link :
  find_markdown_files docs blank_disk = Ok [["index.md"]; ["a"; "root"; "x.md"]]
  /\ exists p, convert sample_yaml sample_md sample_cwd docs true blank_disk = Ok p
               /\ map section_index (page_sections p) = [0]
               /\ page_tags p = []
               /\ count "showSection(0)" (page_navigation p) = 1
               /\ count "showSection(1)" (page_navigation p) = 0.
Proof.
  split; [vm_compute; reflexivity|].
  eexists. split; [vm_compute; reflexivity|]. vm_compute. auto.
Qed.

(** ** Document loader: order of the sequence *)

Lemma ascii_compare_lt_trans (a b c : ascii) :
  Ascii.compare a b = Lt -> Ascii.compare b c = Lt -> Ascii.compare a c = Lt.
Proof.
  unfold Ascii.compare. rewrite !N.compare_lt_iff. apply N.lt_trans.
Qed.

Lemma compare_lt_trans (s1 : string) :
  forall s2 s3, String.compare s1 s2 = Lt -> String.compare s2 s3 = Lt ->
                String.compare s1 s3 = Lt.
Proof.
  induction s1 as [|a s1 IH]; intros [|b s2] [|c s3]; simpl; try congruence.
  destruct (Ascii.compare a b) eqn:Eab; try discriminate;
    destruct (Ascii.compare b c) eqn:Ebc; try discriminate; intros H1 H2.
  - apply Ascii.compare_eq_iff in Eab, Ebc. subst.
    replace (Ascii.compare c c) with Eq; [eauto|].
    symmetry. unfold Ascii.compare. apply N.compare_refl.
  - apply Ascii.compare_eq_iff in Eab. subst. now rewrite Ebc.
  - apply Ascii.compare_eq_iff in Ebc. subst. now rewrite Eab.
  - now rewrite (ascii_compare_lt_trans _ _ _ Eab Ebc).
Qed.

Lemma compare_refl (s : string) : String.compare s s = Eq.
Proof.
  induction s as [|a s IH]; simpl; [reflexivity|].
  replace (Ascii.compare a a) with Eq; [exact IH|].
  symmetry. unfold Ascii.compare. apply N.compare_refl.
Qed.

Lemma ltb_lt (a b : string) : String.ltb a b = true <-> String.compare a b = Lt.
Proof. unfold String.ltb. destruct (String.compare a b); split; congruence. Qed.

Lemma ltb_irrefl (a : string) : String.ltb a a = false.
Proof. unfold String.ltb. now rewrite compare_refl. Qed.

Lemma ltb_trans (a b c : string) :
  String.ltb a b = true -> String.ltb b c = true -> String.ltb a c = true.
Proof. rewrite !ltb_lt. apply compare_lt_trans. Qed.

(** Two strings neither of which is below the other are equal. *)
Lemma ltb_connected (a b : string) :
  String.ltb a b = false -> String.ltb b a = false -> a = b.
Proof.
  unfold String.ltb. rewrite (String.compare_antisym b a).
  destruct (String.compare a b) eqn:E; simpl; try discriminate.
  intros _ _. now apply String.compare_eq_iff.
Qed.

Section Sorting.

Context {A : Type} (key : A -> string).

Lemma key_lt_le (x y : A) : key_lt key x y -> key_le key x y.
Proof.
  unfold key_lt, key_le. intros H.
  destruct (String.ltb (key y) (key x)) eqn:E; [|reflexivity].
  pose proof (ltb_trans _ _ _ H E) as C. now rewrite ltb_irrefl in C.
Qed.

Lemma key_le_trans (x y z : A) : key_le key x y -> key_le key y z -> key_le key x z.
Proof.
  unfold key_le. intros H1 H2.
  destruct (String.ltb (key z) (key x)) eqn:E; [|reflexivity].
  destruct (String.ltb (key x) (key y)) eqn:E1.
  - pose proof (ltb_trans _ _ _ E E1) as C. congruence.
  - pose proof (ltb_connected _ _ E1 H1) as Eq. rewrite Eq in E. congruence.
Qed.

Lemma insert_by_perm (x : A) (l : list A) : Permutation (insert_by key x l) (x :: l).
Proof.
  induction l as [|y t IH]; simpl; [apply Permutation_refl|].
  destruct (String.ltb (key y) (key x)); [|apply Permutation_refl].
  eapply perm_trans; [apply perm_skip, IH | apply perm_swap].
Qed.

Lemma sort_by_perm (l : list A) : Permutation (sort_by key l) l.
Proof.
  induction l as [|x t IH]; simpl; [constructor|].
  eapply perm_trans; [apply insert_by_perm | now apply perm_skip].
Qed.

Lemma insert_by_sorted (x : A) (l : list A) :
  StronglySorted (key_le key) l -> StronglySorted (key_le key) (insert_by key x l).
Proof.
  induction 1 as [|y t Hs IH Hy]; simpl.
  - repeat constructor.
  - destruct (String.ltb (key y) (key x)) eqn:E.
    + constructor; [exact IH|].
      apply Forall_forall. intros z Hz.
      apply (Permutation_in _ (insert_by_perm x t)) in Hz.
      destruct Hz as [<-|Hz]; [now apply key_lt_le|].
      rewrite Forall_forall in Hy. auto.
    + constructor; [now constructor|].
      constructor; [exact E|].
      apply Forall_forall. intros z Hz. rewrite Forall_forall in Hy.
      eapply key_le_trans; [exact E | auto].
Qed.

(** The files following the entry document are sorted by their path
    strings. *)
Lemma sort_by_sorted (l : list A) : StronglySorted (key_le key) (sort_by key l).
Proof.
  induction l as [|x t IH]; simpl; [constructor | now apply insert_by_sorted].
Qed.

(** A sorted list without repeated keys is determined by its elements. *)
Lemma sorted_perm_unique (l1 : list A) :
  forall l2, StronglySorted (key_le key) l1 -> StronglySorted (key_le key) l2 ->
             NoDup (map key l1) -> Permutation l1 l2 -> l1 = l2.
Proof.
  induction l1 as [|a t1 IH]; intros l2 S1 S2 Hnd Hp.
  - now apply Permutation_nil in Hp.
  - destruct l2 as [|b t2]; [now apply Permutation_sym, Permutation_nil in Hp|].
    inversion S1 as [|? ? S1' F1]; subst. inversion S2 as [|? ? S2' F2]; subst.
    rewrite Forall_forall in F1, F2.
    assert (Hab : a = b).
    { assert (Ha : In a (b :: t2)) by (eapply Permutation_in; [exact Hp | now left]).
      assert (Hb : In b (a :: t1))
        by (eapply Permutation_in; [apply Permutation_sym, Hp | now left]).
      destruct Ha as [<-|Ha]; [reflexivity|].
      destruct Hb as [<-|Hb]; [reflexivity|].
      pose proof (ltb_connected _ _ (F2 _ Ha) (F1 _ Hb)) as Ek.
      inversion Hnd as [|? ? Hnotin _]; subst.
      exfalso. apply Hnotin. rewrite Ek. now apply in_map. }
    subst b. f_equal. apply IH; auto.
    + now inversion Hnd.
    + now apply Permutation_cons_inv in Hp.
Qed.

Lemma sort_by_order_independent (l1 l2 : list A) :
  NoDup (map key l1) -> Permutation l1 l2 -> sort_by key l1 = sort_by key l2.
Proof.
  intros Hnd Hp. apply sorted_perm_unique; try apply sort_by_sorted.
  - eapply Permutation_NoDup; [|exact Hnd].
    apply Permutation_map, Permutation_sym, sort_by_perm.
  - eapply perm_trans; [apply sort_by_perm|].
    eapply perm_trans; [exact Hp | apply Permutation_sym, sort_by_perm].
Qed.

End Sorting.

Section Loader.

Variable input_folder : Path.

Let entry (f : RelPath) : bool := is_entry_name (name (file_path input_folder f)).
Let path_key (f : RelPath) : string := str (file_path input_folder f).

Lemma classify_fold (l : list RelPath) :
  forall idx others,
    fold_left
      (fun (st : option RelPath * list RelPath) (file : RelPath) =>
         if is_entry_name (name (file_path input_folder file))
         then (Some file, snd st)
         else (fst st, (snd st ++ [file])%list))
      l (idx, others)
    = (match rev (filter entry l) with [] => idx | x :: _ => Some x end,
       (others ++ filter (fun f => negb (entry f)) l)%list).
Proof.
  induction l as [|f l IH]; intros idx others; simpl.
  - now rewrite app_nil_r.
  - change (is_entry_name (name (file_path input_folder f))) with (entry f).
    destruct (entry f) eqn:E; simpl; rewrite IH; simpl.
    + f_equal. now destruct (rev (filter entry l)).
    + now rewrite <- app_assoc.
Qed.

(** The sequence is the last entry-named file met, then the other files of
    the scan in the order of their path strings. *)
Lemma order_files_spec (l : list RelPath) :
  order_files input_folder l
  = match rev (filter entry l) with
    | [] => Raise ValueError
    | x :: _ => Ok (x :: sort_by path_key (filter (fun f => negb (entry f)) l))
    end.
Proof.
  unfold order_files, classify. rewrite classify_fold. simpl.
  now destruct (rev (filter entry l)).
Qed.

(** X1: the entry document is at ordinal 0 and the documents after it are sorted
    by path string. *)
Lemma find_markdown_files_shape (d : Disk) (files : list RelPath) :
  find_markdown_files input_folder d = Ok files ->
  exists x rest,
    files = x :: rest /\ entry x = true /\ In x (rglob_md d)
    /\ StronglySorted (key_le path_key) rest
    /\ Permutation rest (filter (fun f => negb (entry f)) (rglob_md d)).
Proof.
  unfold find_markdown_files. destruct (folder_exists d); simpl; [|discriminate].
  destruct (rglob_md d) as [|f0 l0] eqn:El; [discriminate|].
  rewrite order_files_spec.
  destruct (rev (filter entry (f0 :: l0))) as [|x r] eqn:R; [discriminate|].
  intros [= <-]. exists x, (sort_by path_key (filter (fun f => negb (entry f)) (f0 :: l0))).
  assert (Hx : In x (filter entry (f0 :: l0))).
  { apply in_rev. rewrite R. now left. }
  apply filter_In in Hx as [Hin He].
  repeat split; auto using sort_by_sorted, sort_by_perm.
Qed.

(** X2: with a single entry-named file and distinct path strings, the sequence
    does not depend on the order of the directory scan. *)
Lemma find_markdown_files_deterministic (d1 d2 : Disk) (x : RelPath) :
  folder_exists d1 = folder_exists d2 ->
  Permutation (map fst (entries d1)) (map fst (entries d2)) ->
  NoDup (map path_key (rglob_md d1)) ->
  filter entry (rglob_md d1) = [x] ->
  find_markdown_files input_folder d1 = find_markdown_files input_folder d2.
Proof.
  intros Hex Hp Hnd Hone.
  assert (Hg : Permutation (rglob_md d1) (rglob_md d2)).
  { unfold rglob_md. clear -Hp. induction Hp; simpl.
    - constructor.
    - destruct (endswith ".md" (last x "")); auto.
    - destruct (endswith ".md" (last x "")), (endswith ".md" (last y ""));
        auto using perm_swap, Permutation_refl.
    - eapply perm_trans; eauto. }
  assert (Hfilter : forall p, Permutation (filter p (rglob_md d1)) (filter p (rglob_md d2))).
  { intros p. clear -Hg. induction Hg; simpl.
    - constructor.
    - destruct (p x); auto.
    - destruct (p x), (p y); auto using perm_swap, Permutation_refl.
    - eapply perm_trans; eauto. }
  unfold find_markdown_files. rewrite <- Hex.
  destruct (folder_exists d1); simpl; [|reflexivity].
  destruct (rglob_md d1) as [|a l1] eqn:E1.
  { apply Permutation_nil in Hg. now rewrite Hg. }
  destruct (rglob_md d2) as [|b l2] eqn:E2.
  { now apply Permutation_sym, Permutation_nil in Hg. }
  rewrite !order_files_spec.
  pose proof (Hfilter entry) as He. rewrite Hone in He.
  apply Permutation_length_1_inv in He. rewrite Hone, He. cbn [rev app].
  do 2 f_equal. apply sort_by_order_independent; [|apply Hfilter].
  clear -Hnd. induction (a :: l1) as [|f l IH]; simpl in *; [constructor|].
  inversion Hnd as [|? ? Hn Hnd']; subst.
  destruct (entry f); simpl; auto.
  constructor; auto.
  intros Hin. apply Hn. apply in_map_iff in Hin as (g & Hg & Hin).
  apply filter_In in Hin as [Hin _]. apply in_map_iff. eauto.
Qed.

End Loader.

(** ** Tag index *)

Lemma key_eqb_sym (a b : yaml) : key_eqb a b = key_eqb b a.
Proof.
  destruct a, b; simpl; auto using String.eqb_sym, Z.eqb_sym.
  destruct b, b0; reflexivity.
Qed.

Lemma key_eqb_trans (a b c : yaml) :
  key_eqb a b = true -> key_eqb b c = true -> key_eqb a c = true.
Proof.
  destruct a, b, c; simpl; try discriminate; auto;
    repeat match goal with
           | x : bool |- _ => destruct x
           end; simpl;
    rewrite ?Z.eqb_eq, ?String.eqb_eq; try discriminate; congruence.
Qed.

Lemma key_eqb_congr (k t k' : yaml) :
  key_eqb k t = true -> key_eqb k' k = key_eqb k' t.
Proof.
  intros H. destruct (key_eqb k' k) eqn:E1, (key_eqb k' t) eqn:E2; auto.
  - rewrite (key_eqb_trans _ _ _ E1 H) in E2. discriminate.
  - rewrite key_eqb_sym in H. rewrite (key_eqb_trans _ _ _ E2 H) in E1. discriminate.
Qed.

Lemma add_tags_spec (l : list yaml) (e : tag_entry) :
  forall m, add_tags l e m
            = if forallb hashable l then Ok (append_all l e m) else Raise TypeError.
Proof.
  induction l as [|t l IH]; intros m; simpl; [reflexivity|].
  destruct (hashable t); simpl; [apply IH | reflexivity].
Qed.

Lemma tag_get_append (m : tag_map) (k t : yaml) (e : tag_entry) :
  tag_get t (tag_append k e m)
  = if key_eqb k t then Some (bucket t m ++ [e])%list else tag_get t m.
Proof.
  unfold bucket. induction m as [|[k' v] m IH]; simpl.
  - now destruct (key_eqb k t).
  - destruct (key_eqb k' k) eqn:E1; simpl.
    + destruct (key_eqb k t) eqn:E2.
      * rewrite <- (key_eqb_congr _ _ k' E2), E1. reflexivity.
      * destruct (key_eqb k' t) eqn:E3; [|reflexivity].
        rewrite key_eqb_sym in E1. rewrite (key_eqb_trans _ _ _ E1 E3) in E2.
        discriminate.
    + destruct (key_eqb k' t) eqn:E3.
      * destruct (key_eqb k t) eqn:E2; [|reflexivity].
        rewrite (key_eqb_congr _ _ k' E2), E3 in E1. discriminate.
      * exact IH.
Qed.

Lemma tag_keys_append (m : tag_map) (k : yaml) (e : tag_entry) :
  map fst (tag_append k e m) = note_tag k (map fst m).
Proof.
  induction m as [|[k' v] m IH]; simpl; [reflexivity|].
  destruct (key_eqb k' k); simpl; [reflexivity | now rewrite IH].
Qed.

Lemma holds_bucket m L t : holds m L -> bucket t m = L t.
Proof. intros H. unfold bucket. rewrite H. now destruct (L t). Qed.

Lemma holds_append_all (l : list yaml) (e : tag_entry) :
  forall m L,
    holds m L ->
    holds (append_all l e m)
          (fun t => L t ++ map (fun _ => e) (filter (fun k => key_eqb k t) l))%list.
Proof.
  induction l as [|k l IH]; intros m L H; simpl.
  - intros t. rewrite app_nil_r. apply H.
  - assert (H1 : holds (tag_append k e m)
                       (fun t => L t ++ (if key_eqb k t then [e] else []))%list).
    { intros t. rewrite tag_get_append, (holds_bucket _ _ _ H).
      destruct (key_eqb k t).
      - now destruct (L t).
      - rewrite app_nil_r. apply H. }
    intros t. unfold append_all. simpl. fold (append_all l e (tag_append k e m)).
    rewrite (IH _ _ H1 t). f_equal.
    rewrite <- app_assoc. f_equal. now destruct (key_eqb k t).
Qed.

Lemma keys_append_all (l : list yaml) (e : tag_entry) :
  forall m, map fst (append_all l e m)
            = fold_left (fun seen t => note_tag t seen) l (map fst m).
Proof.
  induction l as [|k l IH]; intros m; simpl; [reflexivity|].
  now rewrite IH, tag_keys_append.
Qed.

Section TagIndex.

Variable safe_load : string -> option yaml.
Variable md_convert : string -> string.
Variable cwd : list string.
Variable input_folder : Path.
Variable show_frontmatter : bool.
Variable disk : Disk.
Variable markdown_files : list RelPath.

Let step := process_file safe_load md_convert cwd input_folder show_frontmatter
                         disk markdown_files.
Let loop := process_files safe_load md_convert cwd input_folder show_frontmatter
                          disk markdown_files.

(** One turn of the loop appends the entry of the document once per tag of
    its tag list. *)
Lemma process_file_tags (i : nat) (f : RelPath) (st st' : run_state) :
  step i f st = Ok st' ->
  exists l, document_tags safe_load disk f = Ok l
            /\ tag_file_map st' = append_all l (entry_of i f) (tag_file_map st).
Proof.
  unfold step, process_file, document_tags.
  destruct (read_markdown_file disk f) as [content rw]. simpl fst.
  destruct (negb (String.eqb (strip content) "")).
  2:{ intros [= <-]. exists []. auto. }
  destruct (parse_frontmatter safe_load content) as [[fm body] fw]. simpl fst.
  destruct (convert_markdown_to_html _ _ _ _ _ _) as [r|e]; [|discriminate].
  simpl. destruct (frontmatter_tags fm) as [[tags|]|e]; simpl; try discriminate.
  - destruct (iterate tags) as [l|e]; simpl; [|discriminate].
    unfold entry_of. rewrite add_tags_spec.
    destruct (forallb hashable l); simpl; [|discriminate].
    intros [= <-]. simpl. eauto.
  - intros [= <-]. exists []. auto.
Qed.

Lemma process_files_tags (rest : list RelPath) :
  forall i st st' L,
    loop i rest st = Ok st' ->
    holds (tag_file_map st) L ->
    Forall (fun f => is_ok (document_tags safe_load disk f) = true) rest
    /\ holds (tag_file_map st')
             (fun t => L t ++ tag_index_spec safe_load disk (enumerate_from i rest) t)%list
    /\ map fst (tag_file_map st')
       = fold_left (fun seen t => note_tag t seen)
                   (flat_map (tags_of safe_load disk) rest)
                   (map fst (tag_file_map st)).
Proof.
  induction rest as [|f rest IH]; intros i st st' L Hrun HL.
  - injection Hrun as <-. repeat split; auto.
    intros t. unfold enumerate_from. simpl. rewrite app_nil_r. apply HL.
  - unfold loop in Hrun. simpl in Hrun.
    fold (step i f st) in Hrun. destruct (step i f st) as [st1|e] eqn:E1; [|discriminate].
    simpl in Hrun. fold (loop (S i) rest st1) in Hrun.
    destruct (process_file_tags _ _ _ _ E1) as (l & Hl & Hm).
    assert (H1 : holds (tag_file_map st1)
                       (fun t => L t ++ map (fun _ => entry_of i f)
                                            (filter (fun k => key_eqb k t) l))%list).
    { rewrite Hm. now apply holds_append_all. }
    destruct (IH _ _ _ _ Hrun H1) as (Hok & Hh & Hk).
    assert (Etags : tags_of safe_load disk f = l) by (unfold tags_of; now rewrite Hl).
    repeat split.
    + constructor; [now rewrite Hl | exact Hok].
    + intros t. rewrite (Hh t). f_equal.
      unfold enumerate_from, tag_index_spec. simpl. rewrite Etags.
      now rewrite app_assoc.
    + rewrite Hk, Hm, keys_append_all. simpl. rewrite Etags.
      now rewrite fold_left_app.
Qed.

End TagIndex.

(** When the run completes, the tag index holds for every tag exactly the
    entries (ordinal, title, relative path) of the documents in whose tags,
    as the loop reads them, it occurs, one per occurrence and in document
    order; a tag met nowhere has no bucket, and the buckets stand in the
    order in which their tags were first met. *)
Lemma tag_index_matches_spec
        safe_load md_convert cwd input_folder show_frontmatter disk
        markdown_files p :
  generate_html_content safe_load md_convert cwd input_folder show_frontmatter
                        disk markdown_files = Ok p ->
  Forall (fun f => is_ok (document_tags safe_load disk f) = true) markdown_files
  /\ (forall t, tag_get t (page_tags p)
                = nonempty (tag_index_spec safe_load disk
                                           (enumerate_from 0 markdown_files) t))
  /\ map fst (page_tags p) = first_seen (flat_map (tags_of safe_load disk) markdown_files).
Proof.
  unfold generate_html_content. intros H.
  destruct (process_files _ _ _ _ _ _ _ _ _ _) as [st|e] eqn:E; [|discriminate].
  simpl in H. destruct (generate_navigation markdown_files); [|discriminate].
  injection H as <-. simpl.
  eapply (process_files_tags _ _ _ _ _ _ _ _ _ _ _ (fun _ => [])) in E.
  - exact E.
  - intros t. reflexivity.
Qed.

Lemma tag_index_witness :
  match generate_html_content sample_yaml sample_md sample_cwd docs true tagged_disk
                              [["index.md"]; ["guide"; "setup.md"]] with
  | Ok p =>
      tag_get (YStr "setup") (page_tags p)
      = Some [mkTagEntry "Guide / Setup" 1 "guide/setup.md"]
      /\ tag_get (YStr "other") (page_tags p) = None
      /\ map fst (page_tags p) = [YStr "setup"; YStr "intro"]
  | Raise _ => False
  end.
Proof.
  destruct (generate_html_content sample_yaml sample_md sample_cwd docs true
              tagged_disk [["index.md"]; ["guide"; "setup.md"]]) as [p|e] eqn:E.
  - destruct (tag_index_matches_spec _ _ _ _ _ _ _ _ E) as (_ & H2 & H3).
    rewrite !H2, H3. vm_compute. auto.
  - vm_compute in E. discriminate.
Defined.

(** ** Navigation tree on regular folders *)

Lemma node_induction (P : node -> Prop) :
  (forall l, P (Files l)) ->
  (forall d, Forall (fun kv => P (snd kv)) d -> P (Folder d)) ->
  forall v, P v.
Proof.
  intros HF HD. fix IH 1. intros [l|d]; [apply HF|].
  apply HD. induction d as [|[k v] t IHt]; constructor; [apply IH | apply IHt].
Qed.

Lemma wf_node_folder (d : dict) : wf_node (Folder d) = forallb wf_entry d.
Proof.
  induction d as [|[k v] t IH]; [reflexivity|].
  simpl in *. unfold wf_entry at 1. simpl. now rewrite IH.
Qed.

Lemma dict_get_forallb (P : string * node -> bool) (k : string) (d : dict) (v : node) :
  forallb P d = true -> dict_get k d = Some v -> P (k, v) = true.
Proof.
  induction d as [|[k' v'] t IH]; simpl; [discriminate|].
  intros H. apply andb_true_iff in H as [H1 H2].
  destruct (String.eqb_spec k' k) as [->|Hne]; [now intros [= <-] | auto].
Qed.

Lemma dict_set_forallb (P : string * node -> bool) (k : string) (v : node) (d : dict) :
  forallb P d = true -> P (k, v) = true -> forallb P (dict_set k v d) = true.
Proof.
  intros H Hp. induction d as [|[k' v'] t IH]; simpl in *.
  - now rewrite Hp.
  - apply andb_true_iff in H as [H1 H2].
    destruct (String.eqb_spec k' k) as [->|Hne]; simpl.
    + now rewrite Hp, H2.
    + now rewrite H1, IH.
Qed.

Lemma regular_name_inv (c : string) :
  regular_name c = true -> String.eqb c "root" = false /\ String.eqb c "files" = false.
Proof.
  unfold regular_name. intros H. apply andb_true_iff in H as [H1 H2].
  now apply negb_true_iff in H1, H2.
Qed.

Lemma folder_items_folder (folder_name : string) (d : dict) (parent_path : string) :
  folder_items folder_name (Folder d) parent_path
  = if String.eqb folder_name "root" then Ok []
    else
      let folder_id := folder_id_of parent_path folder_name in
      files <- match dict_get "files" d with
               | Some v => ps <- unpack_pairs v ;; Ok (map (file_link folder_id) ps)
               | None => Ok []
               end ;;
      subs <- sub_items (fun k v => folder_items k v folder_id) d ;;
      Ok ([folder_header folder_id (display_name folder_name)]
            ++ files ++ subs ++ ["</ul></li>"])%list.
Proof. reflexivity. Qed.

(** Adding a file below regular folders keeps the tree well formed and
    never raises. *)
Lemma add_nested_file_sub (path_parts : list string) (e : nat * string) :
  forall d,
    forallb regular_name path_parts = true -> forallb wf_entry d = true ->
    exists d', add_nested_file path_parts e d = Ok d' /\ forallb wf_entry d' = true.
Proof.
  induction path_parts as [|part rest IH]; intros d Hreg Hwf; simpl.
  - destruct (dict_get "files" d) as [[l|d0]|] eqn:E.
    + eexists. split; [reflexivity|]. now apply dict_set_forallb.
    + apply (dict_get_forallb wf_entry) in E; [discriminate | exact Hwf].
    + eexists. split; [reflexivity|]. now apply dict_set_forallb.
  - simpl in Hreg. apply andb_true_iff in Hreg as [Hpart Hrest].
    destruct (regular_name_inv _ Hpart) as [Hr Hf].
    assert (Hset : forall sub, forallb wf_entry sub = true ->
                               forallb wf_entry (dict_set part (Folder sub) d) = true).
    { intros sub Hsub. apply dict_set_forallb; [exact Hwf|].
      unfold wf_entry. simpl fst. simpl snd.
      now rewrite Hf, Hr, wf_node_folder, Hsub. }
    destruct (dict_get part d) as [[l|d0]|] eqn:E.
    + apply (dict_get_forallb wf_entry) in E; [|exact Hwf].
      unfold wf_entry in E. simpl in E. rewrite Hf, Hr in E. discriminate.
    + apply (dict_get_forallb wf_entry) in E; [|exact Hwf].
      unfold wf_entry in E. simpl fst in E. simpl snd in E.
      rewrite Hf, Hr, wf_node_folder in E. simpl in E.
      destruct (IH d0 Hrest E) as (sub & -> & Hsub). simpl. eauto.
    + destruct (IH [] Hrest eq_refl) as (sub & -> & Hsub). simpl. eauto.
Qed.

Lemma add_nested_file_top (part : string) (rest : list string) (e : nat * string)
      (tree : dict) :
  regular_name part = true -> forallb regular_name rest = true ->
  forallb wf_top_entry tree = true ->
  exists t', add_nested_file (part :: rest) e tree = Ok t'
             /\ forallb wf_top_entry t' = true.
Proof.
  intros Hpart Hrest Hwf. simpl.
  destruct (regular_name_inv _ Hpart) as [Hr Hf].
  assert (Hset : forall sub, forallb wf_entry sub = true ->
                             forallb wf_top_entry (dict_set part (Folder sub) tree) = true).
  { intros sub Hsub. apply dict_set_forallb; [exact Hwf|].
    unfold wf_top_entry. simpl fst. simpl snd.
    now rewrite Hf, Hr, wf_node_folder, Hsub. }
  destruct (dict_get part tree) as [[l|d0]|] eqn:E.
  - apply (dict_get_forallb wf_top_entry) in E; [|exact Hwf].
    unfold wf_top_entry in E. simpl in E. rewrite Hf, Hr in E. discriminate.
  - apply (dict_get_forallb wf_top_entry) in E; [|exact Hwf].
    unfold wf_top_entry in E. simpl fst in E. simpl snd in E.
    rewrite Hf, Hr, wf_node_folder in E. simpl in E.
    destruct (add_nested_file_sub rest e d0 Hrest E) as (sub & -> & Hsub). simpl. eauto.
  - destruct (add_nested_file_sub rest e [] Hrest eq_refl) as (sub & -> & Hsub).
    simpl. eauto.
Qed.

Lemma add_file_ok (i : nat) (f : RelPath) (tree : dict) :
  regular_folders f = true -> forallb wf_top_entry tree = true ->
  exists t', add_file i f tree = Ok t' /\ forallb wf_top_entry t' = true.
Proof.
  unfold regular_folders, add_file. simpl.
  destruct (removelast f) as [|part rest]; intros Hreg Hwf.
  - unfold add_root_file.
    destruct (dict_get "root" tree) as [[l|d0]|] eqn:E.
    + eexists. split; [reflexivity|]. now apply dict_set_forallb.
    + apply (dict_get_forallb wf_top_entry) in E; [discriminate | exact Hwf].
    + eexists. split; [reflexivity|]. now apply dict_set_forallb.
  - simpl in Hreg. apply andb_true_iff in Hreg as [Hpart Hrest].
    now apply add_nested_file_top.
Qed.

Lemma build_tree_ok (files : list RelPath) :
  forall i tree,
    forallb regular_folders files = true -> forallb wf_top_entry tree = true ->
    exists t', build_tree i files tree = Ok t' /\ forallb wf_top_entry t' = true.
Proof.
  induction files as [|f rest IH]; intros i tree Hreg Hwf; simpl; [eauto|].
  simpl in Hreg. apply andb_true_iff in Hreg as [Hf Hrest].
  destruct (add_file_ok i f tree Hf Hwf) as (t1 & -> & Hwf1). simpl. auto.
Qed.

Lemma folder_items_ok (v : node) :
  wf_node v = true ->
  forall folder_name parent_path,
  exists r, folder_items folder_name v parent_path = Ok r.
Proof.
  induction v as [l|d IH] using node_induction; intros Hwf folder_name parent_path.
  - simpl. destruct (String.eqb folder_name "root"); eauto.
  - rewrite folder_items_folder. destruct (String.eqb folder_name "root"); [eauto|].
    rewrite wf_node_folder in Hwf. cbv zeta.
    assert (Hfiles : exists fs,
               match dict_get "files" d with
               | Some v => ps <- unpack_pairs v ;;
                           Ok (map (file_link (folder_id_of parent_path folder_name)) ps)
               | None => Ok []
               end = Ok fs).
    { destruct (dict_get "files" d) as [v|] eqn:E; [|eauto].
      apply (dict_get_forallb wf_entry) in E; [|exact Hwf].
      destruct v; [simpl; eauto | discriminate]. }
    destruct Hfiles as [fs ->].
    assert (Hsubs : exists rs,
               sub_items (fun k v => folder_items k v (folder_id_of parent_path folder_name)) d
               = Ok rs).
    { clear -IH Hwf. induction d as [|[k v] t IHt]; simpl; [eauto|].
      simpl in Hwf. apply andb_true_iff in Hwf as [Hkv Ht].
      inversion IH as [|? ? Hv Hrest]; subst. simpl in Hv.
      destruct (IHt Hrest Ht) as [rs Hrs]. rewrite Hrs.
      unfold wf_entry in Hkv. simpl in Hkv.
      destruct (String.eqb k "files"); [eauto|].
      apply andb_true_iff in Hkv as [_ Hkv].
      destruct (Hv Hkv k (folder_id_of parent_path folder_name)) as [r ->].
      simpl. eauto. }
    destruct Hsubs as [rs ->]. simpl. eauto.
Qed.

Lemma all_folder_items_ok (tree : dict) (parent_path : string) :
  forallb wf_top_entry tree = true ->
  exists r, all_folder_items tree parent_path = Ok r.
Proof.
  induction tree as [|[k v] t IH]; simpl; [eauto|].
  intros H. apply andb_true_iff in H as [Hkv Ht].
  destruct (IH Ht) as [rs ->].
  assert (Hr : exists r, folder_items k v parent_path = Ok r).
  { unfold wf_top_entry in Hkv. simpl in Hkv.
    destruct (String.eqb k "root") eqn:Ek.
    - destruct v; simpl; rewrite Ek; eauto.
    - apply andb_true_iff in Hkv as [_ Hkv]. now apply folder_items_ok. }
  destruct Hr as [r ->]. simpl. eauto.
Qed.

(** On regular folders the navigation is built without raising. *)
Lemma generate_navigation_ok (files : list RelPath) :
  forallb regular_folders files = true ->
  exists nav, generate_navigation files = Ok nav.
Proof.
  intros Hreg. unfold generate_navigation.
  destruct (build_tree_ok files 0 [] Hreg eq_refl) as (tree & -> & Hwf). simpl.
  assert (Hroot : exists items,
             match dict_get "root" tree with
             | Some v => ps <- unpack_pairs v ;; Ok (map root_link ps)
             | None => Ok []
             end = Ok items).
  { destruct (dict_get "root" tree) as [v|] eqn:E; [|eauto].
    apply (dict_get_forallb wf_top_entry) in E; [|exact Hwf].
    destruct v; [simpl; eauto | discriminate]. }
  destruct Hroot as [items ->]. simpl.
  unfold _build_folder_navigation.
  destruct (all_folder_items_ok tree "" Hwf) as [r ->]. simpl. eauto.
Qed.

(** ** Assembly on regular inputs *)

Lemma regular_document_tags safe_load disk (f : RelPath) :
  regular_frontmatter (frontmatter_of safe_load disk f) = true ->
  is_ok (document_tags safe_load disk f) = true.
Proof.
  unfold frontmatter_of, document_tags.
  destruct (negb (String.eqb (strip (fst (read_markdown_file disk f))) ""));
    [|reflexivity].
  destruct (fst (fst (parse_frontmatter safe_load (fst (read_markdown_file disk f)))))
    as [|b|n|s|l|m]; simpl; try discriminate.
  destruct (find _ m) as [[k v]|]; [|reflexivity].
  destruct v as [|b|n|s|l|m']; simpl; try discriminate; [reflexivity|].
  destruct l as [|t l]; [reflexivity|]. simpl. now intros ->.
Qed.

Section Run.

Variable safe_load : string -> option yaml.
Variable md_convert : string -> string.
Variable cwd : list string.
Variable input_folder : Path.
Variable show_frontmatter : bool.
Variable disk : Disk.
Variable markdown_files : list RelPath.

Let step := process_file safe_load md_convert cwd input_folder show_frontmatter
                         disk markdown_files.
Let loop := process_files safe_load md_convert cwd input_folder show_frontmatter
                          disk markdown_files.

Lemma process_file_ok (i : nat) (f : RelPath) (st : run_state) :
  nth_error markdown_files i = Some f ->
  is_ok (document_tags safe_load disk f) = true ->
  exists st', step i f st = Ok st'
              /\ map section_index (sections st')
                 = (map section_index (sections st)
                      ++ (if nonblank disk f then [i] else []))%list.
Proof.
  intros Hnth. unfold step, process_file, document_tags, nonblank.
  destruct (read_markdown_file disk f) as [content rw]. simpl fst.
  destruct (negb (String.eqb (strip content) "")).
  2:{ intros _. eexists. split; [reflexivity|]. simpl. now rewrite app_nil_r. }
  destruct (parse_frontmatter safe_load content) as [[fm body] fw]. simpl fst.
  destruct (convert_markdown_to_html_ok cwd input_folder markdown_files md_convert
              body i f Hnth) as [r ->].
  simpl. destruct (frontmatter_tags fm) as [[tags|]|e]; simpl; try discriminate.
  - destruct (iterate tags) as [l|e]; simpl; [|discriminate].
    rewrite add_tags_spec. destruct (forallb hashable l); simpl; [|discriminate].
    intros _. eexists. split; [reflexivity|]. simpl. now rewrite map_app.
  - intros _. eexists. split; [reflexivity|]. simpl. now rewrite map_app.
Qed.

Lemma process_files_ok (rest : list RelPath) :
  forall i st,
    (forall k f, nth_error rest k = Some f -> nth_error markdown_files (i + k) = Some f) ->
    Forall (fun f => is_ok (document_tags safe_load disk f) = true) rest ->
    exists st', loop i rest st = Ok st'
                /\ map section_index (sections st')
                   = (map section_index (sections st)
                        ++ map fst (filter (fun d => nonblank disk (snd d))
                                           (enumerate_from i rest)))%list.
Proof.
  induction rest as [|f rest IH]; intros i st Hnth Hok.
  - eexists. split; [reflexivity|]. simpl. now rewrite app_nil_r.
  - inversion Hok as [|? ? Hf Hrest]; subst.
    assert (Hi : nth_error markdown_files i = Some f)
      by (rewrite <- (Nat.add_0_r i); now apply Hnth).
    destruct (process_file_ok i f st Hi Hf) as (st1 & E1 & S1).
    destruct (IH (S i) st1) as (st' & E' & S'); [|exact Hrest|].
    { intros k g Hk. replace (S i + k) with (i + S k) by lia. now apply Hnth. }
    exists st'. split.
    + unfold loop. simpl. fold (step i f st). rewrite E1. exact E'.
    + rewrite S', S1, <- app_assoc. f_equal.
      unfold enumerate_from. simpl. now destruct (nonblank disk f).
Qed.

(** On regular inputs [generate_html_content] returns, with one section per
    non-blank document, in sequence order. *)
Lemma generate_html_content_ok :
  Forall (fun f => regular_frontmatter (frontmatter_of safe_load disk f) = true)
         markdown_files ->
  forallb regular_folders markdown_files = true ->
  exists p,
    generate_html_content safe_load md_convert cwd input_folder show_frontmatter
                          disk markdown_files = Ok p
    /\ map section_index (page_sections p)
       = map fst (filter (fun d => nonblank disk (snd d))
                         (enumerate_from 0 markdown_files)).
Proof.
  intros Hfm Hfold. unfold generate_html_content.
  destruct (process_files_ok markdown_files 0 (mkState [] [] [])) as (st & E & S).
  - now intros k f Hk.
  - eapply Forall_impl; [|exact Hfm]. intros f. apply regular_document_tags.
  - fold loop. rewrite E. simpl.
    destruct (generate_navigation_ok markdown_files Hfold) as [nav ->]. simpl.
    eexists. split; [reflexivity|]. exact S.
Qed.

End Run.

(** ** Anomalies past the loader *)

Lemma take_length (s : string) : take (String.length s) s = s.
Proof. induction s as [|c s IH]; simpl; [reflexivity | now rewrite IH]. Qed.

Lemma sub_scan_skip_all try_match (s : string) :
  forall k, String.length s <= k -> sub_scan try_match k s = Ok (EmptyString, []).
Proof.
  induction s as [|c s IH]; intros k H; simpl; [reflexivity|].
  simpl in H. destruct k as [|k]; [lia|]. apply IH. lia.
Qed.

(** An anchor no document answers to is left as it is, with a warning. *)
Lemma unresolved_link_is_kept cwd input_folder markdown_files i s link_path link_text :
  match_link s = Some (link_path, link_text, String.length s) ->
  find_file_index_by_path cwd input_folder markdown_files link_path i = Ok None ->
  process_internal_links cwd input_folder markdown_files s i
  = Ok (s, [LinkWarning link_path i]).
Proof.
  intros Hm Hf. unfold process_internal_links.
  destruct s as [|c s']; [discriminate|].
  simpl sub_scan. unfold replace_link. rewrite Hm, Hf. simpl bind.
  rewrite sub_scan_skip_all by (simpl; lia).
  simpl bind. rewrite take_length, string_app_nil_r. reflexivity.
Qed.

Lemma parse_frontmatter_warnings safe_load (content : string) :
  snd (parse_frontmatter safe_load content) = []
  \/ (snd (parse_frontmatter safe_load content) = [FrontmatterWarning]
      /\ fst (fst (parse_frontmatter safe_load content)) = YMap []).
Proof.
  unfold parse_frontmatter.
  destruct (startswith "---" (strip content)); [|now left].
  destruct (1 <? _)%nat; [|now left].
  destruct (first_closing 1 _); [|now left].
  destruct (safe_load _); [now left | now right].
Qed.


(** ** Navigation links *)

Lemma contains_refl (s : string) : Contains s s.
Proof. exists "", "". simpl. now rewrite string_app_nil_r. Qed.

Lemma contains_trans (a b c : string) : Contains a b -> Contains b c -> Contains a c.
Proof.
  intros (x & y & ->) (u & v & ->). exists (u ++ x), (y ++ v).
  now rewrite !string_app_assoc.
Qed.

Lemma contains_app_r (a p s : string) : Contains a s -> Contains a (p ++ s).
Proof.
  intros (x & y & ->). exists (p ++ x), y. now rewrite !string_app_assoc.
Qed.

Lemma contains_app_l (a s p : string) : Contains a s -> Contains a (s ++ p).
Proof.
  intros (x & y & ->). exists x, (y ++ p). now rewrite !string_app_assoc.
Qed.

Lemma contains_join (sep x : string) (l : list string) :
  In x l -> Contains x (join sep l).
Proof.
  induction l as [|y l IH]; [contradiction|].
  intros [->|Hin].
  - destruct l as [|z l]; [apply contains_refl|].
    rewrite join_cons by discriminate. apply contains_app_l, contains_refl.
  - destruct l as [|z l]; [contradiction|].
    rewrite join_cons by discriminate. apply contains_app_r, contains_app_r. auto.
Qed.

Lemma root_link_shows (i : nat) (filename : string) :
  Contains (show_section i) (root_link (of_nat i, filename)).
Proof.
  unfold root_link, show_section, q.
  exists ("<li><a href=" ++ dq ++ "#" ++ dq ++ " onclick=" ++ dq). eexists.
  rewrite !string_app_assoc. simpl. reflexivity.
Qed.

Lemma file_link_shows (folder_id : string) (i : nat) (filename : string) :
  Contains (show_section i) (file_link folder_id (of_nat i, filename)).
Proof.
  unfold file_link, show_section, q.
  exists ("<li><a href=" ++ dq ++ "#" ++ dq ++ " onclick=" ++ dq). eexists.
  rewrite !string_app_assoc. simpl. reflexivity.
Qed.

Lemma dict_get_set_same (k : string) (v : node) (d : dict) :
  dict_get k (dict_set k v d) = Some v.
Proof.
  induction d as [|[k' v'] t IH]; simpl.
  - now rewrite String.eqb_refl.
  - destruct (String.eqb k' k) eqn:E; simpl; now rewrite E.
Qed.

Lemma dict_get_set_other (k k0 : string) (v : node) (d : dict) :
  String.eqb k0 k = false -> dict_get k0 (dict_set k v d) = dict_get k0 d.
Proof.
  intros Hne. induction d as [|[k' v'] t IH]; simpl.
  - rewrite String.eqb_sym. now rewrite Hne.
  - destruct (String.eqb_spec k' k) as [->|Hk]; simpl.
    + rewrite String.eqb_sym. now rewrite Hne.
    + now rewrite IH.
Qed.

(** Adding a document lists it and keeps the documents already listed. *)
Lemma add_nested_file_lists (path_parts : list string) (e : nat * string) :
  forall d d',
    forallb regular_name path_parts = true ->
    add_nested_file path_parts e d = Ok d' ->
    listed e d' /\ (forall e0, listed e0 d -> listed e0 d').
Proof.
  induction path_parts as [|part rest IH]; intros d d' Hreg Hadd; simpl in Hadd.
  - assert (Hkeep : forall v e0 d0 k,
               String.eqb k "files" = false -> dict_get k d = Some (Folder d0) ->
               listed e0 d0 -> listed e0 (dict_set "files" v d)).
    { intros v e0 d0 k Hk Hg Hl. apply (listed_below _ _ k d0); auto.
      now rewrite dict_get_set_other. }
    destruct (dict_get "files" d) as [[l|d0]|] eqn:E; [| discriminate |];
      injection Hadd as <-; split.
    + apply (listed_here _ _ (l ++ [e])%list); [apply dict_get_set_same|].
      apply in_or_app. right. now left.
    + intros e0 H. inversion H as [? l0 Hg Hin | ? k d0 Hk Hg Hl]; subst; eauto.
      apply (listed_here _ _ (l ++ [e])%list); [apply dict_get_set_same|].
      rewrite E in Hg. injection Hg as <-. apply in_or_app. now left.
    + apply (listed_here _ _ [e]); [apply dict_get_set_same | now left].
    + intros e0 H. inversion H as [? l0 Hg Hin | ? k d0 Hk Hg Hl]; subst; eauto.
      congruence.
  - simpl in Hreg. apply andb_true_iff in Hreg as [Hpart Hrest].
    destruct (regular_name_inv _ Hpart) as [Hr Hf].
    assert (Hfiles : forall sub, dict_get "files" (dict_set part (Folder sub) d)
                                 = dict_get "files" d).
    { intros sub. apply dict_get_set_other. now rewrite String.eqb_sym. }
    destruct (dict_get part d) as [[l|d0]|] eqn:E; [discriminate| |].
    + destruct (add_nested_file rest e d0) as [sub|] eqn:Es; [|discriminate].
      injection Hadd as <-. destruct (IH _ _ Hrest Es) as [Hnew Hold]. split.
      * apply (listed_below _ _ part sub); auto using dict_get_set_same.
      * intros e0 H. inversion H as [? l0 Hg Hin | ? k d1 Hk Hg Hl]; subst.
        -- apply (listed_here _ _ l0); [now rewrite Hfiles | exact Hin].
        -- destruct (String.eqb_spec k part) as [->|Hne].
           ++ rewrite E in Hg. injection Hg as <-.
              apply (listed_below _ _ part sub); auto using dict_get_set_same.
           ++ apply (listed_below _ _ k d1); auto.
              rewrite dict_get_set_other; [exact Hg | now apply String.eqb_neq].
    + destruct (add_nested_file rest e []) as [sub|] eqn:Es; [|discriminate].
      injection Hadd as <-. destruct (IH _ _ Hrest Es) as [Hnew Hold]. split.
      * apply (listed_below _ _ part sub); auto using dict_get_set_same.
      * intros e0 H. inversion H as [? l0 Hg Hin | ? k d1 Hk Hg Hl]; subst.
        -- apply (listed_here _ _ l0); [now rewrite Hfiles | exact Hin].
        -- destruct (String.eqb_spec k part) as [->|Hne]; [congruence|].
           apply (listed_below _ _ k d1); auto.
           rewrite dict_get_set_other; [exact Hg | now apply String.eqb_neq].
Qed.

Lemma add_file_lists (i : nat) (f : RelPath) (tree t' : dict) :
  regular_folders f = true -> add_file i f tree = Ok t' ->
  listed_top (i, stem (rel_path f)) t'
  /\ (forall e0, listed_top e0 tree -> listed_top e0 t').
Proof.
  unfold regular_folders, add_file. simpl parts.
  destruct (removelast f) as [|part rest] eqn:Ef; intros Hreg Hadd.
  - unfold add_root_file in Hadd.
    assert (Hkeep : forall v e0, (exists k d', String.eqb k "root" = false
                                   /\ dict_get k tree = Some (Folder d') /\ listed e0 d') ->
                                 listed_top e0 (dict_set "root" v tree)).
    { intros v e0 (k & d' & Hk & Hg & Hl). right. exists k, d'.
      repeat split; auto. now rewrite dict_get_set_other. }
    destruct (dict_get "root" tree) as [[l|d0]|] eqn:E; [| discriminate |];
      injection Hadd as <-; split.
    + left. exists (l ++ [(i, stem (rel_path f))])%list.
      split; [apply dict_get_set_same|]. apply in_or_app. right. now left.
    + intros e0 [(l0 & Hg & Hin)|H]; [|now apply Hkeep].
      left. exists (l ++ [(i, stem (rel_path f))])%list.
      split; [apply dict_get_set_same|].
      rewrite Hg in E. injection E as ->. apply in_or_app. now left.
    + left. exists [(i, stem (rel_path f))].
      split; [apply dict_get_set_same | now left].
    + intros e0 [(l0 & Hg & Hin)|H]; [congruence | now apply Hkeep].
  - simpl in Hreg. apply andb_true_iff in Hreg as [Hpart Hrest].
    destruct (regular_name_inv _ Hpart) as [Hr Hf].
    simpl in Hadd.
    assert (Hroot : forall sub, dict_get "root" (dict_set part (Folder sub) tree)
                                = dict_get "root" tree).
    { intros sub. apply dict_get_set_other. now rewrite String.eqb_sym. }
    assert (Hstep : forall d0 sub,
               (dict_get part tree = Some (Folder d0) \/ dict_get part tree = None) ->
               listed (i, stem (rel_path f)) sub ->
               (forall e0, dict_get part tree = Some (Folder d0) ->
                           listed e0 d0 -> listed e0 sub) ->
               listed_top (i, stem (rel_path f)) (dict_set part (Folder sub) tree)
               /\ (forall e0, listed_top e0 tree ->
                              listed_top e0 (dict_set part (Folder sub) tree))).
    { intros d0 sub Hd Hnew Hold. split.
      - right. exists part, sub. auto using dict_get_set_same.
      - intros e0 [(l0 & Hg & Hin)|(k & d1 & Hk & Hg & Hl)].
        + left. exists l0. split; [now rewrite Hroot | exact Hin].
        + right. destruct (String.eqb_spec k part) as [->|Hne].
          * exists part, sub. repeat split; auto using dict_get_set_same.
            destruct Hd as [Hd|Hd]; [|congruence].
            apply Hold; [exact Hd|]. rewrite Hd in Hg. now injection Hg as <-.
          * exists k, d1. repeat split; auto.
            rewrite dict_get_set_other; [exact Hg | now apply String.eqb_neq]. }
    destruct (dict_get part tree) as [[l|d0]|] eqn:E; [discriminate| |].
    + destruct (add_nested_file rest (i, stem (rel_path f)) d0) as [sub|] eqn:Es;
        [|discriminate].
      injection Hadd as <-.
      destruct (add_nested_file_lists _ _ _ _ Hrest Es) as [Hnew Hold].
      apply (Hstep d0 sub); auto.
    + destruct (add_nested_file rest (i, stem (rel_path f)) []) as [sub|] eqn:Es;
        [|discriminate].
      injection Hadd as <-.
      destruct (add_nested_file_lists _ _ _ _ Hrest Es) as [Hnew Hold].
      apply (Hstep [] sub); auto.
Qed.

Lemma build_tree_lists (files : list RelPath) :
  forall i tree t',
    forallb regular_folders files = true ->
    build_tree i files tree = Ok t' ->
    (forall e0, listed_top e0 tree -> listed_top e0 t')
    /\ (forall k f, nth_error files k = Some f ->
                    listed_top (i + k, stem (rel_path f)) t').
Proof.
  induction files as [|f rest IH]; intros i tree t' Hreg Hb; simpl in Hb.
  - injection Hb as <-. split; [auto|]. intros [|k] f H; discriminate.
  - simpl in Hreg. apply andb_true_iff in Hreg as [Hf Hrest].
    destruct (add_file i f tree) as [t1|] eqn:E1; [|discriminate]. simpl in Hb.
    destruct (add_file_lists _ _ _ _ Hf E1) as [Hnew Hold].
    destruct (IH _ _ _ Hrest Hb) as [Hkeep Hall]. split; [auto|].
    intros [|k] g Hk; simpl in Hk.
    + injection Hk as <-. rewrite Nat.add_0_r. auto.
    + replace (i + S k) with (S i + k) by lia. auto.
Qed.

Lemma sub_items_get F (d : dict) (subs : list string) (k : string) (v : node) :
  sub_items F d = Ok subs -> dict_get k d = Some v ->
  String.eqb k "files" = false ->
  exists r, F k v = Ok r /\ In (join nl r) subs.
Proof.
  revert subs. induction d as [|[k' v'] t IH]; intros subs Hs Hg Hk; simpl in *.
  - discriminate.
  - destruct (String.eqb_spec k' k) as [->|Hne].
    + injection Hg as ->. rewrite Hk in Hs.
      destruct (F k v) as [r|]; [|discriminate]. simpl in Hs.
      destruct (sub_items F t) as [rs|]; [|discriminate].
      injection Hs as <-. exists r. split; [reflexivity | now left].
    + destruct (String.eqb k' "files").
      * eauto.
      * destruct (F k' v') as [r'|]; [|discriminate]. simpl in Hs.
        destruct (sub_items F t) as [rs|] eqn:Et; [|discriminate].
        injection Hs as <-.
        destruct (IH rs eq_refl Hg Hk) as (r & Hr & Hin).
        exists r. split; [exact Hr | now right].
Qed.

(** Every document a well-formed folder lists has its link in one of the
    items of the folder. *)
Lemma folder_items_lists (e : nat * string) (d : dict) :
  listed e d -> forallb wf_entry d = true ->
  forall folder_name parent_path r,
    String.eqb folder_name "root" = false ->
    folder_items folder_name (Folder d) parent_path = Ok r ->
    exists item, In item r /\ Contains (show_section (fst e)) item.
Proof.
  induction 1 as [d l Hg Hin | d k d' Hk Hg Hl IH];
    intros Hwf folder_name parent_path r Hname Hr;
    rewrite folder_items_folder, Hname in Hr; cbv zeta in Hr.
  - rewrite Hg in Hr. simpl in Hr.
    destruct (sub_items _ d) as [subs|]; [|discriminate]. simpl in Hr.
    injection Hr as <-.
    exists (file_link (folder_id_of parent_path folder_name) (of_nat (fst e), snd e)).
    split; [|apply file_link_shows].
    right. apply in_or_app. left.
    apply in_map. apply (in_map (fun e => (of_nat (fst e), snd e))) in Hin. exact Hin.
  - assert (Hkv := dict_get_forallb wf_entry _ _ _ Hwf Hg).
    unfold wf_entry in Hkv. simpl fst in Hkv. simpl snd in Hkv.
    rewrite Hk, wf_node_folder in Hkv.
    apply andb_true_iff in Hkv as [Hkv Hwf'].
    apply andb_true_iff in Hkv as [Hroot _]. apply negb_true_iff in Hroot.
    destruct (match dict_get "files" d with
              | Some v => _
              | None => _
              end) as [fs|]; [|discriminate]. simpl in Hr.
    destruct (sub_items _ d) as [subs|] eqn:Es; [|discriminate]. simpl in Hr.
    injection Hr as <-.
    destruct (sub_items_get _ _ _ _ _ Es Hg Hk) as (r' & Hr' & Hin).
    destruct (IH Hwf' _ _ _ Hroot Hr') as (item & Hitem & Hc).
    exists (join nl r'). split.
    + right. apply in_or_app. right. apply in_or_app. now left.
    + eapply contains_trans; [exact Hc | now apply contains_join].
Qed.

Lemma all_folder_items_get (tree : dict) (parent_path : string) (r : list string)
      (k : string) (v : node) :
  all_folder_items tree parent_path = Ok r -> dict_get k tree = Some v ->
  exists r', folder_items k v parent_path = Ok r' /\ incl r' r.
Proof.
  revert r. induction tree as [|[k' v'] t IH]; intros r Hr Hg; simpl in *.
  - discriminate.
  - destruct (folder_items k' v' parent_path) as [r1|] eqn:E1; [|discriminate].
    simpl in Hr.
    destruct (all_folder_items t parent_path) as [rs|]; [|discriminate].
    injection Hr as <-.
    destruct (String.eqb_spec k' k) as [->|Hne].
    + injection Hg as <-. exists r1. split; [exact E1 | now apply incl_appl].
    + destruct (IH rs eq_refl Hg) as (r' & Hr' & Hincl).
      exists r'. split; [exact Hr' | now apply incl_appr].
Qed.

(** On regular folders every document of the sequence has a navigation link
    that shows its ordinal. *)
Lemma every_document_is_linked (files : list RelPath) (i : nat) (f : RelPath) :
  forallb regular_folders files = true ->
  nth_error files i = Some f ->
  exists nav, generate_navigation files = Ok nav /\ Contains (show_section i) nav.
Proof.
  intros Hreg Hnth. unfold generate_navigation.
  destruct (build_tree_ok files 0 [] Hreg eq_refl) as (tree & Ht & Hwf).
  destruct (build_tree_lists _ _ _ _ Hreg Ht) as [_ Hall].
  specialize (Hall i f Hnth). simpl in Hall. rewrite Ht. simpl.
  destruct (all_folder_items_ok tree "" Hwf) as [r Hr].
  unfold _build_folder_navigation. rewrite Hr. simpl.
  destruct Hall as [(l & Hg & Hin)|(k & d' & Hk & Hg & Hl)].
  - rewrite Hg. simpl. eexists. split; [reflexivity|].
    eapply contains_trans; [apply (root_link_shows i (stem (rel_path f)))|].
    apply contains_join. apply in_or_app. left.
    apply in_map. apply (in_map (fun e => (of_nat (fst e), snd e))) in Hin. exact Hin.
  - assert (Hitems : exists items,
               match dict_get "root" tree with
               | Some v => ps <- unpack_pairs v ;; Ok (map root_link ps)
               | None => Ok []
               end = Ok items).
    { destruct (dict_get "root" tree) as [v|] eqn:E; [|eauto].
      apply (dict_get_forallb wf_top_entry) in E; [|exact Hwf].
      destruct v; [simpl; eauto | discriminate]. }
    destruct Hitems as [items ->]. simpl. eexists. split; [reflexivity|].
    destruct (all_folder_items_get _ _ _ _ _ Hr Hg) as (r' & Hr' & Hincl).
    assert (Hkv := dict_get_forallb wf_top_entry _ _ _ Hwf Hg).
    unfold wf_top_entry in Hkv. simpl fst in Hkv. simpl snd in Hkv.
    rewrite Hk, wf_node_folder in Hkv. apply andb_true_iff in Hkv as [_ Hwf'].
    destruct (folder_items_lists _ _ Hl Hwf' _ _ _ Hk Hr') as (item & Hitem & Hc).
    simpl in Hc.
    eapply contains_trans; [exact Hc|].
    eapply contains_trans; [apply contains_join, Hincl, Hitem|].
    apply contains_join, in_or_app. right. now left.
Qed.

(** ** Blank documents *)

Lemma enumerate_from_In {A : Type} (l : list A) :
  forall start j (x : A),
    In (j, x) (enumerate_from start l) ->
    start <= j /\ nth_error l (j - start) = Some x.
Proof.
  unfold enumerate_from.
  induction l as [|y l IH]; intros start j x H; simpl in H; [contradiction|].
  destruct H as [H|H].
  - injection H as <- <-. rewrite Nat.sub_diag. split; [lia | reflexivity].
  - apply IH in H as [Hle Hn]. split; [lia|].
    replace (j - start) with (S (j - S start)) by lia. exact Hn.
Qed.

Lemma blank_document_tags safe_load disk (f : RelPath) :
  nonblank disk f = false -> tags_of safe_load disk f = [].
Proof.
  unfold nonblank, tags_of, document_tags. now intros ->.
Qed.

(** X4: on regular inputs a blank document keeps its ordinal and its navigation
    link, and gets neither a section nor an entry in the tag index. *)
Lemma blank_document_is_linked_without_section
      safe_load md_convert cwd input_folder show_frontmatter disk
      (markdown_files : list RelPath) (i : nat) (f : RelPath) :
  Forall (fun f => regular_frontmatter (frontmatter_of safe_load disk f) = true)
         markdown_files ->
  forallb regular_folders markdown_files = true ->
  nth_error markdown_files i = Some f ->
  nonblank disk f = false ->
  exists p,
    generate_html_content safe_load md_convert cwd input_folder show_frontmatter
                          disk markdown_files = Ok p
    /\ Contains (show_section i) (page_navigation p)
    /\ ~ In i (map section_index (page_sections p))
    /\ (forall t es, tag_get t (page_tags p) = Some es ->
                     ~ In i (map entry_index es)).
Proof.
  intros Hfm Hreg Hnth Hblank.
  destruct (generate_html_content_ok safe_load md_convert cwd input_folder
              show_frontmatter disk markdown_files Hfm Hreg) as (p & Hp & Hs).
  exists p. split; [exact Hp|].
  assert (Hsame : forall g, In (i, g) (enumerate_from 0 markdown_files) -> g = f).
  { intros g Hin. apply enumerate_from_In in Hin as [_ Hn].
    rewrite Nat.sub_0_r in Hn. congruence. }
  split; [|split].
  - destruct (every_document_is_linked markdown_files i f Hreg Hnth) as (nav & Hn & Hc).
    unfold generate_html_content in Hp.
    destruct (process_files _ _ _ _ _ _ _ _ _ _) as [st|]; [|discriminate].
    simpl in Hp. rewrite Hn in Hp. injection Hp as <-. exact Hc.
  - rewrite Hs. intros Hin. apply in_map_iff in Hin as ([j g] & Hj & Hin).
    simpl in Hj. subst j. apply filter_In in Hin as [Hin Hnb]. simpl in Hnb.
    rewrite (Hsame g Hin) in Hnb. congruence.
  - intros t es Ht.
    assert (Hspec : forall t, tag_get t (page_tags p)
                             = nonempty (tag_index_spec safe_load disk
                                           (enumerate_from 0 markdown_files) t)).
    { unfold generate_html_content in Hp.
      destruct (process_files _ _ _ _ _ _ _ _ _ _) as [st|] eqn:E; [|discriminate].
      simpl in Hp. destruct (generate_navigation markdown_files); [|discriminate].
      injection Hp as <-. simpl.
      eapply (process_files_tags _ _ _ _ _ _ _ _ _ _ _ (fun _ => [])) in E.
      - apply E.
      - intros t0. reflexivity. }
    rewrite Hspec in Ht.
    assert (Hes : es = tag_index_spec safe_load disk (enumerate_from 0 markdown_files) t).
    { destruct (tag_index_spec _ _ _ t); [discriminate | now injection Ht]. }
    subst es. unfold tag_index_spec. intros Hin.
    apply in_map_iff in Hin as (e & He & Hin).
    apply in_flat_map in Hin as ([j g] & Hd & Hin).
    apply in_map_iff in Hin as (k & <- & Hk). simpl in He. subst j.
    apply filter_In in Hk as [Hk _]. simpl in Hk.
    rewrite (Hsame g Hd), (blank_document_tags _ _ _ Hblank) in Hk. contradiction.
Qed.

(** * Further properties of the converter *)

(** ** Loader *)

Lemma find_markdown_files_shape_witness :
  exists x rest,
    link_files = x :: rest
    /\ is_entry_name (name (file_path docs x)) = true
    /\ In x (rglob_md link_disk)
    /\ StronglySorted (key_le (fun f => str (file_path docs f))) rest
    /\ Permutation rest
         (filter (fun f => negb (is_entry_name (name (file_path docs f))))
                 (rglob_md link_disk)).
Proof.
  apply (find_markdown_files_shape docs link_disk link_files).
  vm_compute. reflexivity.
Defined.

Lemma find_markdown_files_deterministic_witness :
  find_markdown_files docs link_disk = find_markdown_files docs link_disk_rescanned.
Proof.
  apply (find_markdown_files_deterministic docs link_disk link_disk_rescanned
                                           ["index.md"]).
  - reflexivity.
  - simpl.
    apply (Permutation_cons_app [["x"; "a.md"]; ["a"; "b.md"]] [["b.md"]]).
    apply (Permutation_cons_app [["x"; "a.md"]; ["a"; "b.md"]] []).
    apply perm_swap.
  - vm_compute.
    repeat (constructor; [simpl; intuition discriminate|]). constructor.
  - vm_compute. reflexivity.
Defined.

(** ** Navigation *)

(** X3: on folders named neither [root] nor [files] the navigation is built, and
    it holds a link for every ordinal of the sequence. *)
Theorem navigation_links_every_document (files : list RelPath) :
  forallb regular_folders files = true ->
  exists nav,
    generate_navigation files = Ok nav
    /\ forall i, i < List.length files -> Contains (show_section i) nav.
Proof.
  intros Hreg. destruct (generate_navigation_ok files Hreg) as [nav Hnav].
  exists nav. split; [exact Hnav|]. intros i Hi.
  destruct (nth_error files i) as [f|] eqn:E.
  - destruct (every_document_is_linked files i f Hreg E) as (nav' & Hn & Hc).
    rewrite Hnav in Hn. now injection Hn as <-.
  - apply nth_error_None in E. lia.
Qed.

Lemma navigation_links_every_document_witness :
  exists nav,
    generate_navigation link_files = Ok nav
    /\ forall i, i < 4 -> Contains (show_section i) nav.
Proof.
  apply (navigation_links_every_document link_files). vm_compute. reflexivity.
Defined.

Lemma blank_document_witness :
  exists p,
    generate_html_content sample_yaml sample_md sample_cwd docs true mixed_disk
      [["index.md"]; ["guide"; "empty.md"]; ["guide"; "setup.md"]] = Ok p
    /\ Contains (show_section 1) (page_navigation p)
    /\ ~ In 1 (map section_index (page_sections p))
    /\ (forall t es, tag_get t (page_tags p) = Some es -> ~ In 1 (map entry_index es)).
Proof.
  apply (blank_document_is_linked_without_section
           sample_yaml sample_md sample_cwd docs true mixed_disk
           [["index.md"]; ["guide"; "empty.md"]; ["guide"; "setup.md"]]
           1 ["guide"; "empty.md"]).
  - repeat constructor.
  - vm_compute. reflexivity.
  - reflexivity.
  - vm_compute. reflexivity.
Defined.

(** ** Code fences: what normalisation keeps *)

Lemma dedent_drops_spaces (k : nat) (l : string) :
  exists n, n <= leading_spaces l /\ dedent k l = drop n l.
Proof.
  unfold dedent. destruct (startswith (spaces k) l) eqn:E.
  - exists k. split; [now apply startswith_spaces | reflexivity].
  - exists 0. split; [lia | now rewrite drop_zero].
Qed.

Lemma normalize_lines_drop_spaces (lines : list string) :
  forall b k,
    Forall2 (fun out inp => exists n, n <= leading_spaces inp /\ out = drop n inp)
            (normalize_lines b k lines) lines.
Proof.
  induction lines as [|l rest IH]; intros b k; simpl; [constructor|].
  destruct (fence_match l) as [indent|] eqn:E.
  - destruct b; simpl; constructor; auto using dedent_drops_spaces.
    exists indent. split; [|reflexivity].
    unfold fence_match in E. destruct (startswith _ _); [|discriminate].
    injection E as <-. lia.
  - destruct b; constructor; auto using dedent_drops_spaces.
    exists 0. split; [lia | now rewrite drop_zero].
Qed.

(** X5: normalisation keeps the number of lines and, line by line, removes
    nothing but leading spaces: what follows the indentation of a line, inside
    or outside a fence, is never altered. *)
Theorem normalize_only_removes_indentation (body : string) :
  Forall2 (fun out inp => exists n, n <= leading_spaces inp /\ out = drop n inp)
          (split_on nl_char (normalize_code_fence_indentation body))
          (split_on nl_char body).
Proof.
  unfold normalize_code_fence_indentation. rewrite split_join.
  - apply normalize_lines_drop_spaces.
  - apply normalize_lines_nonempty, split_on_nonempty.
  - apply normalize_lines_no_newline, split_on_no_sep.
Qed.

(** ** Link resolver: targets and unresolved links *)

Lemma first_index_some {A : Type} (p : A -> bool) (l : list A) :
  forall start t, first_index p start l = Some t ->
                  start <= t /\ t < start + List.length l.
Proof.
  induction l as [|x l IH]; intros start t H; simpl in H; [discriminate|].
  destruct (p x).
  - injection H as <-. simpl. lia.
  - apply IH in H. simpl. lia.
Qed.

Lemma first_index_none {A : Type} (p : A -> bool) (l : list A) :
  forall start, first_index p start l = None -> forall x, In x l -> p x = false.
Proof.
  induction l as [|y l IH]; intros start H x Hin; simpl in *; [contradiction|].
  destruct (p y) eqn:E; [discriminate|].
  destruct Hin as [<-|Hin]; eauto.
Qed.

(** X6: a link that holds no NUL character resolves to an ordinal of the
    sequence or to nothing; it resolves to nothing only when no document
    carries its base name; and the lookup raises only on an ordinal outside
    the sequence. *)
Theorem find_file_index_by_path_outcome
        cwd input_folder (markdown_files : list RelPath) (link_path : string) (i : nat) :
  no_nul link_path = true ->
  match find_file_index_by_path cwd input_folder markdown_files link_path i with
  | Ok (Some t) => i < List.length markdown_files /\ t < List.length markdown_files
  | Ok None =>
      i < List.length markdown_files
      /\ forall g, In g markdown_files ->
                   name (file_path input_folder g) <> name (parse link_path)
  | Raise e => e = IndexError /\ List.length markdown_files <= i
  end.
Proof.
  intros _. unfold find_file_index_by_path.
  destruct (nth_error markdown_files i) as [f|] eqn:E.
  - assert (Hi : i < List.length markdown_files)
      by (apply nth_error_Some; congruence).
    destruct (first_index _ 0 markdown_files) as [t|] eqn:E1.
    + apply first_index_some in E1. split; [exact Hi | lia].
    + destruct (first_index
                  (fun f0 => String.eqb (name (file_path input_folder f0))
                                        (name (parse link_path)))
                  0 markdown_files) as [t|] eqn:E2.
      * apply first_index_some in E2. split; [exact Hi | lia].
      * split; [exact Hi|]. intros g Hg Heq.
        pose proof (first_index_none _ _ _ E2 g Hg) as Hf. simpl in Hf.
        rewrite Heq, String.eqb_refl in Hf. discriminate.
  - split; [reflexivity | now apply nth_error_None].
Qed.

Lemma find_file_index_by_path_outcome_witness :
  no_nul "missing.md" = true
  /\ match find_file_index_by_path sample_cwd docs link_files "missing.md" 3 with
     | Ok (Some t) => 3 < List.length link_files /\ t < List.length link_files
     | Ok None =>
         3 < List.length link_files
         /\ forall g, In g link_files ->
                      name (file_path docs g) <> name (parse "missing.md")
     | Raise e => e = IndexError /\ List.length link_files <= 3
     end.
Proof.
  split; [reflexivity|].
  apply (find_file_index_by_path_outcome sample_cwd docs link_files "missing.md" 3).
  reflexivity.
Defined.

(** ** Frontmatter: a well-formed document *)

Lemma rstrip_by_cons (p : ascii -> bool) (c : ascii) (s : string) :
  rstrip_by p (String c s)
  = if String.eqb (rstrip_by p s) "" && p c then "" else String c (rstrip_by p s).
Proof.
  simpl. destruct (rstrip_by p s); simpl; [now destruct (p c) | reflexivity].
Qed.

Lemma rstrip_by_app (p : ascii -> bool) (a b : string) :
  rstrip_by p (a ++ b)
  = if String.eqb (rstrip_by p b) "" then rstrip_by p a else a ++ rstrip_by p b.
Proof.
  induction a as [|c a IH].
  - simpl. now destruct (rstrip_by p b).
  - change (String c a ++ b) with (String c (a ++ b)).
    rewrite !rstrip_by_cons, IH.
    destruct (String.eqb (rstrip_by p b) "") eqn:E; [reflexivity|].
    change (String c a ++ rstrip_by p b) with (String c (a ++ rstrip_by p b)).
    destruct (a ++ rstrip_by p b) eqn:E'; [|reflexivity].
    destruct a; [|discriminate]. simpl in E'. rewrite E' in E. discriminate.
Qed.

Lemma rstrip_by_idempotent (p : ascii -> bool) (s : string) :
  rstrip_by p (rstrip_by p s) = rstrip_by p s.
Proof.
  induction s as [|c s IH]; [reflexivity|].
  rewrite rstrip_by_cons.
  destruct (String.eqb (rstrip_by p s) "" && p c) eqn:E; [reflexivity|].
  rewrite rstrip_by_cons, IH, E. reflexivity.
Qed.

Lemma lstrip_by_cons (p : ascii -> bool) (c : ascii) (s : string) :
  lstrip_by p (String c s) = if p c then lstrip_by p s else String c s.
Proof. reflexivity. Qed.

Lemma lstrip_rstrip_commute (p : ascii -> bool) (s : string) :
  lstrip_by p (rstrip_by p s) = rstrip_by p (lstrip_by p s).
Proof.
  induction s as [|c s IH]; [reflexivity|].
  rewrite rstrip_by_cons, lstrip_by_cons.
  destruct (p c) eqn:Ec.
  - rewrite andb_true_r.
    destruct (String.eqb_spec (rstrip_by p s) "") as [E|E].
    + rewrite <- IH, E. reflexivity.
    + now rewrite lstrip_by_cons, Ec.
  - rewrite andb_false_r, lstrip_by_cons, Ec.
    now rewrite rstrip_by_cons, Ec, andb_false_r.
Qed.

Lemma strip_rstrip (s : string) : strip (rstrip_by is_space s) = strip s.
Proof.
  unfold strip. now rewrite lstrip_rstrip_commute, rstrip_by_idempotent.
Qed.

Lemma strip_blank (s : string) : rstrip_by is_space s = "" -> strip s = "".
Proof.
  intros H. unfold strip. now rewrite <- lstrip_rstrip_commute, H.
Qed.

Lemma split_on_app_sep (c : ascii) (a b : string) :
  split_on c (a ++ String c b) = (split_on c a ++ split_on c b)%list.
Proof.
  induction a as [|x a IH]; simpl.
  - now rewrite Ascii.eqb_refl.
  - destruct (Ascii.eqb x c); [now rewrite IH|].
    rewrite IH. destruct (split_on c a) as [|w ws] eqn:E; [|reflexivity].
    now apply split_on_nonempty in E.
Qed.

Lemma first_closing_app (l1 l2 : list string) :
  forall start,
    first_closing start l1 = None ->
    first_closing start (l1 ++ l2) = first_closing (start + List.length l1) l2.
Proof.
  induction l1 as [|l l1 IH]; intros start H; simpl in *.
  - now rewrite Nat.add_0_r.
  - destruct (String.eqb (strip l) "---"); [discriminate|].
    rewrite IH by exact H. f_equal. lia.
Qed.

Lemma strip_app_core (a b : string) :
  a <> "" -> lstrip_by is_space a = a -> rstrip_by is_space a = a ->
  strip (a ++ b)
  = if String.eqb (rstrip_by is_space b) "" then a else a ++ rstrip_by is_space b.
Proof.
  intros Hne Hl Hr. unfold strip.
  assert (E : lstrip_by is_space (a ++ b) = a ++ b).
  { destruct a as [|c a]; [contradiction|].
    change (String c a ++ b) with (String c (a ++ b)).
    rewrite lstrip_by_cons in *. destruct (is_space c); [|reflexivity].
    (* a leading space would make the stripped text shorter *)
    exfalso. clear -Hl.
    assert (Hlen : forall s, String.length (lstrip_by is_space s) <= String.length s).
    { induction s as [|x s IH]; simpl; [lia|]. destruct (is_space x); simpl; lia. }
    specialize (Hlen a). rewrite Hl in Hlen. simpl in Hlen. lia. }
  rewrite E, rstrip_by_app, Hr. reflexivity.
Qed.

Lemma join_nil (sep : string) : join sep [] = "".
Proof. reflexivity. Qed.

(** X7: a document made of an opening delimiter, a block none of whose lines is
    a delimiter, a closing delimiter and a body is split into the block,
    handed as it is to the YAML loader, and the stripped body. *)
Theorem parse_frontmatter_well_formed safe_load (block body : string) :
  first_closing 1 (split_on nl_char block) = None ->
  parse_frontmatter safe_load ("---" ++ nl ++ block ++ nl ++ "---" ++ nl ++ body)
  = match safe_load block with
    | Some v => (if truthy v then v else YMap [], strip body, [])
    | None => (YMap [], strip body, [FrontmatterWarning])
    end.
Proof.
  intros Hblock.
  set (opening := "---" ++ String nl_char (block ++ String nl_char "---")).
  assert (Hcontent : "---" ++ nl ++ block ++ nl ++ "---" ++ nl ++ body
                     = opening ++ String nl_char body).
  { unfold opening, nl, nl_char. simpl. now rewrite ?string_app_assoc. }
  assert (Hopen : rstrip_by is_space opening = opening).
  { unfold opening.
    change ("---" ++ String nl_char (block ++ String nl_char "---"))
      with (("---" ++ String nl_char block) ++ String nl_char "---") at 1.
    - rewrite rstrip_by_app.
      replace (rstrip_by is_space (String nl_char "---")) with (String nl_char "---")
        by reflexivity.
      reflexivity. }
  set (tail := if String.eqb (rstrip_by is_space body) "" then []
               else split_on nl_char (rstrip_by is_space body)).
  assert (Hdoc : strip (opening ++ String nl_char body)
                 = if String.eqb (rstrip_by is_space body) "" then opening
                   else opening ++ String nl_char (rstrip_by is_space body)).
  { rewrite strip_app_core; [| discriminate | reflexivity | exact Hopen].
    rewrite rstrip_by_cons.
    destruct (String.eqb (rstrip_by is_space body) ""); reflexivity. }
  assert (Hopening : split_on nl_char opening
                     = "---" :: (split_on nl_char block ++ ["---"])%list).
  { unfold opening. rewrite (split_on_app_sep nl_char "---").
    now rewrite split_on_app_sep. }
  assert (Hstrip : split_on nl_char (strip (opening ++ String nl_char body))
                   = "---" :: (split_on nl_char block ++ "---" :: tail)%list).
  { rewrite Hdoc. unfold tail.
    destruct (String.eqb (rstrip_by is_space body) "").
    - exact Hopening.
    - rewrite split_on_app_sep, Hopening. simpl. now rewrite <- app_assoc. }
  assert (Htail : strip (join nl tail) = strip body).
  { unfold tail. destruct (String.eqb_spec (rstrip_by is_space body) "") as [E|E].
    - rewrite join_nil. symmetry. now apply strip_blank.
    - rewrite join_split. apply strip_rstrip. }
  rewrite Hcontent. unfold parse_frontmatter.
  assert (Hstart : startswith "---" (strip (opening ++ String nl_char body)) = true).
  { rewrite Hdoc. now destruct (String.eqb _ _). }
  rewrite Hstart, Hstrip.
  set (n := List.length (split_on nl_char block)).
  assert (Hlen : (1 <? List.length ("---" :: (split_on nl_char block ++ "---" :: tail)%list))%nat
                 = true).
  { apply Nat.ltb_lt. simpl. rewrite length_app. simpl. lia. }
  rewrite Hlen. simpl tl.
  rewrite first_closing_app by exact Hblock. fold n.
  simpl first_closing.
  replace (String.eqb (strip "---") "---") with true by reflexivity.
  cbn beta match.
  replace (S n - 1) with n by lia.
  assert (Hfirst : firstn n (split_on nl_char block ++ "---" :: tail)%list
                   = split_on nl_char block).
  { unfold n. rewrite firstn_app, Nat.sub_diag, firstn_all. simpl.
    now rewrite app_nil_r. }
  assert (Hskip : skipn (S n + 1)
                        ("---" :: (split_on nl_char block ++ "---" :: tail)%list)
                  = tail).
  { replace (S n + 1) with (S (n + 1)) by lia. simpl skipn.
    rewrite skipn_app. unfold n.
    rewrite skipn_all2 by lia.
    replace (List.length (split_on nl_char block) + 1
             - List.length (split_on nl_char block)) with 1 by lia.
    reflexivity. }
  rewrite Hfirst, Hskip, join_split, Htail. reflexivity.
Qed.

Lemma parse_frontmatter_well_formed_witness :
  parse_frontmatter sample_yaml closed_sample
  = (YMap [(YStr "tags", YSeq [YStr "setup"; YStr "intro"])], "# Setup", []).
Proof.
  exact (parse_frontmatter_well_formed sample_yaml "tags: [setup, intro]"
           (nl ++ "# Setup" ++ nl) eq_refl).
Defined.

(** ** Display names and folder identifiers *)

Lemma title_char_no_separator (prev : bool) (c : ascii) :
  no_separator_char
    (if prev
     then lower_char (if Ascii.eqb (if Ascii.eqb c "_" then " " else c) "-"
                      then " " else if Ascii.eqb c "_" then " " else c)
     else upper_char (if Ascii.eqb (if Ascii.eqb c "_" then " " else c) "-"
                      then " " else if Ascii.eqb c "_" then " " else c)) = true.
Proof.
  destruct prev;
    destruct c as [[|] [|] [|] [|] [|] [|] [|] [|]]; vm_compute; reflexivity.
Qed.

Lemma title_from_display (s : string) :
  forall prev,
    all_chars no_separator_char
              (title_from prev (replace_char "-" " " (replace_char "_" " " s))) = true
    /\ String.length (title_from prev (replace_char "-" " " (replace_char "_" " " s)))
       = String.length s.
Proof.
  induction s as [|c s IH]; intros prev; [split; reflexivity|].
  unfold replace_char in *. cbn [map_chars title_from all_chars String.length].
  destruct (IH (is_upper (if Ascii.eqb (if Ascii.eqb c "_" then " " else c) "-"
                          then " " else if Ascii.eqb c "_" then " " else c)
                || is_lower (if Ascii.eqb (if Ascii.eqb c "_" then " " else c) "-"
                             then " " else if Ascii.eqb c "_" then " " else c)))
    as [H1 H2].
  rewrite H1, H2, title_char_no_separator. split; reflexivity.
Qed.

(** X8: the display name of a name made of ASCII characters has the length
    of that name and holds neither underscore nor hyphen. *)
Theorem display_name_has_no_separator (s : string) :
  all_chars is_ascii s = true ->
  all_chars no_separator_char (display_name s) = true
  /\ String.length (display_name s) = String.length s.
Proof. intros _. unfold display_name, title. apply title_from_display. Qed.

Lemma display_name_witness :
  all_chars is_ascii "getting_started-guide" = true
  /\ all_chars no_separator_char (display_name "getting_started-guide") = true
  /\ String.length (display_name "getting_started-guide") = 21.
Proof.
  split; [reflexivity|].
  apply (display_name_has_no_separator "getting_started-guide"). reflexivity.
Defined.

Lemma map_chars_id (f : ascii -> ascii) (p : ascii -> bool) (s : string) :
  (forall c, p c = true -> f c = c) -> all_chars p s = true -> map_chars f s = s.
Proof.
  intros Hf. induction s as [|c s IH]; simpl; [reflexivity|].
  intros H. apply andb_true_iff in H as [Hc Hs]. now rewrite (Hf c Hc), IH.
Qed.

Lemma all_chars_app (p : ascii -> bool) (a b : string) :
  all_chars p (a ++ b) = all_chars p a && all_chars p b.
Proof.
  induction a as [|c a IH]; simpl; [reflexivity|]. now rewrite IH, andb_assoc.
Qed.

Lemma all_chars_impl (p q : ascii -> bool) (s : string) :
  (forall c, p c = true -> q c = true) -> all_chars p s = true -> all_chars q s = true.
Proof.
  intros H. induction s as [|c s IH]; simpl; [reflexivity|].
  intros Hs. apply andb_true_iff in Hs as [Hc Hs]. now rewrite (H c Hc), IH.
Qed.

Lemma replace_char_slashes (s : string) :
  all_chars no_slash_char (replace_char "\" "_" (replace_char "/" "_" s)) = true.
Proof.
  unfold replace_char. induction s as [|c s IH]; simpl; [reflexivity|].
  rewrite IH, andb_true_r.
  destruct c as [[|] [|] [|] [|] [|] [|] [|] [|]]; vm_compute; reflexivity.
Qed.

Lemma replace_char_no_slash (s : string) :
  all_chars no_slash_char s = true ->
  replace_char "\" "_" (replace_char "/" "_" s) = s.
Proof.
  intros H. unfold replace_char.
  rewrite (map_chars_id _ no_slash_char s); [|
    intros c Hc; unfold no_slash_char in Hc; apply andb_true_iff in Hc as [Hc _];
    apply negb_true_iff in Hc; now rewrite Hc | exact H].
  apply (map_chars_id _ no_slash_char); [|exact H].
  intros c Hc. unfold no_slash_char in Hc. apply andb_true_iff in Hc as [_ Hc].
  apply negb_true_iff in Hc. now rewrite Hc.
Qed.

Lemma id_safe_no_slash (c : ascii) : id_safe_char c = true -> no_slash_char c = true.
Proof.
  unfold id_safe_char, no_slash_char. intros H.
  apply andb_true_iff in H as [H H3]. apply andb_true_iff in H as [_ H2].
  now rewrite H2, H3.
Qed.

(** The last underscore of an identifier separates the parent from a name
    that holds none. *)
Lemma last_underscore_inj (a b x y : string) :
  all_chars id_safe_char x = true -> all_chars id_safe_char y = true ->
  a ++ String "_" x = b ++ String "_" y -> a = b /\ x = y.
Proof.
  revert b. induction a as [|c a IH]; intros [|c' b] Hx Hy E; simpl in E.
  - now injection E as ->.
  - injection E as <- E. rewrite E, all_chars_app in Hx.
    apply andb_true_iff in Hx as [_ Hx]. simpl in Hx. discriminate.
  - injection E as -> E. rewrite <- E, all_chars_app in Hy.
    apply andb_true_iff in Hy as [_ Hy]. simpl in Hy. discriminate.
  - injection E as -> E. destruct (IH b Hx Hy E) as [-> ->]. auto.
Qed.

Lemma folder_id_of_clean (p n : string) :
  all_chars no_slash_char p = true -> clean_name n = true ->
  folder_id_of p n = (if String.eqb p "" then n else p ++ "_" ++ n)
  /\ all_chars no_slash_char (folder_id_of p n) = true
  /\ folder_id_of p n <> "".
Proof.
  intros Hp Hn. unfold clean_name in Hn. apply andb_true_iff in Hn as [Hne Hn].
  apply negb_true_iff, String.eqb_neq in Hne.
  assert (Hs : all_chars no_slash_char n = true)
    by (eapply all_chars_impl; [apply id_safe_no_slash | exact Hn]).
  assert (E : folder_id_of p n = (if String.eqb p "" then n else p ++ "_" ++ n)).
  { unfold folder_id_of. apply replace_char_no_slash.
    destruct (String.eqb p ""); [exact Hs|].
    rewrite all_chars_app, Hp. simpl. exact Hs. }
  split; [exact E|]. split; [apply replace_char_slashes|].
  rewrite E. destruct (String.eqb_spec p "") as [->|Hp']; [exact Hne|].
  destruct p; [contradiction | discriminate].
Qed.

(** One step of the identifier is injective on clean names. *)
Lemma folder_id_of_injective (p1 n1 p2 n2 : string) :
  all_chars no_slash_char p1 = true -> all_chars no_slash_char p2 = true ->
  clean_name n1 = true -> clean_name n2 = true ->
  folder_id_of p1 n1 = folder_id_of p2 n2 -> p1 = p2 /\ n1 = n2.
Proof.
  intros Hp1 Hp2 Hn1 Hn2.
  destruct (folder_id_of_clean p1 n1 Hp1 Hn1) as (-> & _ & _).
  destruct (folder_id_of_clean p2 n2 Hp2 Hn2) as (-> & _ & _).
  unfold clean_name in Hn1, Hn2.
  apply andb_true_iff in Hn1 as [_ Hn1]. apply andb_true_iff in Hn2 as [_ Hn2].
  destruct (String.eqb_spec p1 "") as [->|H1], (String.eqb_spec p2 "") as [->|H2].
  - auto.
  - intros E. rewrite E, all_chars_app in Hn1.
    apply andb_true_iff in Hn1 as [_ Hn1]. simpl in Hn1. discriminate.
  - intros E. rewrite <- E, all_chars_app in Hn2.
    apply andb_true_iff in Hn2 as [_ Hn2]. simpl in Hn2. discriminate.
  - intros E. now apply last_underscore_inj.
Qed.

Lemma chain_id_clean (chain : list string) :
  forallb clean_name chain = true ->
  all_chars no_slash_char (fold_left folder_id_of chain "") = true
  /\ (chain <> [] -> fold_left folder_id_of chain "" <> "").
Proof.
  induction chain as [|n chain IH] using rev_ind; intros H.
  - split; [reflexivity | congruence].
  - rewrite forallb_app in H. apply andb_true_iff in H as [Hc Hn].
    simpl in Hn. rewrite andb_true_r in Hn.
    rewrite fold_left_app. simpl.
    destruct (IH Hc) as [Hs _].
    destruct (folder_id_of_clean _ n Hs Hn) as (_ & H1 & H2). auto.
Qed.

(** Two chains of non-empty names free of underscore, slash and backslash
    fold to the same identifier only when they are the same chain. *)
Lemma chain_id_injective (chain1 chain2 : list string) :
  forallb clean_name chain1 = true -> forallb clean_name chain2 = true ->
  fold_left folder_id_of chain1 "" = fold_left folder_id_of chain2 "" ->
  chain1 = chain2.
Proof.
  revert chain2. induction chain1 as [|n1 c1 IH] using rev_ind; intros chain2 H1 H2 E.
  - destruct chain2 as [|x c2] using rev_ind; [reflexivity|].
    exfalso. clear IHc2. simpl in E.
    destruct (chain_id_clean _ H2) as [_ Hne]. apply Hne; [|auto].
    now destruct c2.
  - destruct chain2 as [|n2 c2 _] using rev_ind.
    + exfalso. simpl in E. destruct (chain_id_clean _ H1) as [_ Hne].
      apply Hne; [now destruct c1 | exact E].
    + rewrite forallb_app in H1, H2.
      apply andb_true_iff in H1 as [Hc1 Hn1]. apply andb_true_iff in H2 as [Hc2 Hn2].
      simpl in Hn1, Hn2. rewrite andb_true_r in Hn1, Hn2.
      rewrite !fold_left_app in E. simpl in E.
      apply folder_id_of_injective in E as [Ep ->]; auto;
        try (now apply chain_id_clean).
      f_equal. now apply IH.
Qed.

(** ** Rewrites leave other markup alone *)

Lemma contains_false_drop (needle hay : string) :
  contains needle hay = false -> forall k, startswith needle (drop k hay) = false.
Proof.
  induction hay as [|c hay IH]; intros H k.
  - simpl in H. apply orb_false_iff in H as [H _]. now destruct k.
  - cbn [contains] in H. apply orb_false_iff in H as [H1 H2].
    destruct k as [|k]; [exact H1 | apply IH, H2].
Qed.

Lemma sub_plain_no_match try_match (s : string) :
  (forall k, try_match (drop k s) = None) -> sub_plain try_match 0 s = s.
Proof.
  induction s as [|c s IH]; intros H; [reflexivity|].
  pose proof (H 0) as H0. cbn [drop] in H0.
  cbn [sub_plain]. rewrite H0. f_equal. apply IH. intros k. apply (H (S k)).
Qed.

Lemma sub_scan_no_match try_match (s : string) :
  (forall k, try_match (drop k s) = None) -> sub_scan try_match 0 s = Ok (s, []).
Proof.
  induction s as [|c s IH]; intros H; [reflexivity|].
  pose proof (H 0) as H0. cbn [drop] in H0.
  cbn [sub_scan]. rewrite H0, IH; [reflexivity|]. intros k. apply (H (S k)).
Qed.

Lemma match_link_prefix (s : string) :
  startswith ("<a href=" ++ dq) s = false -> match_link s = None.
Proof. unfold match_link. now intros ->. Qed.

Lemma match_heading_id_prefix (s : string) :
  startswith "<h" s = false -> match_heading_id s = None.
Proof.
  destruct s as [|a s]; [reflexivity|].
  destruct a as [[|] [|] [|] [|] [|] [|] [|] [|]]; try (intros _; reflexivity).
  destruct s as [|b s]; [reflexivity|].
  destruct b as [[|] [|] [|] [|] [|] [|] [|] [|]]; try (intros _; reflexivity).
  intros H. vm_compute in H. discriminate H.
Qed.

(** X10: a rendered text that holds no anchor with an [href], no heading and no
    table goes through link rewriting, id namespacing and table wrapping
    unchanged, and without a warning. *)
Theorem convert_markdown_to_html_plain
        cwd input_folder markdown_files md_convert (body : string) (i : nat) :
  let html := md_convert (normalize_code_fence_indentation body) in
  contains ("<a href=" ++ dq) html = false ->
  contains "<h" html = false ->
  contains "<table>" html = false ->
  contains "</table>" html = false ->
  convert_markdown_to_html cwd input_folder markdown_files md_convert body i
  = Ok (html, []).
Proof.
  intros html Ha Hh Ht Hc. unfold convert_markdown_to_html. fold html.
  unfold process_internal_links. rewrite sub_scan_no_match.
  2:{ intros k. unfold replace_link.
      now rewrite match_link_prefix by apply (contains_false_drop _ _ Ha). }
  simpl bind. unfold prefix_heading_ids, wrap_tables. simpl fst. simpl snd.
  rewrite (sub_plain_no_match (replace_id i)).
  2:{ intros k. unfold replace_id.
      now rewrite match_heading_id_prefix by apply (contains_false_drop _ _ Hh). }
  rewrite (sub_plain_no_match (literal "<table>" _)).
  2:{ intros k. unfold literal. now rewrite (contains_false_drop _ _ Ht). }
  rewrite sub_plain_no_match; [reflexivity|].
  intros k. unfold literal. now rewrite (contains_false_drop _ _ Hc).
Qed.

Lemma convert_markdown_to_html_plain_witness :
  convert_markdown_to_html sample_cwd docs [["index.md"]] sample_md "Welcome" 0
  = Ok ("<p>Welcome</p>", []).
Proof.
  apply (convert_markdown_to_html_plain sample_cwd docs [["index.md"]] sample_md
                                        "Welcome" 0); reflexivity.
Defined.

(** ** The table of contents follows the namespaced ids *)

Lemma span_stop (p : ascii -> bool) (u : string) (c : ascii) (r : string) :
  all_chars p u = true -> p c = false -> span p (u ++ String c r) = (u, String c r).
Proof.
  induction u as [|a u IH]; intros Hu Hc.
  - cbn [append span]. now rewrite Hc.
  - cbn [all_chars] in Hu. apply andb_true_iff in Hu as [Ha Hu].
    cbn [append span]. rewrite Ha, (IH Hu Hc). reflexivity.
Qed.

Lemma span_all (p : ascii -> bool) (u : string) :
  all_chars p u = true -> span p u = (u, "").
Proof.
  induction u as [|a u IH]; intros Hu; [reflexivity|].
  cbn [all_chars] in Hu. apply andb_true_iff in Hu as [Ha Hu].
  cbn [span]. now rewrite Ha, (IH Hu).
Qed.

Lemma length_app (a b : string) :
  String.length (a ++ b) = String.length a + String.length b.
Proof. induction a as [|c a IH]; [reflexivity|]. cbn [append String.length]. now rewrite IH. Qed.

Lemma app_assoc_string (a b c : string) : (a ++ b) ++ c = a ++ b ++ c.
Proof. induction a as [|x a IH]; [reflexivity|]. cbn [append]. now rewrite IH. Qed.

Lemma sub_plain_skip try_match (a b : string) :
  sub_plain try_match (String.length a) (a ++ b) = sub_plain try_match 0 b.
Proof.
  induction a as [|c a IH]; [reflexivity|]. exact IH.
Qed.

Lemma findall_scan_skip {A : Type} (try_match : string -> option (A * nat)) (a b : string) :
  findall_scan try_match (String.length a) (a ++ b) = findall_scan try_match 0 b.
Proof.
  induction a as [|c a IH]; [reflexivity|]. exact IH.
Qed.

Lemma sub_plain_match try_match (c : ascii) (a b r : string) :
  try_match (String c a ++ b) = Some (r, S (String.length a)) ->
  sub_plain try_match 0 (String c a ++ b) = r ++ sub_plain try_match 0 b.
Proof.
  intros H. cbn [append] in *. cbn [sub_plain]. rewrite H.
  cbn [Nat.sub]. rewrite Nat.sub_0_r. now rewrite sub_plain_skip.
Qed.

Lemma findall_scan_match {A : Type} (try_match : string -> option (A * nat))
      (c : ascii) (a b : string) (x : A) :
  try_match (String c a ++ b) = Some (x, S (String.length a)) ->
  findall_scan try_match 0 (String c a ++ b) = x :: findall_scan try_match 0 b.
Proof.
  intros H. cbn [append] in *. cbn [findall_scan]. rewrite H.
  cbn [Nat.sub]. rewrite Nat.sub_0_r. now rewrite findall_scan_skip.
Qed.

Lemma sub_plain_plain try_match (pre s : string) :
  (forall c t, Ascii.eqb c "<" = false -> try_match (String c t) = None) ->
  all_chars (is_not "<") pre = true ->
  sub_plain try_match 0 (pre ++ s) = pre ++ sub_plain try_match 0 s.
Proof.
  intros H. induction pre as [|c pre IH]; intros Hp; [reflexivity|].
  cbn [all_chars] in Hp. apply andb_true_iff in Hp as [Hc Hp].
  unfold is_not in Hc. apply negb_true_iff in Hc.
  cbn [append sub_plain]. rewrite (H _ _ Hc). now rewrite (IH Hp).
Qed.

Lemma findall_scan_plain {A : Type} (try_match : string -> option (A * nat))
      (pre s : string) :
  (forall c t, Ascii.eqb c "<" = false -> try_match (String c t) = None) ->
  all_chars (is_not "<") pre = true ->
  findall_scan try_match 0 (pre ++ s) = findall_scan try_match 0 s.
Proof.
  intros H. induction pre as [|c pre IH]; intros Hp; [reflexivity|].
  cbn [all_chars] in Hp. apply andb_true_iff in Hp as [Hc Hp].
  unfold is_not in Hc. apply negb_true_iff in Hc.
  cbn [append findall_scan]. rewrite (H _ _ Hc). now rewrite (IH Hp).
Qed.

Lemma append_empty_r (s : string) : s ++ "" = s.
Proof. induction s as [|c s IH]; [reflexivity|]. cbn [append]. now rewrite IH. Qed.

Lemma match_heading_id_lt (c : ascii) (t : string) :
  Ascii.eqb c "<" = false -> match_heading_id (String c t) = None.
Proof.
  intros H. by_bits c; try reflexivity. vm_compute in H. discriminate H.
Qed.

Lemma replace_id_lt (i : nat) (c : ascii) (t : string) :
  Ascii.eqb c "<" = false -> replace_id i (String c t) = None.
Proof. intros H. unfold replace_id. now rewrite match_heading_id_lt. Qed.

Lemma match_heading_lt (c : ascii) (t : string) :
  Ascii.eqb c "<" = false -> match_heading (String c t) = None.
Proof.
  intros H. by_bits c; try reflexivity. vm_compute in H. discriminate H.
Qed.

Lemma match_tag_lt (c : ascii) (t : string) :
  Ascii.eqb c "<" = false -> match_tag (String c t) = None.
Proof.
  intros H. by_bits c; try reflexivity. vm_compute in H. discriminate H.
Qed.

Lemma heading_element_form (d d' : ascii) (u text post : string) :
  heading_element d u text d' ++ post
  = String "<" (String "h" (String d (String " " (String "i" (String "d" (String "="
      (String dq_char (u ++ String dq_char (String ">"
         (text ++ String "<" (String "/" (String "h" (String d' (String ">" post)))))))))))))).
Proof.
  unfold heading_element, q, dq. fold dq_char. cbn [append].
  repeat (rewrite ?app_assoc_string; cbn [append]). reflexivity.
Qed.

Lemma startswith_app (p s : string) : startswith p (p ++ s) = true.
Proof.
  induction p as [|c p IH]; [reflexivity|].
  cbn [append startswith]. now rewrite Ascii.eqb_refl, IH.
Qed.

Lemma nonempty_eqb (u : string) : u <> "" -> (u =? "") = false.
Proof. intros H. now apply String.eqb_neq. Qed.

Lemma match_heading_id_element (d : ascii) (u rest : string) :
  is_level d = true -> u <> "" -> all_chars (is_not dq_char) u = true ->
  match_heading_id
    (String "<" (String "h" (String d (String " " (String "i" (String "d" (String "="
       (String dq_char (u ++ String dq_char rest)))))))))
  = Some (String "h" (String d ""), u, S (8 + String.length u)).
Proof.
  intros Hd Hu Hq. unfold is_level in Hd.
  cbn [match_heading_id]. rewrite Hd.
  set (r1 := String "i" (String "d" (String "=" (String dq_char (u ++ String dq_char rest))))).
  assert (Hs : span is_space (String " " r1) = (" ", r1))
    by (apply (span_stop is_space " " "i"); reflexivity).
  rewrite Hs.
  assert (Hp : startswith ("id=" ++ dq) r1 = true)
    by apply (startswith_app ("id=" ++ dq)).
  rewrite Hp. cbn [String.eqb negb andb]. 
  change (drop 4 r1) with (u ++ String dq_char rest).
  rewrite (span_stop (is_not dq_char) u dq_char rest Hq)
    by (unfold is_not; now rewrite Ascii.eqb_refl).
  rewrite (nonempty_eqb u Hu).
  change (startswith dq (String dq_char rest)) with (Ascii.eqb dq_char dq_char && true).
  rewrite Ascii.eqb_refl. cbn [negb andb String.length].
  replace (3 + 1 + 4 + String.length u + 1) with (S (8 + String.length u)) by lia. reflexivity.
Qed.

Lemma level_not_lt (d : ascii) : is_level d = true -> Ascii.eqb d "<" = false.
Proof. by_bits d; vm_compute; congruence. Qed.

Lemma level_not_dq (d : ascii) : is_level d = true -> Ascii.eqb d dq_char = false.
Proof. by_bits d; vm_compute; congruence. Qed.

Lemma sub_plain_closing_tag try_match (d' : ascii) (post : string) :
  (forall c t, Ascii.eqb c "<" = false -> try_match (String c t) = None) ->
  (forall t, try_match (String "<" (String "/" t)) = None) ->
  is_level d' = true -> all_chars (is_not "<") post = true ->
  sub_plain try_match 0 (String "<" (String "/" (String "h" (String d' (String ">" post)))))
  = String "<" (String "/" (String "h" (String d' (String ">" post)))).
Proof.
  intros Hlt Hclose Hd Hpost. cbn [sub_plain]. rewrite Hclose. f_equal.
  set (t := String "/" (String "h" (String d' (String ">" post)))).
  transitivity (sub_plain try_match 0 (t ++ "")); [now rewrite append_empty_r|].
  rewrite sub_plain_plain; [apply append_empty_r | exact Hlt |].
  unfold t. cbn [all_chars]. unfold is_not at 1 2 3 4.
  rewrite (level_not_lt d' Hd), Hpost. reflexivity.
Qed.

(** The namespacer rewrites the id of a heading element and nothing else. *)
Lemma prefix_heading_ids_element (pre post u text : string) (d d' : ascii) (i : nat) :
  is_level d = true -> is_level d' = true ->
  u <> "" -> all_chars (is_not dq_char) u = true ->
  all_chars (is_not "<") text = true ->
  all_chars (is_not "<") pre = true -> all_chars (is_not "<") post = true ->
  prefix_heading_ids (pre ++ heading_element d u text d' ++ post) i
  = pre ++ heading_element d (new_id i u) text d' ++ post.
Proof.
  intros Hd Hd' Hu Hq Htext Hpre Hpost. unfold prefix_heading_ids.
  rewrite sub_plain_plain by (try exact Hpre; apply replace_id_lt). f_equal.
  rewrite !heading_element_form.
  set (b := String ">" (text ++ String "<" (String "/" (String "h" (String d' (String ">" post)))))).
  set (a := String "h" (String d (String " " (String "i" (String "d" (String "="
              (String dq_char (u ++ String dq_char "")))))))).
  assert (Hform : String "<" (String "h" (String d (String " " (String "i" (String "d"
                    (String "=" (String dq_char (u ++ String dq_char b))))))))
                  = String "<" a ++ b).
  { unfold a. cbn [append]. now rewrite app_assoc_string. }
  rewrite Hform.
  rewrite (sub_plain_match (replace_id i) "<" a b
             ("<" ++ String "h" (String d "") ++ " id=" ++ q (new_id i u))).
  2:{ rewrite <- Hform. unfold replace_id.
      rewrite (match_heading_id_element d u b Hd Hu Hq). do 2 f_equal.
      unfold a. cbn [String.length]. rewrite length_app. cbn [String.length]. lia. }
  assert (Hb : sub_plain (replace_id i) 0 b = b).
  { unfold b.
    change (String ">" (text ++ ?x)) with (String ">" text ++ x).
    rewrite sub_plain_plain; [| apply replace_id_lt |].
    - f_equal. apply sub_plain_closing_tag; auto using replace_id_lt.
    - cbn [all_chars]. now rewrite Htext. }
  rewrite Hb. unfold q, dq. fold dq_char. cbn [append].
  repeat (rewrite ?app_assoc_string; cbn [append]). reflexivity.
Qed.

Lemma startswith_inv (p s : string) :
  startswith p s = true -> s = p ++ drop (String.length p) s.
Proof.
  revert s. induction p as [|a p IH]; intros s H; [now destruct s|].
  destruct s as [|b s]; [discriminate H|].
  cbn [startswith] in H. apply andb_true_iff in H as [Hab H].
  apply Ascii.eqb_eq in Hab. subst b.
  cbn [String.length drop append]. f_equal. apply IH, H.
Qed.

Lemma heading_from_id_first (c : ascii) (s : string) :
  Ascii.eqb "i" c = false -> heading_from_id (String c s) = None.
Proof.
  intros H. unfold heading_from_id, dq. cbn [append startswith]. now rewrite H.
Qed.

(** Without a second quotation mark no id is read. *)
Lemma heading_from_id_one_quote (a b : string) :
  all_chars (is_not dq_char) a = true -> all_chars (is_not dq_char) b = true ->
  heading_from_id (a ++ String dq_char b) = None.
Proof.
  intros Ha Hb. unfold heading_from_id.
  destruct (startswith ("id=" ++ dq) (a ++ String dq_char b)) eqn:E; [|reflexivity].
  apply startswith_inv in E. unfold dq in E. fold dq_char in E.
  cbn [append String.length] in E.
  destruct a as [|c1 [|c2 [|c3 [|c4 a]]]]; cbn [append drop] in E |- *.
  - exfalso. vm_compute in E. discriminate E.
  - exfalso. vm_compute in E. injection E as _ E. discriminate E.
  - exfalso. vm_compute in E. injection E as _ _ E. discriminate E.
  - rewrite (span_all _ _ Hb). reflexivity.
  - exfalso. injection E as _ _ _ E. cbn [all_chars] in Ha.
    rewrite E in Ha. unfold is_not in Ha. rewrite Ascii.eqb_refl in Ha.
    cbn [negb andb] in Ha. rewrite !andb_false_r in Ha. discriminate Ha.
Qed.

Lemma heading_from_id_no_quote (s : string) :
  all_chars (is_not dq_char) s = true -> heading_from_id s = None.
Proof.
  intros Hs. unfold heading_from_id.
  destruct (startswith ("id=" ++ dq) s) eqn:E; [|reflexivity].
  apply startswith_inv in E. rewrite E in Hs.
  unfold dq in Hs. fold dq_char in Hs. cbn [append all_chars] in Hs.
  unfold is_not at 4 in Hs. rewrite Ascii.eqb_refl in Hs.
  cbn [negb andb] in Hs. rewrite !andb_false_r in Hs. discriminate Hs.
Qed.

Lemma heading_attrs_no_quote (s : string) :
  all_chars (is_not dq_char) s = true -> heading_attrs s = None.
Proof.
  induction s as [|c s IH]; intros Hs; [reflexivity|].
  cbn [heading_attrs]. destruct (Ascii.eqb c ">"); [reflexivity|].
  pose proof Hs as Hs'. cbn [all_chars] in Hs'. apply andb_true_iff in Hs' as [_ Hs'].
  rewrite (IH Hs'). now apply heading_from_id_no_quote.
Qed.

Lemma heading_attrs_one_quote (a b : string) :
  all_chars (is_not dq_char) a = true -> all_chars (is_not dq_char) b = true ->
  heading_attrs (a ++ String dq_char b) = None.
Proof.
  intros Ha Hb. induction a as [|c a IH].
  - cbn [append heading_attrs]. destruct (Ascii.eqb dq_char ">"); [reflexivity|].
    rewrite (heading_attrs_no_quote b Hb).
    apply (heading_from_id_one_quote "" b); [reflexivity | exact Hb].
  - cbn [append heading_attrs]. destruct (Ascii.eqb c ">"); [reflexivity|].
    pose proof Ha as Ha'. cbn [all_chars] in Ha'. apply andb_true_iff in Ha' as [_ Ha'].
    rewrite (IH Ha'). apply (heading_from_id_one_quote (String c a) b Ha Hb).
Qed.

Lemma heading_text_step (c : ascii) (s : string) :
  Ascii.eqb c "<" = false ->
  heading_text (String c s)
  = if Ascii.eqb c nl_char then None
    else match heading_text s with
         | Some (t, n) => Some (String c t, S n)
         | None => None
         end.
Proof.
  intros H. by_bits c; try reflexivity. vm_compute in H. discriminate H.
Qed.

Lemma heading_text_element (text post : string) (d' : ascii) :
  is_level d' = true -> all_chars text_char text = true ->
  heading_text (text ++ String "<" (String "/" (String "h" (String d' (String ">" post)))))
  = Some (text, String.length text + 5).
Proof.
  intros Hd. unfold is_level in Hd. induction text as [|c text IH]; intros Ht.
  - cbn [append heading_text String.length]. now rewrite Hd.
  - cbn [all_chars] in Ht. apply andb_true_iff in Ht as [Hc Ht].
    unfold text_char in Hc. apply andb_true_iff in Hc as [Hc Hnl].
    apply andb_true_iff in Hc as [Hlt _].
    apply negb_true_iff in Hlt, Hnl.
    cbn [append]. rewrite (heading_text_step _ _ Hlt), Hnl, (IH Ht). reflexivity.
Qed.

Lemma heading_attrs_step (c : ascii) (s : string) :
  Ascii.eqb c ">" = false -> heading_attrs s = None ->
  heading_attrs (String c s) = heading_from_id (String c s).
Proof. intros Hc Hs. cbn [heading_attrs]. now rewrite Hc, Hs. Qed.

Lemma heading_attrs_more (c : ascii) (s i t : string) (n : nat) :
  Ascii.eqb c ">" = false -> heading_attrs s = Some (i, t, n) ->
  heading_attrs (String c s) = Some (i, t, S n).
Proof. intros Hc Hs. cbn [heading_attrs]. now rewrite Hc, Hs. Qed.

Lemma match_heading_element (d d' : ascii) (u text post : string) :
  is_level d = true -> is_level d' = true ->
  all_chars id_char u = true -> all_chars text_char text = true ->
  all_chars plain_char post = true ->
  match_heading
    (String "<" (String "h" (String d (String " " (String "i" (String "d" (String "="
      (String dq_char (u ++ String dq_char (String ">"
         (text ++ String "<" (String "/" (String "h" (String d' (String ">" post)))))))))))))))
  = Some ((String d "", u, text), 15 + String.length u + String.length text).
Proof.
  intros Hd Hd' Hu Ht Hp.
  assert (Huq : all_chars (is_not dq_char) u = true).
  { revert Hu. apply all_chars_impl. intros c H. unfold id_char in H.
    apply andb_true_iff in H as [H _]. now apply andb_true_iff in H as [H _]. }
  assert (Htq : all_chars (is_not dq_char) text = true).
  { revert Ht. apply all_chars_impl. intros c H. unfold text_char in H.
    apply andb_true_iff in H as [H _]. now apply andb_true_iff in H as [_ H]. }
  assert (Hpq : all_chars (is_not dq_char) post = true).
  { revert Hp. apply all_chars_impl. intros c H. unfold plain_char in H.
    now apply andb_true_iff in H as [_ H]. }
  set (T := text ++ String "<" (String "/" (String "h" (String d' (String ">" post))))).
  assert (HT : all_chars (is_not dq_char) (String ">" T) = true).
  { unfold T. cbn [all_chars]. rewrite all_chars_app, Htq. cbn [all_chars].
    rewrite Hpq. unfold is_not. rewrite (level_not_dq d' Hd'). reflexivity. }
  cbn [match_heading]. unfold is_level in Hd. rewrite Hd.
  set (R := u ++ String dq_char (String ">" T)).
  assert (H3 : heading_attrs (String dq_char R) = None).
  { rewrite heading_attrs_step; [now apply heading_from_id_first | reflexivity |].
    apply heading_attrs_one_quote; assumption. }
  assert (H2 : heading_attrs (String "=" (String dq_char R)) = None).
  { rewrite heading_attrs_step; [now apply heading_from_id_first | reflexivity | exact H3]. }
  assert (H1 : heading_attrs (String "d" (String "=" (String dq_char R))) = None).
  { rewrite heading_attrs_step; [now apply heading_from_id_first | reflexivity | exact H2]. }
  assert (H0 : heading_attrs (String "i" (String "d" (String "=" (String dq_char R))))
               = Some (u, text, 4 + String.length u + 1 + 0 + 1 + (String.length text + 5))).
  { rewrite heading_attrs_step; [| reflexivity | exact H1].
    unfold heading_from_id.
    change (String "i" (String "d" (String "=" (String dq_char R))))
      with (("id=" ++ dq) ++ R).
    rewrite (startswith_app ("id=" ++ dq) R).
    change (drop 4 (("id=" ++ dq) ++ R)) with R. unfold R.
    rewrite (span_stop (is_not dq_char) u dq_char _ Huq)
      by (unfold is_not; now rewrite Ascii.eqb_refl).
    change (startswith dq (String dq_char ?x)) with (Ascii.eqb dq_char dq_char && true).
    rewrite Ascii.eqb_refl. cbn [andb drop span]. unfold is_not at 1.
    rewrite Ascii.eqb_refl. cbn [negb].
    change (startswith ">" (String ">" T)) with (Ascii.eqb ">" ">" && true).
    rewrite Ascii.eqb_refl. cbn [andb drop].
    unfold T. rewrite (heading_text_element text post d' Hd' Ht). reflexivity. }
  rewrite (heading_attrs_more " " _ _ _ _ eq_refl H0). do 2 f_equal. lia.
Qed.

Lemma sub_plain_unmatched try_match (c : ascii) (s : string) :
  try_match (String c s) = None ->
  sub_plain try_match 0 (String c s) = String c (sub_plain try_match 0 s).
Proof. intros H. cbn [sub_plain]. now rewrite H. Qed.

Lemma sub_plain_heading_only try_match (pre X Y : string) :
  (forall c t, Ascii.eqb c "<" = false -> try_match (String c t) = None) ->
  (forall t, try_match (String "<" (String "h" t)) = None) ->
  (forall t, try_match (String "<" (String "/" (String "h" t))) = None) ->
  all_chars (is_not "<") pre = true -> all_chars (is_not "<") X = true ->
  all_chars (is_not "<") Y = true ->
  sub_plain try_match 0
    (pre ++ String "<" (String "h" (X ++ String "<" (String "/" (String "h" Y)))))
  = pre ++ String "<" (String "h" (X ++ String "<" (String "/" (String "h" Y)))).
Proof.
  intros Hlt Hopen Hclose Hpre HX HY.
  rewrite (sub_plain_plain _ _ _ Hlt Hpre). f_equal.
  rewrite (sub_plain_unmatched _ _ _ (Hopen _)). f_equal.
  change (String "h" (X ++ ?r)) with (String "h" X ++ r).
  rewrite (sub_plain_plain _ _ _ Hlt) by (cbn [all_chars]; now rewrite HX). f_equal.
  rewrite (sub_plain_unmatched _ _ _ (Hclose _)). f_equal.
  set (t := String "/" (String "h" Y)).
  transitivity (sub_plain try_match 0 (t ++ "")); [now rewrite append_empty_r|].
  rewrite (sub_plain_plain _ _ _ Hlt); [apply append_empty_r|].
  unfold t. cbn [all_chars]. rewrite HY. reflexivity.
Qed.

Lemma sub_scan_plain try_match (pre s s' : string) (w : list warning) :
  (forall c t, Ascii.eqb c "<" = false -> try_match (String c t) = None) ->
  all_chars (is_not "<") pre = true ->
  sub_scan try_match 0 s = Ok (s', w) ->
  sub_scan try_match 0 (pre ++ s) = Ok (pre ++ s', w).
Proof.
  intros H. induction pre as [|c pre IH]; intros Hp Hs; [exact Hs|].
  cbn [all_chars] in Hp. apply andb_true_iff in Hp as [Hc Hp].
  unfold is_not in Hc. apply negb_true_iff in Hc.
  cbn [append sub_scan]. rewrite (H _ _ Hc), (IH Hp Hs). reflexivity.
Qed.

Lemma sub_scan_unmatched try_match (c : ascii) (s s' : string) (w : list warning) :
  try_match (String c s) = None ->
  sub_scan try_match 0 s = Ok (s', w) ->
  sub_scan try_match 0 (String c s) = Ok (String c s', w).
Proof. intros H Hs. cbn [sub_scan]. now rewrite H, Hs. Qed.

Lemma sub_scan_heading_only try_match (pre X Y : string) :
  (forall c t, Ascii.eqb c "<" = false -> try_match (String c t) = None) ->
  (forall t, try_match (String "<" (String "h" t)) = None) ->
  (forall t, try_match (String "<" (String "/" (String "h" t))) = None) ->
  all_chars (is_not "<") pre = true -> all_chars (is_not "<") X = true ->
  all_chars (is_not "<") Y = true ->
  sub_scan try_match 0
    (pre ++ String "<" (String "h" (X ++ String "<" (String "/" (String "h" Y)))))
  = Ok (pre ++ String "<" (String "h" (X ++ String "<" (String "/" (String "h" Y)))), []).
Proof.
  intros Hlt Hopen Hclose Hpre HX HY.
  apply (sub_scan_plain _ _ _ _ _ Hlt Hpre).
  apply sub_scan_unmatched; [apply Hopen|].
  change (String "h" (X ++ ?r)) with (String "h" X ++ r).
  apply (sub_scan_plain _ _ _ _ _ Hlt); [cbn [all_chars]; now rewrite HX|].
  apply sub_scan_unmatched; [apply Hclose|].
  set (t := String "/" (String "h" Y)).
  rewrite <- (append_empty_r t).
  apply (sub_scan_plain _ _ _ _ _ Hlt); [|reflexivity].
  unfold t. cbn [all_chars]. now rewrite HY.
Qed.

Lemma startswith_lt (p t : string) (c : ascii) :
  Ascii.eqb c "<" = false -> startswith (String "<" p) (String c t) = false.
Proof. intros H. cbn [startswith]. now rewrite Ascii.eqb_sym, H. Qed.

Lemma replace_link_lt (i : nat) cwd input_folder markdown_files (c : ascii) (t : string) :
  Ascii.eqb c "<" = false ->
  replace_link cwd input_folder markdown_files i (String c t) = None.
Proof.
  intros H. unfold replace_link. rewrite match_link_prefix; [reflexivity|].
  now apply startswith_lt.
Qed.

Lemma literal_lt (p repl t : string) (c : ascii) :
  Ascii.eqb c "<" = false -> literal (String "<" p) repl (String c t) = None.
Proof. intros H. unfold literal. now rewrite startswith_lt. Qed.

Lemma heading_element_split (d d' : ascii) (u text post : string) :
  heading_element d u text d' ++ post
  = String "<" (String "h" (String d (" id=" ++ q u ++ ">" ++ text)
                            ++ String "<" (String "/" (String "h" (String d' (String ">" post)))))).
Proof.
  unfold heading_element, q, dq. cbn [append].
  repeat (rewrite ?app_assoc_string; cbn [append]). reflexivity.
Qed.

Lemma heading_element_length (d d' : ascii) (u text : string) :
  String.length (heading_element d u text d') = 15 + String.length u + String.length text.
Proof.
  unfold heading_element, q, dq. cbn [append String.length].
  rewrite !length_app. cbn [String.length]. rewrite !length_app. cbn [String.length]. lia.
Qed.

Lemma id_char_no_lt (u : string) :
  all_chars id_char u = true -> all_chars (is_not "<") u = true.
Proof.
  apply all_chars_impl. intros c H. unfold id_char in H.
  now apply andb_true_iff in H as [_ H].
Qed.

Lemma id_char_no_dq (u : string) :
  all_chars id_char u = true -> all_chars (is_not dq_char) u = true.
Proof.
  apply all_chars_impl. intros c H. unfold id_char in H.
  apply andb_true_iff in H as [H _]. now apply andb_true_iff in H as [H _].
Qed.

Lemma text_char_no_lt (t : string) :
  all_chars text_char t = true -> all_chars (is_not "<") t = true.
Proof.
  apply all_chars_impl. intros c H. unfold text_char in H.
  apply andb_true_iff in H as [H _]. now apply andb_true_iff in H as [H _].
Qed.

Lemma plain_char_no_lt (t : string) :
  all_chars plain_char t = true -> all_chars (is_not "<") t = true.
Proof.
  apply all_chars_impl. intros c H. unfold plain_char in H.
  now apply andb_true_iff in H as [H _].
Qed.

Lemma digit_id_char (c : ascii) : is_digit c = true -> id_char c = true.
Proof. by_bits c; vm_compute; congruence. Qed.

Lemma new_id_id_char (i : nat) (u : string) :
  all_chars id_char u = true -> all_chars id_char (new_id i u) = true.
Proof.
  intros Hu. unfold new_id. rewrite !all_chars_app, Hu.
  rewrite (all_chars_impl _ _ _ digit_id_char (of_nat_digits i)). reflexivity.
Qed.

Lemma new_id_nonempty (i : nat) (u : string) : new_id i u <> "".
Proof. unfold new_id. cbn [append]. discriminate. Qed.

Lemma heading_inside_plain (d : ascii) (u text : string) :
  is_level d = true -> all_chars id_char u = true -> all_chars text_char text = true ->
  all_chars (is_not "<") (String d (" id=" ++ q u ++ ">" ++ text)) = true.
Proof.
  intros Hd Hu Ht. unfold q, dq. cbn [append all_chars].
  rewrite !all_chars_app. cbn [all_chars].
  rewrite (id_char_no_lt u Hu), (text_char_no_lt text Ht).
  unfold is_not at 1. rewrite (level_not_lt d Hd). reflexivity.
Qed.

Lemma closing_inside_plain (d' : ascii) (post : string) :
  is_level d' = true -> all_chars plain_char post = true ->
  all_chars (is_not "<") (String d' (String ">" post)) = true.
Proof.
  intros Hd Hp. cbn [all_chars]. rewrite (plain_char_no_lt post Hp).
  unfold is_not at 1. rewrite (level_not_lt d' Hd). reflexivity.
Qed.

(** X11: a section whose rendering is text around one heading: the heading gets
    the id of its section, nothing else changes, no warning is raised, and
    the table of contents made from the section holds exactly one entry,
    whose target is that id and whose label is the stripped heading text. *)
Theorem toc_entry_targets_namespaced_heading
        cwd input_folder markdown_files md_convert (body : string) (i : nat)
        (pre post u text : string) (d d' : ascii) :
  md_convert (normalize_code_fence_indentation body)
  = pre ++ heading_element d u text d' ++ post ->
  is_level d = true -> is_level d' = true ->
  u <> "" -> all_chars id_char u = true ->
  all_chars text_char text = true -> strip text <> "" ->
  all_chars plain_char pre = true -> all_chars plain_char post = true ->
  let html := pre ++ heading_element d (new_id i u) text d' ++ post in
  convert_markdown_to_html cwd input_folder markdown_files md_convert body i
  = Ok (html, [])
  /\ generate_toc html
     = "<ul class=" ++ q "toc-list" ++ ">"
       ++ toc_entry d (new_id i u) (strip text) ++ "</ul>".
Proof.
  intros Hmd Hd Hd' Hu Hid Htext Hstrip Hpre Hpost html.
  pose proof (plain_char_no_lt pre Hpre) as Hpre'.
  pose proof (closing_inside_plain d' post Hd' Hpost) as HY.
  split.
  - unfold convert_markdown_to_html. rewrite Hmd.
    unfold process_internal_links.
    rewrite heading_element_split.
    rewrite sub_scan_heading_only;
      [ | apply replace_link_lt
        | intros t; unfold replace_link; now rewrite match_link_prefix
        | intros t; unfold replace_link; now rewrite match_link_prefix
        | exact Hpre' | now apply heading_inside_plain | exact HY ].
    cbn [bind fst snd]. rewrite <- heading_element_split.
    rewrite prefix_heading_ids_element;
      auto using id_char_no_dq, text_char_no_lt, plain_char_no_lt.
    fold html. unfold wrap_tables, html.
    rewrite heading_element_split.
    pose proof (heading_inside_plain d (new_id i u) text Hd (new_id_id_char i u Hid) Htext)
      as HX.
    rewrite sub_plain_heading_only;
      [ | intros c t; apply literal_lt | reflexivity | reflexivity | exact Hpre' | exact HX | exact HY ].
    rewrite sub_plain_heading_only;
      [ reflexivity | intros c t; apply literal_lt | reflexivity | reflexivity
        | exact Hpre' | exact HX | exact HY ].
  - unfold generate_toc, html.
    rewrite (findall_scan_plain _ _ _ match_heading_lt Hpre').
    set (U := new_id i u).
    set (a := drop 1 (heading_element d U text d')).
    change (heading_element d U text d') with (String "<" a).
    rewrite (findall_scan_match match_heading "<" a post (String d "", U, text)).
    2:{ change (String "<" a) with (heading_element d U text d').
        rewrite heading_element_form.
        rewrite (match_heading_element d d' U text post Hd Hd'
                   (new_id_id_char i u Hid) Htext Hpost).
        do 2 f_equal.
        pose proof (heading_element_length d d' U text) as Hlen.
        change (heading_element d U text d') with (String "<" a) in Hlen.
        cbn [String.length] in Hlen. lia. }
    rewrite <- (append_empty_r post).
    rewrite (findall_scan_plain _ _ _ match_heading_lt (plain_char_no_lt post Hpost)).
    cbn [findall_scan flat_map toc_item app].
    assert (Hclean : sub_plain match_tag 0 text = text).
    { rewrite <- (append_empty_r text) at 1.
      rewrite (sub_plain_plain _ _ _ match_tag_lt (text_char_no_lt text Htext)).
      apply append_empty_r. }
    rewrite Hclean, (nonempty_eqb _ Hstrip). cbn [negb].
    unfold toc_entry, join. cbn [String.concat]. reflexivity.
Qed.

Lemma toc_entry_targets_namespaced_heading_witness :
  convert_markdown_to_html sample_cwd docs [["index.md"]] heading_md "Setup" 3
  = Ok (heading_element "1" "section-3-setup" "Setup" "1", [])
  /\ generate_toc (heading_element "1" "section-3-setup" "Setup" "1")
     = "<ul class=" ++ q "toc-list" ++ ">"
       ++ toc_entry "1" "section-3-setup" "Setup" ++ "</ul>".
Proof.
  apply (toc_entry_targets_namespaced_heading
           sample_cwd docs [["index.md"]] heading_md "Setup" 3 "" "" "setup" "Setup" "1" "1");
    try reflexivity; discriminate.
Defined.

Lemma py_get_not_dict (v : yaml) (key : string) (default : yaml) :
  is_dict v = false -> py_get v key default = Raise AttributeError.
Proof. now destruct v. Qed.

Lemma py_get_dict (v : yaml) (key : string) (default : yaml) :
  is_dict v = true -> exists x, py_get v key default = Ok x.
Proof.
  destruct v as [| | | | |m]; try discriminate. intros _. cbn [py_get].
  destruct (find _ m) as [[k x]|]; eauto.
Qed.

(** Reading a setting from a section of the configuration. *)
Lemma py_get_setting (config : yaml) (section key : string) (default : yaml) :
  is_dict config = true ->
  if section_is_dict config section
  then exists x, (s <- py_get config section (YMap []) ;; py_get s key default) = Ok x
  else (s <- py_get config section (YMap []) ;; py_get s key default) = Raise AttributeError.
Proof.
  destruct config as [| | | | |m]; try discriminate. intros _.
  cbn [section_is_dict py_get].
  destruct (find _ m) as [[k x]|]; cbn [bind].
  - destruct (is_dict x) eqn:E; [now apply py_get_dict | now apply py_get_not_dict].
  - now apply py_get_dict.
Qed.

(** X12: the constructor goes through exactly when the loaded configuration is a
    dict whose [features] entry, and whose [chat] entry unless a chat flag
    was given on the command line, is a dict or absent; otherwise it raises
    [AttributeError].  A chat flag decides [enable_chat] whatever the
    configuration says. *)
Theorem constructor_outcome (cli_enable_chat : option bool) (user packaged : config_file) :
  let config := load_config user packaged in
  if is_dict config && section_is_dict config "features"
     && match cli_enable_chat with
        | Some _ => true
        | None => section_is_dict config "chat"
        end
  then exists s, __init__ cli_enable_chat user packaged = Ok s
                 /\ forall b, cli_enable_chat = Some b -> enable_chat s = YBool b
  else __init__ cli_enable_chat user packaged = Raise AttributeError.
Proof.
  intros config. unfold __init__. fold config.
  destruct (is_dict config) eqn:Hd; cbn [andb].
  2:{ rewrite !(py_get_not_dict config) by exact Hd.
      destruct cli_enable_chat; reflexivity. }
  pose proof (py_get_setting config "features" "show_file_titles" (YBool true) Hd) as H1.
  pose proof (py_get_setting config "features" "show_frontmatter" (YBool true) Hd) as H2.
  pose proof (py_get_setting config "features" "enable_datatables" (YBool false) Hd) as H3.
  pose proof (py_get_setting config "chat" "enabled" (YBool true) Hd) as H0.
  destruct (py_get config "features" (YMap [])) as [features|e] eqn:Hf.
  2:{ destruct (py_get_dict config "features" (YMap []) Hd) as [x Hx]. congruence. }
  cbn [bind] in H1, H2, H3.
  destruct (section_is_dict config "features"); cbn [andb].
  - destruct H1 as [x1 H1], H2 as [x2 H2], H3 as [x3 H3].
    destruct cli_enable_chat as [b|].
    + cbn [bind]. rewrite H1, H2, H3. cbn [bind]. eexists. split; [reflexivity|].
      intros b' Hb. now injection Hb as <-.
    + destruct (section_is_dict config "chat").
      * destruct H0 as [x0 H0]. rewrite H0. cbn [bind]. rewrite H1, H2, H3. cbn [bind].
        eexists. split; [reflexivity | discriminate].
      * now rewrite H0.
  - destruct cli_enable_chat as [b|].
    + cbn [bind]. now rewrite H1.
    + destruct (py_get config "chat" (YMap [])) as [section|e]; cbn [bind] in H0 |- *.
      * destruct (py_get section "enabled" (YBool true)) as [x|e]; cbn [bind].
        -- now rewrite H1.
        -- destruct (section_is_dict config "chat").
           ++ destruct H0 as [? H0]. discriminate H0.
           ++ now injection H0 as ->.
      * destruct (section_is_dict config "chat").
        ++ destruct H0 as [? H0]. discriminate H0.
        ++ now injection H0 as ->.
Qed.

(** ** Theme families *)

Lemma take_app (a b : string) : take (String.length a) (a ++ b) = a.
Proof. induction a as [|c a IH]; [now destruct b|]. cbn [String.length append take]. now rewrite IH. Qed.

Lemma drop_app (a b : string) : drop (String.length a) (a ++ b) = b.
Proof. induction a as [|c a IH]; [reflexivity|]. exact IH. Qed.

Lemma take_drop (k : nat) (s : string) : take k s ++ drop k s = s.
Proof.
  revert s. induction k as [|k IH]; intros s; [reflexivity|].
  destruct s as [|c s]; [reflexivity|]. cbn [take drop append]. now rewrite IH.
Qed.

Lemma rfind_app (c : ascii) (f t : string) :
  rfind c t = None -> rfind c (f ++ String c t) = Some (String.length f).
Proof.
  intros Ht. induction f as [|d f IH].
  - cbn [append rfind String.length]. now rewrite Ht, Ascii.eqb_refl.
  - cbn [append rfind String.length]. now rewrite IH.
Qed.

Lemma family_base_light (f : string) : family_base (f ++ "_light") = f.
Proof. unfold family_base. rewrite rfind_app by reflexivity. apply take_app. Qed.

Lemma family_base_dark (f : string) : family_base (f ++ "_dark") = f.
Proof. unfold family_base. rewrite rfind_app by reflexivity. apply take_app. Qed.

Lemma endswith_iff (p s : string) :
  endswith p s = true <-> exists f, s = f ++ p.
Proof.
  unfold endswith. split.
  - intros H. apply andb_true_iff in H as [_ H]. apply String.eqb_eq in H.
    exists (take (String.length s - String.length p) s).
    transitivity (take (String.length s - String.length p) s
                  ++ drop (String.length s - String.length p) s);
      [symmetry; apply take_drop | now rewrite H].
  - intros [f ->]. rewrite length_app. apply andb_true_iff. split.
    + apply Nat.leb_le. lia.
    + replace (String.length f + String.length p - String.length p)
        with (String.length f) by lia.
      rewrite drop_app. apply String.eqb_refl.
Qed.

Lemma contains_suffix (needle a b : string) :
  startswith needle b = true -> contains needle (a ++ b) = true.
Proof.
  intros H. induction a as [|c a IH].
  - destruct b; cbn [append contains]; now rewrite H.
  - cbn [append contains]. rewrite IH. apply orb_true_r.
Qed.

(** The names that put a family into the result. *)
Lemma family_of_name (n f : string) :
  n = f ++ "_light" \/ n = f ++ "_dark" <->
  contains "_" n && (endswith "_light" n || endswith "_dark" n) = true
  /\ f = family_base n.
Proof.
  split.
  - intros [-> | ->].
    + rewrite family_base_light, contains_suffix by reflexivity.
      rewrite (proj2 (endswith_iff "_light" (f ++ "_light"))) by eauto. now split.
    + rewrite family_base_dark, contains_suffix by reflexivity.
      rewrite (proj2 (endswith_iff "_dark" (f ++ "_dark"))) by eauto.
      rewrite orb_true_r. now split.
  - intros [H ->]. apply andb_true_iff in H as [_ H]. apply orb_true_iff in H as [H|H];
      apply endswith_iff in H as [f0 ->].
    + left. now rewrite family_base_light.
    + right. now rewrite family_base_dark.
Qed.

Lemma existsb_key (fb : string) (families : list (string * string)) :
  existsb (fun kv => String.eqb (fst kv) fb) families = true
  <-> In fb (map fst families).
Proof.
  rewrite existsb_exists, in_map_iff. split.
  - intros [kv [Hin H]]. apply String.eqb_eq in H. eauto.
  - intros [kv [H Hin]]. exists kv. split; [exact Hin|]. now apply String.eqb_eq.
Qed.

Lemma add_families_spec (names : list string) :
  forall families, named families ->
  exists families',
    add_families families (map YStr names) = Ok families'
    /\ named families'
    /\ forall f, In f (map fst families') <->
                 In f (map fst families)
                 \/ In (f ++ "_light") names \/ In (f ++ "_dark") names.
Proof.
  induction names as [|n names IH]; intros families Hn.
  - exists families. split; [reflexivity|]. split; [exact Hn|]. intros f. simpl. tauto.
  - cbn [map add_families add_family].
    pose proof (family_of_name n) as Hname.
    destruct (contains "_" n && (endswith "_light" n || endswith "_dark" n)) eqn:Hc.
    + destruct (existsb (fun kv => String.eqb (fst kv) (family_base n)) families) eqn:He.
      * cbn [bind]. destruct (IH families Hn) as [r [Hr [Hnamed Hkeys]]].
        exists r. split; [exact Hr|]. split; [exact Hnamed|].
        intros f. rewrite Hkeys. apply existsb_key in He. simpl.
        split; [tauto|]. intros [H|[[H|H]|[H|H]]]; try tauto.
        -- left. assert (Hf : f = family_base n) by (apply Hname; auto).
           now rewrite Hf.
        -- left. assert (Hf : f = family_base n) by (apply Hname; auto).
           now rewrite Hf.
      * cbn [bind].
        assert (Hnot : ~ In (family_base n) (map fst families)).
        { intros H. apply existsb_key in H. congruence. }
        destruct Hn as [Hnd Hval].
        destruct (IH (families ++ [(family_base n,
                                    title (replace_char "_" " " (family_base n)))])%list)
          as [r [Hr [Hnamed Hkeys]]].
        { split.
          - rewrite map_app. cbn [map fst].
            apply NoDup_app; [exact Hnd | repeat constructor; auto | ].
            intros x Hx [<-|[]]. contradiction.
          - intros f dn H. apply in_app_iff in H as [H|[H|[]]]; [now apply Hval|].
            now injection H as <- <-. }
        exists r. split; [exact Hr|]. split; [exact Hnamed|].
        intros f. rewrite Hkeys, map_app, in_app_iff. cbn [map fst]. simpl.
        split.
        -- intros [[H|[H|[]]]|H]; [tauto | | tauto].
           subst f. destruct (proj2 (Hname (family_base n)) (conj eq_refl eq_refl)) as [E|E];
             rewrite <- E; tauto.
        -- intros [H|[[H|H]|[H|H]]]; try tauto.
           ++ left. right. left. symmetry. apply Hname; auto.
           ++ left. right. left. symmetry. apply Hname; auto.
    + cbn [bind]. destruct (IH families Hn) as [r [Hr [Hnamed Hkeys]]].
      exists r. split; [exact Hr|]. split; [exact Hnamed|].
      intros f. rewrite Hkeys. simpl. split; [tauto|].
      intros [H|[[H|H]|[H|H]]]; try tauto.
      * destruct (proj1 (Hname f) (or_introl H)) as [E _]. discriminate E.
      * destruct (proj1 (Hname f) (or_intror H)) as [E _]. discriminate E.
Qed.

Lemma py_in_names (key : string) (m : list (yaml * yaml)) (names : list string) :
  map fst m = map YStr names ->
  py_in key (YMap m) = Ok (existsb (fun n => String.eqb n key) names).
Proof.
  intros H. cbn [py_in]. f_equal.
  transitivity (existsb (fun k => key_eqb k (YStr key)) (map fst m)).
  - clear H. induction m as [|kv m IH]; [reflexivity|]. cbn [existsb map]. now rewrite IH.
  - rewrite H. clear H. induction names as [|n names IH]; [reflexivity|].
    cbn [existsb map key_eqb]. now rewrite IH.
Qed.

Lemma existsb_name (key : string) (names : list string) :
  existsb (fun n => String.eqb n key) names = true <-> In key names.
Proof.
  rewrite existsb_exists. split.
  - intros [n [Hin H]]. apply String.eqb_eq in H. now subst.
  - intros H. exists key. split; [exact H | apply String.eqb_refl].
Qed.

Lemma sorted_distinct_strict {A : Type} (key : A -> string) (l : list A) :
  StronglySorted (key_le key) l -> NoDup (map key l) -> StronglySorted (key_lt key) l.
Proof.
  induction 1 as [|a l Hs IH Ha]; intros Hnd; [constructor|].
  inversion Hnd as [|? ? Hnotin Hnd']; subst.
  constructor; [now apply IH|].
  rewrite Forall_forall in *. intros y Hy. specialize (Ha y Hy).
  unfold key_le in Ha. unfold key_lt.
  destruct (String.ltb (key a) (key y)) eqn:E; [reflexivity|].
  exfalso. apply Hnotin. rewrite (ltb_connected _ _ E Ha). now apply in_map.
Qed.

(** X13: for a [themes] dict with string keys: the families come sorted by key
    without repetition; a family is listed exactly when a theme is named
    after it with the suffix [_light] or [_dark], and the family [default]
    also when a theme [light] or [dark] exists; every family is displayed
    under its key with underscores turned into spaces, in title case. *)
Theorem get_theme_families_spec (config : yaml) (m : list (yaml * yaml))
        (names : list string) :
  py_get config "themes" (YMap []) = Ok (YMap m) ->
  map fst m = map YStr names ->
  exists families,
    get_theme_families config = Ok families
    /\ StronglySorted (key_lt fst) families
    /\ forall f dn,
         In (f, dn) families <->
         dn = title (replace_char "_" " " f)
         /\ ((f = "default" /\ (In "light" names \/ In "dark" names))
             \/ In (f ++ "_light") names \/ In (f ++ "_dark") names).
Proof.
  intros Hthemes Hkeys. unfold get_theme_families. rewrite Hthemes. cbn [bind].
  rewrite (py_in_names "light" m names Hkeys), (py_in_names "dark" m names Hkeys).
  cbn [bind].
  set (light := existsb (fun n => String.eqb n "light") names).
  set (dark := existsb (fun n => String.eqb n "dark") names).
  assert (Hld : (if light then Ok true else Ok dark) = Ok (light || dark))
    by now destruct light.
  rewrite Hld. cbn [bind py_keys]. rewrite Hkeys.
  set (start := if light || dark then [("default", "Default")] else []).
  assert (Hstart : named start).
  { unfold start. destruct (light || dark); split; simpl.
    - repeat constructor. intros [].
    - intros f dn [H|[]]. now injection H as <- <-.
    - constructor.
    - intros f dn []. }
  assert (Hdefault : forall f, In f (map fst start)
                               <-> f = "default" /\ (In "light" names \/ In "dark" names)).
  { intros f. unfold start.
    destruct (light || dark) eqn:E.
    - apply orb_true_iff in E. unfold light, dark in E. rewrite !existsb_name in E.
      simpl. split; [intros [<-|[]]; auto | intros [-> _]; auto].
    - apply orb_false_iff in E as [E1 E2]. simpl. split; [intros []|].
      intros [_ [H|H]]; apply existsb_name in H.
      + unfold light in E1. congruence.
      + unfold dark in E2. congruence. }
  destruct (add_families_spec names start Hstart) as [r [Hr [[Hnd Hval] Hin]]].
  rewrite Hr. cbn [bind]. eexists. split; [reflexivity|].
  pose proof (sort_by_perm fst r) as Hperm.
  split.
  - apply sorted_distinct_strict; [apply sort_by_sorted|].
    eapply Permutation_NoDup; [|exact Hnd].
    apply Permutation_map, Permutation_sym, Hperm.
  - intros f dn. split.
    + intros H. apply (Permutation_in _ Hperm) in H.
      split; [now apply Hval|].
      assert (Hf : In f (map fst r)) by (apply in_map_iff; exists (f, dn); auto).
      apply Hin in Hf. rewrite Hdefault in Hf. tauto.
    + intros [-> H].
      assert (Hf : In f (map fst r)) by (apply Hin; rewrite Hdefault; tauto).
      apply in_map_iff in Hf as [[f' dn'] [Ef Hf]]. cbn [fst] in Ef. subst f'.
      apply (Permutation_in _ (Permutation_sym Hperm)).
      now rewrite <- (Hval _ _ Hf).
Qed.

Lemma get_theme_families_witness :
  exists families,
    get_theme_families themed_config = Ok families
    /\ StronglySorted (key_lt fst) families
    /\ forall f dn,
         In (f, dn) families <->
         dn = title (replace_char "_" " " f)
         /\ ((f = "default"
              /\ (In "light" ["rose_pine_dark"; "light"; "nord_light"; "rose_pine_light"; "dark"]
                  \/ In "dark" ["rose_pine_dark"; "light"; "nord_light"; "rose_pine_light"; "dark"]))
             \/ In (f ++ "_light")
                   ["rose_pine_dark"; "light"; "nord_light"; "rose_pine_light"; "dark"]
             \/ In (f ++ "_dark")
                   ["rose_pine_dark"; "light"; "nord_light"; "rose_pine_light"; "dark"]).
Proof.
  apply (get_theme_families_spec
           themed_config
           [(YStr "rose_pine_dark", YMap []); (YStr "light", YMap []);
            (YStr "nord_light", YMap []); (YStr "rose_pine_light", YMap []);
            (YStr "dark", YMap [])]
           ["rose_pine_dark"; "light"; "nord_light"; "rose_pine_light"; "dark"]);
    reflexivity.
Defined.

(** ** Links between documents, for a run inside the input folder *)

Lemma split_on_join (c : ascii) (l : list string) :
  l <> [] -> forallb (all_chars (is_not c)) l = true ->
  split_on c (join (String c "") l) = l.
Proof.
  induction l as [|x rest IH]; [contradiction|].
  intros _ H. cbn [forallb] in H. apply andb_true_iff in H as [Hx Hrest].
  destruct rest as [|y rest].
  - cbn. now apply split_on_plain.
  - rewrite join_cons by discriminate. cbn [append].
    rewrite split_on_app by exact Hx.
    f_equal. apply IH; [discriminate | exact Hrest].
Qed.

Lemma link_component_no_slash (c : string) :
  link_component c = true -> all_chars (is_not "/") c = true.
Proof.
  unfold link_component. intros H. apply andb_true_iff in H as [_ H].
  revert H. apply all_chars_impl. intros a Ha. unfold no_slash_char in Ha.
  now apply andb_true_iff in Ha as [Ha _].
Qed.

Lemma link_component_no_backslash (c : string) :
  link_component c = true -> all_chars (is_not "\") c = true.
Proof.
  unfold link_component. intros H. apply andb_true_iff in H as [_ H].
  revert H. apply all_chars_impl. intros a Ha. unfold no_slash_char in Ha.
  now apply andb_true_iff in Ha as [_ Ha].
Qed.

Lemma component_link (c : string) : component c = true -> link_component c = true.
Proof. unfold component. intros H. now apply andb_true_iff in H as [H _]. Qed.

Lemma components_link (l : list string) :
  forallb component l = true -> forallb link_component l = true.
Proof.
  rewrite !forallb_forall. intros H x Hx. apply component_link, H, Hx.
Qed.

Lemma forallb_impl {A : Type} (p q : A -> bool) (l : list A) :
  (forall x, p x = true -> q x = true) -> forallb p l = true -> forallb q l = true.
Proof. rewrite !forallb_forall. auto. Qed.

(** A link made of components starts neither at a root nor with [./]. *)
Lemma join_first_char (x : string) (rest : list string) (p : string) :
  (forall t, startswith p (x ++ t) = false) ->
  startswith p (join "/" (x :: rest)) = false.
Proof.
  intros H. destruct rest as [|y rest].
  - cbn. rewrite <- (append_empty_r x). apply H.
  - rewrite join_cons by discriminate. apply H.
Qed.

Lemma link_component_not_rooted (x t : string) :
  link_component x = true -> startswith "/" (x ++ t) = false.
Proof.
  unfold link_component. intros H. apply andb_true_iff in H as [H Hs].
  apply andb_true_iff in H as [He _].
  destruct x as [|a x]; [discriminate He|].
  cbn [all_chars] in Hs. apply andb_true_iff in Hs as [Ha _].
  unfold no_slash_char in Ha. apply andb_true_iff in Ha as [Ha _].
  apply negb_true_iff in Ha. cbn [append startswith].
  now rewrite Ascii.eqb_sym, Ha.
Qed.

Lemma link_component_not_dot_slash (x t : string) :
  link_component x = true -> startswith "./" (x ++ t) = false.
Proof.
  unfold link_component. intros H. apply andb_true_iff in H as [H Hs].
  apply andb_true_iff in H as [He Hd].
  destruct x as [|a x]; [discriminate He|].
  cbn [append startswith]. destruct (Ascii.eqb "." a) eqn:Ea; [|reflexivity].
  apply Ascii.eqb_eq in Ea. subst a.
  destruct x as [|b x]; [discriminate Hd|].
  cbn [all_chars] in Hs. apply andb_true_iff in Hs as [_ Hs].
  apply andb_true_iff in Hs as [Hb _].
  unfold no_slash_char in Hb. apply andb_true_iff in Hb as [Hb _].
  apply negb_true_iff in Hb. cbn [append startswith andb].
  now rewrite Ascii.eqb_sym, Hb.
Qed.

Lemma parse_join (l : list string) :
  l <> [] -> forallb link_component l = true ->
  parse (join "/" l) = mkPath "" l.
Proof.
  intros Hne Hl. unfold parse.
  destruct l as [|x rest]; [contradiction|].
  pose proof Hl as Hx. cbn [forallb] in Hx. apply andb_true_iff in Hx as [Hx _].
  assert (Hroot : startswith "/" (join "/" (x :: rest)) = false)
    by (apply join_first_char; intros t; now apply link_component_not_rooted).
  assert (Hroot2 : startswith "//" (join "/" (x :: rest)) = false).
  { destruct (join "/" (x :: rest)) as [|a s]; [reflexivity|].
    cbn [startswith] in Hroot |- *. apply andb_false_iff in Hroot as [-> | H];
      [reflexivity | discriminate H]. }
  rewrite Hroot, Hroot2. cbn [andb]. f_equal.
  change "/" with (String "/" "") at 1.
  rewrite split_on_join;
    [| discriminate
     | revert Hl; apply forallb_impl; apply link_component_no_slash].
  apply forallb_filter_id. revert Hl. apply forallb_impl.
  intros c Hc. unfold link_component in Hc.
  apply andb_true_iff in Hc as [Hc _]. apply andb_true_iff in Hc as [H1 H2].
  apply negb_true_iff in H1, H2. now rewrite H1, H2.
Qed.

Lemma collapse_push (l t walked_rev : list string) :
  forallb component l = true ->
  collapse walked_rev (l ++ t) = collapse (rev l ++ walked_rev) t.
Proof.
  revert walked_rev. induction l as [|c l IH]; intros w H; [reflexivity|].
  cbn [forallb] in H. apply andb_true_iff in H as [Hc Hl].
  unfold component in Hc. apply andb_true_iff in Hc as [_ Hc].
  apply negb_true_iff in Hc.
  cbn [app collapse rev]. rewrite Hc, (IH _ Hl), <- app_assoc. reflexivity.
Qed.

Lemma collapse_pop (k : nat) (t walked_rev : list string) :
  collapse walked_rev (repeat ".." k ++ t) = collapse (skipn k walked_rev) t.
Proof.
  revert walked_rev. induction k as [|k IH]; intros w; [reflexivity|].
  cbn [repeat app collapse]. rewrite String.eqb_refl, IH.
  destruct w; [now rewrite skipn_nil | reflexivity].
Qed.

(** From the folder [dir] of the input folder, [up] steps up and then down
    [rest]. *)
Lemma collapse_link (cwd dir rest : list string) (up : nat) :
  forallb component dir = true -> forallb component rest = true ->
  up <= List.length dir ->
  collapse (rev cwd) (dir ++ repeat ".." up ++ rest)
  = (cwd ++ firstn (List.length dir - up) dir ++ rest)%list.
Proof.
  intros Hdir Hrest Hup.
  rewrite (collapse_push dir _ _ Hdir), collapse_pop.
  rewrite skipn_app, length_rev.
  replace (up - List.length dir) with 0 by lia. cbn [skipn].
  rewrite <- (app_nil_r rest) at 1. rewrite (collapse_push rest _ _ Hrest).
  cbn [collapse]. rewrite !rev_app_distr, !rev_involutive, skipn_rev, rev_involutive.
  now rewrite <- app_assoc.
Qed.

Lemma is_prefix_app (a b : list string) : is_prefix a (a ++ b) = true.
Proof. induction a as [|x a IH]; [reflexivity|]. cbn. now rewrite String.eqb_refl. Qed.

Lemma skipn_length_app {A : Type} (a b : list A) : skipn (List.length a) (a ++ b) = b.
Proof. induction a as [|x a IH]; [reflexivity | exact IH]. Qed.

Lemma all_chars_join (p : ascii -> bool) (sep : string) (l : list string) :
  all_chars p sep = true -> forallb (all_chars p) l = true ->
  all_chars p (join sep l) = true.
Proof.
  intros Hsep. induction l as [|x rest IH]; [reflexivity|].
  intros H. cbn [forallb] in H. apply andb_true_iff in H as [Hx Hrest].
  destruct rest as [|y rest]; [exact Hx|].
  rewrite join_cons by discriminate. rewrite !all_chars_app, Hx, Hsep. now apply IH.
Qed.

Lemma unbackslash_components (l : list string) :
  forallb link_component l = true -> unbackslash (join "/" l) = join "/" l.
Proof.
  intros H. unfold unbackslash, replace_char.
  apply (map_chars_id _ (is_not "\")).
  - intros c Hc. unfold is_not in Hc. apply negb_true_iff in Hc. now rewrite Hc.
  - apply all_chars_join; [reflexivity|].
    revert H. apply forallb_impl, link_component_no_backslash.
Qed.

(** The path string of a document names its components. *)
Lemma path_string_injective (f g : list string) :
  forallb component f = true -> forallb component g = true -> g <> [] ->
  unbackslash (str (rel_path f)) = unbackslash (str (rel_path g)) -> f = g.
Proof.
  intros Hf Hg Hne H. apply components_link in Hf, Hg.
  assert (Hsplit : forall l, l <> [] -> forallb link_component l = true ->
                             split_on "/" (join "/" l) = l).
  { intros l Hl Hc. change "/"%string with (String "/" "").
    apply split_on_join; [exact Hl|].
    revert Hc. apply forallb_impl, link_component_no_slash. }
  assert (Hg' : unbackslash (str (rel_path g)) = join "/" g).
  { destruct g as [|y g]; [contradiction|]. unfold str, rel_path. cbn [parts root append].
    now apply unbackslash_components. }
  rewrite Hg' in H. destruct f as [|x f].
  - exfalso. cbn in H. 
    assert (E : split_on "/" (join "/" g) = ["."]) by now rewrite <- H.
    rewrite (Hsplit g Hne Hg) in E. subst g. discriminate Hg.
  - unfold str, rel_path in H. cbn [parts root append] in H.
    rewrite (unbackslash_components _ Hf) in H.
    rewrite <- (Hsplit (x :: f)) by (discriminate || exact Hf).
    rewrite H. now apply Hsplit.
Qed.

Lemma first_index_first {A : Type} (p : A -> bool) (x : A) (l : list A) :
  (forall y, In y l -> p y = true -> y = x) -> NoDup l -> p x = true ->
  forall j start, nth_error l j = Some x -> first_index p start l = Some (start + j).
Proof.
  intros Hp Hnd Hx. induction l as [|y l IH]; intros j start Hj.
  - now destruct j.
  - cbn [first_index]. destruct j as [|j].
    + injection Hj as ->. rewrite Hx. f_equal. lia.
    + cbn [nth_error] in Hj. destruct (p y) eqn:E.
      * assert (y = x) by (apply Hp; [now left | exact E]). subst y.
        inversion Hnd as [|? ? Hnotin _]; subst.
        exfalso. apply Hnotin. eapply nth_error_In, Hj.
      * rewrite (IH (fun z Hz => Hp z (or_intror Hz))) with (j := j);
          [f_equal; lia | now inversion Hnd | exact Hj].
Qed.

(** X14: when the process runs in the input folder, a relative link made of [up]
    steps to the parent folder followed by the components [rest] resolves to
    the document that stands at that place of the input folder. *)
Theorem link_resolves_inside_input_folder
        (cwd : list string) (input_folder : Path) (markdown_files : list RelPath)
        (i j up : nat) (dir rest : list string) (file_name : string) :
  resolve cwd input_folder = mkPath "/" cwd ->
  forallb (forallb component) markdown_files = true ->
  NoDup markdown_files ->
  nth_error markdown_files i = Some (dir ++ [file_name])%list ->
  up <= List.length dir ->
  rest <> [] -> forallb component rest = true ->
  nth_error markdown_files j = Some (firstn (List.length dir - up) dir ++ rest)%list ->
  find_file_index_by_path cwd input_folder markdown_files
                          (join "/" (repeat ".." up ++ rest)) i
  = Ok (Some j).
Proof.
  intros Hcwd Hfiles Hnd Hi Hup Hrest Hcomp Hj.
  unfold find_file_index_by_path. rewrite Hi, Hcwd.
  assert (Hdir : forallb component dir = true).
  { rewrite forallb_forall in Hfiles. apply nth_error_In in Hi.
    specialize (Hfiles _ Hi). rewrite forallb_app in Hfiles.
    now apply andb_true_iff in Hfiles as [H _]. }
  set (link := (repeat ".." up ++ rest)%list).
  assert (Hlink : forallb link_component link = true).
  { unfold link. rewrite forallb_app. apply andb_true_iff. split.
    - apply forallb_forall. intros x Hx. apply repeat_spec in Hx. now subst x.
    - now apply components_link. }
  assert (Hne : link <> []).
  { unfold link. intros E. apply app_eq_nil in E as [_ E]. contradiction. }
  rewrite (parse_join link Hne Hlink).
  assert (Hdot : startswith "./" (join "/" link) = false).
  { destruct link as [|x l]; [contradiction|].
    apply join_first_char. intros t. apply link_component_not_dot_slash.
    cbn [forallb] in Hlink. now apply andb_true_iff in Hlink as [H _]. }
  rewrite Hdot.
  assert (E : resolve cwd (joinpath (parent (rel_path (dir ++ [file_name])%list))
                                    (mkPath "" link))
              = mkPath "/" (cwd ++ firstn (List.length dir - up) dir ++ rest)%list).
  { unfold resolve, joinpath, parent, rel_path. cbn [root parts String.eqb].
    rewrite removelast_last. unfold link. now rewrite collapse_link. }
  rewrite !E.
  match goal with
  | |- context [if ?a then ?t else ?t] =>
      replace (if a then t else t) with t by now destruct a
  end.
  set (target := (firstn (List.length dir - up) dir ++ rest)%list) in *.
  unfold relative_to. cbn [root parts]. rewrite String.eqb_refl, is_prefix_app.
  cbn [andb]. rewrite skipn_length_app.
  assert (Htc : forallb component target = true).
  { unfold target. rewrite forallb_app. apply andb_true_iff. split; [|exact Hcomp].
    rewrite forallb_forall in Hdir |- *. intros x Hx. apply Hdir.
    rewrite <- (firstn_skipn (List.length dir - up) dir). apply in_or_app. now left. }
  assert (Htne : target <> []).
  { unfold target. intros E'. apply app_eq_nil in E' as [_ E']. contradiction. }
  rewrite (first_index_first _ target markdown_files) with (j := j) (start := 0);
    [reflexivity | | exact Hnd | apply String.eqb_refl | exact Hj].
  intros y Hy E'. apply String.eqb_eq in E'.
  apply path_string_injective; auto.
  rewrite forallb_forall in Hfiles. now apply Hfiles.
Qed.

Lemma link_resolves_inside_input_folder_witness :
  find_file_index_by_path sample_cwd (parse ".")
                          [["index.md"]; ["guide"; "setup.md"]; ["intro.md"]]
                          "../intro.md" 1
  = Ok (Some 2).
Proof.
  apply (link_resolves_inside_input_folder
           sample_cwd (parse ".") [["index.md"]; ["guide"; "setup.md"]; ["intro.md"]]
           1 2 1 ["guide"] ["intro.md"] "setup.md");
    try reflexivity; try discriminate.
  repeat constructor; simpl; intuition discriminate.
Defined.

(** ** The offline test version *)

Lemma all_chars_take (p : ascii -> bool) (n : nat) (s : string) :
  all_chars p s = true -> all_chars p (take n s) = true.
Proof.
  revert s. induction n as [|n IH]; intros s H; [reflexivity|].
  destruct s as [|c s]; [reflexivity|].
  cbn [all_chars] in H. apply andb_true_iff in H as [Hc Hs].
  cbn [take all_chars]. now rewrite Hc, IH.
Qed.

Lemma last_forallb {A : Type} (p : A -> bool) (l : list A) (d : A) :
  p d = true -> forallb p l = true -> p (last l d) = true.
Proof.
  intros Hd. induction l as [|x l IH]; [intros _; exact Hd|].
  intros H. cbn [forallb] in H. apply andb_true_iff in H as [Hx Hl].
  destruct l as [|y l]; [exact Hx | now apply IH].
Qed.

Lemma forallb_filter {A : Type} (p keep : A -> bool) (l : list A) :
  forallb p l = true -> forallb p (filter keep l) = true.
Proof.
  rewrite !forallb_forall. intros H x Hx. apply filter_In in Hx as [Hx _]. now apply H.
Qed.

Lemma name_no_slash (s : string) : all_chars (is_not "/") (name (parse s)) = true.
Proof.
  unfold name, parse. cbn [parts].
  apply (last_forallb (all_chars (is_not "/"))); [reflexivity|].
  apply forallb_filter, split_on_no_sep.
Qed.

Lemma stem_no_slash (s : string) : all_chars (is_not "/") (stem (parse s)) = true.
Proof.
  unfold stem, stem_of_name. pose proof (name_no_slash s) as H.
  destruct (rfind "." (name (parse s))) as [i|]; [|exact H].
  destruct (_ && _); [now apply all_chars_take | exact H].
Qed.

(** A name without slash that is neither empty nor a dot is a path of one
    component. *)
Lemma parse_single (s : string) :
  all_chars (is_not "/") s = true -> s <> "" -> s <> "." ->
  parse s = mkPath "" [s].
Proof.
  intros Hs He Hd. unfold parse. rewrite (split_on_plain _ _ Hs).
  destruct s as [|c s]; [contradiction|].
  cbn [all_chars] in Hs. apply andb_true_iff in Hs as [Hc _].
  unfold is_not in Hc. apply negb_true_iff in Hc.
  assert (Hroot : startswith "/" (String c s) = false)
    by (cbn [startswith]; now rewrite Ascii.eqb_sym, Hc).
  assert (Hroot2 : startswith "//" (String c s) = false)
    by (cbn [startswith]; now rewrite Ascii.eqb_sym, Hc).
  rewrite Hroot, Hroot2. cbn [andb filter].
  apply String.eqb_neq in He, Hd. rewrite He, Hd. reflexivity.
Qed.

(** X15: without an output name the offline version is written under the stem of
    the input with [_offline.html] appended, as a path of one component:
    into the working directory, whatever folder the input stands in. *)
Theorem default_output_is_in_working_directory (input_file content : string) :
  exists output_file text broken_count,
    create_offline_version input_file None (Some content)
    = Written output_file text broken_count
    /\ parse output_file = mkPath "" [stem (parse input_file) ++ "_offline.html"].
Proof.
  unfold create_offline_version. destruct (break_links content) as [text n].
  exists (stem (parse input_file) ++ "_offline.html"), text, n.
  split; [reflexivity|]. apply parse_single.
  - rewrite all_chars_app, stem_no_slash. reflexivity.
  - intros E. apply (f_equal String.length) in E. rewrite length_app in E.
    cbn [String.length] in E. lia.
  - intros E. apply (f_equal String.length) in E. rewrite length_app in E.
    cbn [String.length] in E. lia.
Qed.

Lemma startswith_prefix (a b s : string) :
  startswith a s = false -> startswith (a ++ b) s = false.
Proof.
  revert s. induction a as [|c a IH]; intros s H; [discriminate H|].
  destruct s as [|d s]; [reflexivity|]. cbn [append startswith] in *.
  apply andb_false_iff in H as [H|H]; [now rewrite H|].
  rewrite (IH _ H). apply andb_false_r.
Qed.

Lemma findall_scan_no_match {A : Type} (try_match : string -> option (A * nat))
      (s : string) :
  (forall k, try_match (drop k s) = None) -> findall_scan try_match 0 s = [].
Proof.
  induction s as [|c s IH]; intros H; [reflexivity|].
  pose proof (H 0) as H0. cbn [drop] in H0.
  cbn [findall_scan]. rewrite H0. apply IH. intros k. apply (H (S k)).
Qed.

Lemma break_pattern_no_match pattern (content : string) (n : nat) :
  (forall k, pattern (drop k content) = None) ->
  break_pattern (content, n) pattern = (content, n).
Proof.
  intros H. unfold break_pattern. now rewrite (findall_scan_no_match _ _ H).
Qed.

Lemma literal_address (rest repl s : string) :
  startswith "https://" s = false -> literal ("https://" ++ rest) repl s = None.
Proof. intros H. unfold literal. now rewrite startswith_prefix. Qed.

Lemma versioned_address (rest after repl s : string) :
  startswith "https://" s = false -> versioned ("https://" ++ rest) after repl s = None.
Proof. intros H. unfold versioned. now rewrite startswith_prefix. Qed.

(** X16: a page that holds no [https://] address is written out as it was read,
    and no link is counted as broken. *)
Theorem page_without_addresses_is_copied (input_file output_file content : string) :
  contains "https://" content = false ->
  create_offline_version input_file (Some output_file) (Some content)
  = Written output_file content 0.
Proof.
  intros H. unfold create_offline_version, break_links, replacements.
  pose proof (contains_false_drop _ _ H) as Hk.
  cbn [fold_left].
  rewrite (break_pattern_no_match (literal "https://fonts.googleapis.com" _))
    by (intros k; apply (literal_address "fonts.googleapis.com"), Hk).
  rewrite (break_pattern_no_match (literal "https://fonts.gstatic.com" _))
    by (intros k; apply (literal_address "fonts.gstatic.com"), Hk).
  rewrite (break_pattern_no_match (literal "https://cdnjs.cloudflare.com/ajax/libs/prism" _))
    by (intros k; apply (literal_address "cdnjs.cloudflare.com/ajax/libs/prism"), Hk).
  rewrite (break_pattern_no_match (versioned "https://code.jquery.com/jquery-" _ _))
    by (intros k; apply (versioned_address "code.jquery.com/jquery-"), Hk).
  rewrite (break_pattern_no_match (versioned "https://cdn.datatables.net/" _ _))
    by (intros k; apply (versioned_address "cdn.datatables.net/"), Hk).
  reflexivity.
Qed.

Lemma page_without_addresses_witness :
  create_offline_version "wiki.html" (Some "out.html") (Some "<p>Welcome</p>")
  = Written "out.html" "<p>Welcome</p>" 0.
Proof.
  apply (page_without_addresses_is_copied "wiki.html" "out.html" "<p>Welcome</p>").
  reflexivity.
Defined.

Lemma sub_plain_pass try_match (p : ascii -> bool) (pre s : string) :
  (forall c t, p c = true -> try_match (String c t) = None) ->
  all_chars p pre = true ->
  sub_plain try_match 0 (pre ++ s) = pre ++ sub_plain try_match 0 s.
Proof.
  intros H. induction pre as [|c pre IH]; intros Hp; [reflexivity|].
  cbn [all_chars] in Hp. apply andb_true_iff in Hp as [Hc Hp].
  cbn [append sub_plain]. rewrite (H _ _ Hc). now rewrite (IH Hp).
Qed.

Lemma findall_scan_pass {A : Type} (try_match : string -> option (A * nat))
      (p : ascii -> bool) (pre s : string) :
  (forall c t, p c = true -> try_match (String c t) = None) ->
  all_chars p pre = true ->
  findall_scan try_match 0 (pre ++ s) = findall_scan try_match 0 s.
Proof.
  intros H. induction pre as [|c pre IH]; intros Hp; [reflexivity|].
  cbn [all_chars] in Hp. apply andb_true_iff in Hp as [Hc Hp].
  cbn [append findall_scan]. rewrite (H _ _ Hc). now rewrite (IH Hp).
Qed.

Lemma findall_scan_pass_all {A : Type} (try_match : string -> option (A * nat))
      (p : ascii -> bool) (s : string) :
  (forall c t, p c = true -> try_match (String c t) = None) ->
  all_chars p s = true -> findall_scan try_match 0 s = [].
Proof.
  intros H Hs. rewrite <- (append_empty_r s). now rewrite (findall_scan_pass _ p).
Qed.

Lemma sub_plain_pass_all try_match (p : ascii -> bool) (s : string) :
  (forall c t, p c = true -> try_match (String c t) = None) ->
  all_chars p s = true -> sub_plain try_match 0 s = s.
Proof.
  intros H Hs. rewrite <- (append_empty_r s) at 1.
  rewrite (sub_plain_pass _ p) by assumption. apply append_empty_r.
Qed.

(** A pattern that starts with [h] meets, in a text whose only [h] opens an
    address it does not match, nothing. *)
Lemma break_pattern_other pattern (pre X post : string) (n : nat) :
  (forall c t, is_not "h" c = true -> pattern (String c t) = None) ->
  pattern (String "h" (X ++ post)) = None ->
  all_chars (is_not "h") pre = true -> all_chars (is_not "h") X = true ->
  all_chars (is_not "h") post = true ->
  break_pattern (pre ++ String "h" (X ++ post), n) pattern
  = (pre ++ String "h" (X ++ post), n).
Proof.
  intros Hh Hx Hpre HX Hpost. unfold break_pattern.
  rewrite (findall_scan_pass _ _ _ _ Hh Hpre). cbn [findall_scan]. rewrite Hx.
  rewrite (findall_scan_pass_all _ (is_not "h")); [reflexivity | exact Hh |].
  now rewrite all_chars_app, HX, Hpost.
Qed.

Lemma break_pattern_match pattern (pre X post repl : string) (n : nat) :
  (forall c t, is_not "h" c = true -> pattern (String c t) = None) ->
  pattern (String "h" X ++ post) = Some (repl, S (String.length X)) ->
  all_chars (is_not "h") pre = true -> all_chars (is_not "h") post = true ->
  break_pattern (pre ++ String "h" X ++ post, n) pattern
  = (pre ++ repl ++ post, n + 1).
Proof.
  intros Hh Hx Hpre Hpost. unfold break_pattern.
  rewrite (findall_scan_pass _ _ _ _ Hh Hpre).
  rewrite (findall_scan_match _ _ _ _ _ Hx).
  rewrite (findall_scan_pass_all _ (is_not "h") post Hh Hpost).
  cbn [List.length Nat.ltb Nat.leb].
  rewrite (sub_plain_pass _ _ _ _ Hh Hpre), (sub_plain_match _ _ _ _ _ Hx).
  now rewrite (sub_plain_pass_all _ (is_not "h") post Hh Hpost).
Qed.

Lemma startswith_first (a c : ascii) (p t : string) :
  is_not a c = true -> startswith (String a p) (String c t) = false.
Proof.
  unfold is_not. intros H. apply negb_true_iff in H.
  cbn [startswith]. now rewrite Ascii.eqb_sym, H.
Qed.

Lemma literal_first (a c : ascii) (p repl t : string) :
  is_not a c = true -> literal (String a p) repl (String c t) = None.
Proof. intros H. unfold literal. now rewrite startswith_first. Qed.

Lemma versioned_first (a c : ascii) (p after repl t : string) :
  is_not a c = true -> versioned (String a p) after repl (String c t) = None.
Proof. intros H. unfold versioned. now rewrite startswith_first. Qed.

Lemma version_char_no_h (c : ascii) : version_char c = true -> is_not "h" c = true.
Proof. by_bits c; vm_compute; congruence. Qed.

Lemma version_then_stop (rest s : string) (c : ascii) :
  version_char c = false -> version_then rest (String c s) = None.
Proof. intros H. cbn [version_then]. now rewrite H. Qed.

Lemma version_then_cons (rest s : string) (c : ascii) :
  version_char c = true ->
  version_then rest (String c s)
  = match version_then rest s with
    | Some n => Some (S n)
    | None => if startswith rest s then Some (S (String.length rest)) else None
    end.
Proof. intros H. cbn [version_then]. now rewrite H. Qed.

(** A version followed by [.min.js]: the run also takes the dot, and gives
    it back. *)
Lemma version_then_min_js (ver post : string) :
  ver <> "" -> all_chars version_char ver = true ->
  version_then ".min.js" (ver ++ ".min.js" ++ post)
  = Some (String.length ver + 7).
Proof.
  induction ver as [|c ver IH]; intros Hne Hv; [contradiction|].
  cbn [all_chars] in Hv. apply andb_true_iff in Hv as [Hc Hv].
  change (String c ver ++ ".min.js" ++ post) with (String c (ver ++ ".min.js" ++ post)).
  rewrite (version_then_cons _ _ _ Hc).
  destruct ver as [|d ver].
  - assert (E : version_then ".min.js" ("" ++ ".min.js" ++ post) = None) by reflexivity.
    rewrite E. change ("" ++ ".min.js" ++ post) with (".min.js" ++ post).
    rewrite startswith_app. reflexivity.
  - rewrite IH by (discriminate || exact Hv). reflexivity.
Qed.

(** X17: the address of a jQuery release, whatever its version, is replaced by
    the broken address and counted once; the text around it, which holds no
    other address, stays. *)
Theorem jquery_address_is_broken (input_file output_file pre ver post : string) :
  all_chars (is_not "h") pre = true -> all_chars (is_not "h") post = true ->
  ver <> "" -> all_chars version_char ver = true ->
  create_offline_version
    input_file (Some output_file)
    (Some (pre ++ "https://code.jquery.com/jquery-" ++ ver ++ ".min.js" ++ post))
  = Written output_file (pre ++ "https://code.jquery.com/BROKEN_jquery.js" ++ post) 1.
Proof.
  intros Hpre Hpost Hne Hver.
  unfold create_offline_version, break_links, replacements. cbn [fold_left].
  set (X := "ttps://code.jquery.com/jquery-" ++ ver ++ ".min.js").
  assert (Hform : "https://code.jquery.com/jquery-" ++ ver ++ ".min.js" ++ post
                  = String "h" (X ++ post)).
  { unfold X. cbn [append]. now rewrite app_assoc_string. }
  assert (HX : all_chars (is_not "h") X = true).
  { unfold X. rewrite !all_chars_app.
    rewrite (all_chars_impl _ _ _ version_char_no_h Hver). reflexivity. }
  rewrite Hform.
  rewrite (break_pattern_other (literal "https://fonts.googleapis.com" _));
    [ | intros c t; apply literal_first | reflexivity | assumption ..].
  rewrite (break_pattern_other (literal "https://fonts.gstatic.com" _));
    [ | intros c t; apply literal_first | reflexivity | assumption ..].
  rewrite (break_pattern_other (literal "https://cdnjs.cloudflare.com/ajax/libs/prism" _));
    [ | intros c t; apply literal_first | reflexivity | assumption ..].
  change (pre ++ String "h" (X ++ post)) with (pre ++ String "h" X ++ post).
  rewrite (break_pattern_match _ pre X post "https://code.jquery.com/BROKEN_jquery.js");
    [ | intros c t; apply versioned_first | | assumption ..].
  2:{ change (String "h" X ++ post) with (String "h" (X ++ post)).
      rewrite <- Hform. unfold versioned.
      rewrite startswith_app, drop_app, (version_then_min_js ver post Hne Hver).
      do 2 f_equal. unfold X. rewrite !length_app. cbn [String.length]. lia. }
  change (pre ++ "https://code.jquery.com/BROKEN_jquery.js" ++ post)
    with (pre ++ String "h" ("ttps://code.jquery.com/BROKEN_jquery.js" ++ post)).
  rewrite (break_pattern_other (versioned "https://cdn.datatables.net/" _ _));
    [ reflexivity | intros c t; apply versioned_first | reflexivity | assumption
      | reflexivity | assumption ].
Qed.

Lemma jquery_address_witness :
  create_offline_version
    "wiki.html" (Some "out.html")
    (Some ("<script src=" ++ "https://code.jquery.com/jquery-" ++ "3.6.0" ++ ".min.js"
           ++ "></script>"))
  = Written "out.html"
            ("<script src=" ++ "https://code.jquery.com/BROKEN_jquery.js" ++ "></script>") 1.
Proof.
  apply (jquery_address_is_broken "wiki.html" "out.html" "<script src=" "3.6.0"
                                  "></script>");
    try reflexivity; discriminate.
Defined.

(** ** Failure semantics of a run *)




Section Links.

Variable cwd : list string.
Variable input_folder : Path.
Variable markdown_files : list RelPath.


End Links.



Section Assembled.

Variable safe_load : string -> option yaml.
Variable md_convert : string -> string.
Variable cwd : list string.
Variable input_folder : Path.
Variable show_frontmatter : bool.
Variable disk : Disk.
Variable markdown_files : list RelPath.

Let step := process_file safe_load md_convert cwd input_folder show_frontmatter
                         disk markdown_files.
Let loop := process_files safe_load md_convert cwd input_folder show_frontmatter
                          disk markdown_files.




End Assembled.




(** ** Folder identifiers in the navigation *)

Lemma add_nested_file_lists_at (path_parts : list string) (e : nat * string) :
  forall d d',
    forallb regular_name path_parts = true ->
    add_nested_file path_parts e d = Ok d' ->
    listed_at e path_parts d' /\ (forall e0 c, listed_at e0 c d -> listed_at e0 c d').
Proof.
  induction path_parts as [|part rest IH]; intros d d' Hreg Hadd; simpl in Hadd.
  - assert (Hkeep : forall v e0 d0 k c,
               String.eqb k "files" = false -> dict_get k d = Some (Folder d0) ->
               listed_at e0 c d0 -> listed_at e0 (k :: c) (dict_set "files" v d)).
    { intros v e0 d0 k c Hk Hg Hl. apply (listed_at_below _ _ k d0); auto.
      now rewrite dict_get_set_other. }
    destruct (dict_get "files" d) as [[l|d0]|] eqn:E; [| discriminate |];
      injection Hadd as <-; split.
    + apply (listed_at_here _ _ (l ++ [e])%list); [apply dict_get_set_same|].
      apply in_or_app. right. now left.
    + intros e0 c H. inversion H as [? l0 Hg Hin | ? k d0 c0 Hk Hg Hl]; subst; eauto.
      apply (listed_at_here _ _ (l ++ [e])%list); [apply dict_get_set_same|].
      rewrite E in Hg. injection Hg as <-. apply in_or_app. now left.
    + apply (listed_at_here _ _ [e]); [apply dict_get_set_same | now left].
    + intros e0 c H. inversion H as [? l0 Hg Hin | ? k d0 c0 Hk Hg Hl]; subst; eauto.
      congruence.
  - simpl in Hreg. apply andb_true_iff in Hreg as [Hpart Hrest].
    destruct (regular_name_inv _ Hpart) as [Hr Hf].
    assert (Hfiles : forall sub, dict_get "files" (dict_set part (Folder sub) d)
                                 = dict_get "files" d).
    { intros sub. apply dict_get_set_other. now rewrite String.eqb_sym. }
    destruct (dict_get part d) as [[l|d0]|] eqn:E; [discriminate| |].
    + destruct (add_nested_file rest e d0) as [sub|] eqn:Es; [|discriminate].
      injection Hadd as <-. destruct (IH _ _ Hrest Es) as [Hnew Hold]. split.
      * apply (listed_at_below _ _ part sub); auto using dict_get_set_same.
      * intros e0 c H. inversion H as [? l0 Hg Hin | ? k d1 c0 Hk Hg Hl]; subst.
        -- apply (listed_at_here _ _ l0); [now rewrite Hfiles | exact Hin].
        -- destruct (String.eqb_spec k part) as [->|Hne].
           ++ rewrite E in Hg. injection Hg as <-.
              apply (listed_at_below _ _ part sub); auto using dict_get_set_same.
           ++ apply (listed_at_below _ _ k d1); auto.
              rewrite dict_get_set_other; [exact Hg | now apply String.eqb_neq].
    + destruct (add_nested_file rest e []) as [sub|] eqn:Es; [|discriminate].
      injection Hadd as <-. destruct (IH _ _ Hrest Es) as [Hnew Hold]. split.
      * apply (listed_at_below _ _ part sub); auto using dict_get_set_same.
      * intros e0 c H. inversion H as [? l0 Hg Hin | ? k d1 c0 Hk Hg Hl]; subst.
        -- apply (listed_at_here _ _ l0); [now rewrite Hfiles | exact Hin].
        -- destruct (String.eqb_spec k part) as [->|Hne]; [congruence|].
           apply (listed_at_below _ _ k d1); auto.
           rewrite dict_get_set_other; [exact Hg | now apply String.eqb_neq].
Qed.

Lemma add_file_lists_at (i : nat) (f : RelPath) (tree t' : dict) :
  regular_folders f = true -> add_file i f tree = Ok t' ->
  listed_top_at (i, stem (rel_path f)) (removelast f) t'
  /\ (forall e0 c, listed_top_at e0 c tree -> listed_top_at e0 c t').
Proof.
  unfold regular_folders, add_file. simpl parts.
  destruct (removelast f) as [|part rest] eqn:Ef; intros Hreg Hadd.
  - unfold add_root_file in Hadd.
    assert (Hkeep : forall v e0 k c, listed_top_at e0 (k :: c) tree ->
                                     listed_top_at e0 (k :: c) (dict_set "root" v tree)).
    { intros v e0 k c (Hk & d' & Hg & Hl). split; [exact Hk|]. exists d'.
      split; [|exact Hl]. now rewrite dict_get_set_other. }
    destruct (dict_get "root" tree) as [[l|d0]|] eqn:E; [| discriminate |];
      injection Hadd as <-; split.
    + exists (l ++ [(i, stem (rel_path f))])%list.
      split; [apply dict_get_set_same|]. apply in_or_app. right. now left.
    + intros e0 [|k c] H; [|now apply Hkeep].
      destruct H as (l0 & Hg & Hin).
      exists (l ++ [(i, stem (rel_path f))])%list.
      split; [apply dict_get_set_same|].
      rewrite Hg in E. injection E as ->. apply in_or_app. now left.
    + exists [(i, stem (rel_path f))].
      split; [apply dict_get_set_same | now left].
    + intros e0 [|k c] H; [|now apply Hkeep].
      destruct H as (l0 & Hg & Hin). congruence.
  - simpl in Hreg. apply andb_true_iff in Hreg as [Hpart Hrest].
    destruct (regular_name_inv _ Hpart) as [Hr Hf].
    simpl in Hadd.
    assert (Hroot : forall sub, dict_get "root" (dict_set part (Folder sub) tree)
                                = dict_get "root" tree).
    { intros sub. apply dict_get_set_other. now rewrite String.eqb_sym. }
    assert (Hstep : forall d0 sub,
               (dict_get part tree = Some (Folder d0) \/ dict_get part tree = None) ->
               listed_at (i, stem (rel_path f)) rest sub ->
               (forall e0 c, dict_get part tree = Some (Folder d0) ->
                             listed_at e0 c d0 -> listed_at e0 c sub) ->
               listed_top_at (i, stem (rel_path f)) (part :: rest)
                             (dict_set part (Folder sub) tree)
               /\ (forall e0 c, listed_top_at e0 c tree ->
                                listed_top_at e0 c (dict_set part (Folder sub) tree))).
    { intros d0 sub Hd Hnew Hold. split.
      - split; [exact Hr|]. exists sub. auto using dict_get_set_same.
      - intros e0 [|k c] H.
        + destruct H as (l0 & Hg & Hin). exists l0.
          split; [now rewrite Hroot | exact Hin].
        + destruct H as (Hk & d1 & Hg & Hl). split; [exact Hk|].
          destruct (String.eqb_spec k part) as [->|Hne].
          * exists sub. split; [apply dict_get_set_same|].
            destruct Hd as [Hd|Hd]; [|congruence].
            apply Hold; [exact Hd|]. rewrite Hd in Hg. now injection Hg as <-.
          * exists d1. split; [|exact Hl].
            rewrite dict_get_set_other; [exact Hg | now apply String.eqb_neq]. }
    destruct (dict_get part tree) as [[l|d0]|] eqn:E; [discriminate| |].
    + destruct (add_nested_file rest (i, stem (rel_path f)) d0) as [sub|] eqn:Es;
        [|discriminate].
      injection Hadd as <-.
      destruct (add_nested_file_lists_at _ _ _ _ Hrest Es) as [Hnew Hold].
      apply (Hstep d0 sub); auto.
    + destruct (add_nested_file rest (i, stem (rel_path f)) []) as [sub|] eqn:Es;
        [|discriminate].
      injection Hadd as <-.
      destruct (add_nested_file_lists_at _ _ _ _ Hrest Es) as [Hnew Hold].
      apply (Hstep [] sub); auto.
Qed.

Lemma build_tree_lists_at (files : list RelPath) :
  forall i tree t',
    forallb regular_folders files = true ->
    build_tree i files tree = Ok t' ->
    (forall e0 c, listed_top_at e0 c tree -> listed_top_at e0 c t')
    /\ (forall k f, nth_error files k = Some f ->
                    listed_top_at (i + k, stem (rel_path f)) (removelast f) t').
Proof.
  induction files as [|f rest IH]; intros i tree t' Hreg Hb; simpl in Hb.
  - injection Hb as <-. split; [auto|]. intros [|k] f H; discriminate.
  - simpl in Hreg. apply andb_true_iff in Hreg as [Hf Hrest].
    destruct (add_file i f tree) as [t1|] eqn:E1; [|discriminate]. simpl in Hb.
    destruct (add_file_lists_at _ _ _ _ Hf E1) as [Hnew Hold].
    destruct (IH _ _ _ Hrest Hb) as [Hkeep Hall]. split; [auto|].
    intros [|k] g Hk; simpl in Hk.
    + injection Hk as <-. rewrite Nat.add_0_r. auto.
    + replace (i + S k) with (S i + k) by lia. auto.
Qed.

Lemma last_cons_default {A : Type} (k d : A) (l : list A) :
  last (k :: l) d = last l k.
Proof.
  revert k d. induction l as [|x l IH]; intros k d; [reflexivity|].
  change (last (k :: x :: l) d) with (last (x :: l) d).
  now rewrite !IH.
Qed.

Lemma folder_items_own_header (folder_name : string) (d : dict) (parent_path : string)
      (r : list string) :
  String.eqb folder_name "root" = false ->
  folder_items folder_name (Folder d) parent_path = Ok r ->
  In (folder_header (folder_id_of parent_path folder_name) (display_name folder_name)) r.
Proof.
  intros Hname Hr. rewrite folder_items_folder, Hname in Hr. cbv zeta in Hr.
  destruct (match dict_get "files" d with
            | Some v => _
            | None => _
            end) as [fs|]; [|discriminate]. simpl in Hr.
  destruct (sub_items _ d) as [subs|]; [|discriminate]. simpl in Hr.
  injection Hr as <-. now left.
Qed.

(** Every folder on the way to a document has its header in the items of
    the folder the way starts from, under the identifier folded along the
    way. *)
Lemma folder_items_header (e : nat * string) (chain : list string) (d : dict) :
  listed_at e chain d -> forallb wf_entry d = true ->
  forall pre suf folder_name parent_path r,
    chain = (pre ++ suf)%list ->
    String.eqb folder_name "root" = false ->
    folder_items folder_name (Folder d) parent_path = Ok r ->
    exists item,
      In item r
      /\ Contains (folder_header
                     (fold_left folder_id_of pre (folder_id_of parent_path folder_name))
                     (display_name (last pre folder_name)))
                  item.
Proof.
  induction 1 as [d l Hg Hin | d k d' chain Hk Hg Hl IH];
    intros Hwf pre suf folder_name parent_path r Hc Hname Hr.
  - symmetry in Hc. apply app_eq_nil in Hc as [-> _].
    eexists. split; [eapply folder_items_own_header; eauto | apply contains_refl].
  - destruct pre as [|k' pre].
    + eexists. split; [eapply folder_items_own_header; eauto | apply contains_refl].
    + cbn [app] in Hc. injection Hc as <- Hc.
      assert (Hkv := dict_get_forallb wf_entry _ _ _ Hwf Hg).
      unfold wf_entry in Hkv. simpl fst in Hkv. simpl snd in Hkv.
      rewrite Hk, wf_node_folder in Hkv.
      apply andb_true_iff in Hkv as [Hkv Hwf'].
      apply andb_true_iff in Hkv as [Hroot _]. apply negb_true_iff in Hroot.
      rewrite folder_items_folder, Hname in Hr. cbv zeta in Hr.
      destruct (match dict_get "files" d with
                | Some v => _
                | None => _
                end) as [fs|]; [|discriminate]. simpl in Hr.
      destruct (sub_items _ d) as [subs|] eqn:Es; [|discriminate]. simpl in Hr.
      injection Hr as <-.
      destruct (sub_items_get _ _ _ _ _ Es Hg Hk) as (r' & Hr' & Hin).
      destruct (IH Hwf' pre suf _ _ _ Hc Hroot Hr') as (item & Hitem & Hcont).
      exists (join nl r'). split.
      * right. apply in_or_app. right. apply in_or_app. now left.
      * rewrite last_cons_default. cbn [fold_left].
        eapply contains_trans; [exact Hcont | now apply contains_join].
Qed.

(** In the navigation, every folder on the path of a document has its
    header under the identifier of its chain of names. *)
Lemma folder_header_in_navigation (files : list RelPath) (i : nat) (f : RelPath)
      (chain below : list string) :
  forallb regular_folders files = true ->
  nth_error files i = Some f -> removelast f = (chain ++ below)%list -> chain <> [] ->
  forall nav, generate_navigation files = Ok nav ->
              Contains (folder_header (chain_id chain) (display_name (last chain ""))) nav.
Proof.
  intros Hreg Hnth Hf Hne nav. unfold generate_navigation.
  destruct (build_tree_ok files 0 [] Hreg eq_refl) as (tree & Ht & Hwf).
  destruct (build_tree_lists_at _ _ _ _ Hreg Ht) as [_ Hall].
  specialize (Hall i f Hnth). cbn [Nat.add] in Hall. rewrite Hf in Hall.
  rewrite Ht. cbn [bind].
  destruct (all_folder_items_ok tree "" Hwf) as [r Hr].
  unfold _build_folder_navigation. rewrite Hr. cbn [bind].
  destruct chain as [|k pre]; [contradiction|]. cbn [app] in Hall.
  destruct Hall as (Hk & d' & Hg & Hl).
  assert (Hitems : exists items,
             match dict_get "root" tree with
             | Some v => ps <- unpack_pairs v ;; Ok (map root_link ps)
             | None => Ok []
             end = Ok items).
  { destruct (dict_get "root" tree) as [v|] eqn:E; [|eauto].
    apply (dict_get_forallb wf_top_entry) in E; [|exact Hwf].
    destruct v; [simpl; eauto | discriminate]. }
  destruct Hitems as [items ->]. cbn [bind]. intros [= <-].
  destruct (all_folder_items_get _ _ _ _ _ Hr Hg) as (r' & Hr' & Hincl).
  assert (Hkv := dict_get_forallb wf_top_entry _ _ _ Hwf Hg).
  unfold wf_top_entry in Hkv. simpl fst in Hkv. simpl snd in Hkv.
  rewrite Hk, wf_node_folder in Hkv. apply andb_true_iff in Hkv as [_ Hwf'].
  destruct (folder_items_header _ _ _ Hl Hwf' pre below k "" r' eq_refl Hk Hr')
    as (item & Hitem & Hc).
  rewrite last_cons_default. unfold chain_id. cbn [fold_left].
  eapply contains_trans; [exact Hc|].
  eapply contains_trans; [apply contains_join, Hincl, Hitem|].
  apply contains_join, in_or_app. right. now left.
Qed.

(** X9: on folders named neither [root] nor [files] the navigation is built,
    and every folder on the path of a document has its header there under
    the identifier folded from its chain of names, from the root down; two
    such folders whose names are free of underscore, slash and backslash
    have the same identifier only when they are the same folder. *)
Theorem folder_identifiers_of_clean_names_are_unique
        (files : list RelPath) (i j : nat) (f g : RelPath)
        (chain1 below1 chain2 below2 : list string) :
  forallb regular_folders files = true ->
  nth_error files i = Some f -> removelast f = (chain1 ++ below1)%list -> chain1 <> [] ->
  nth_error files j = Some g -> removelast g = (chain2 ++ below2)%list -> chain2 <> [] ->
  forallb clean_name chain1 = true -> forallb clean_name chain2 = true ->
  exists nav,
    generate_navigation files = Ok nav
    /\ Contains (folder_header (chain_id chain1) (display_name (last chain1 ""))) nav
    /\ Contains (folder_header (chain_id chain2) (display_name (last chain2 ""))) nav
    /\ (chain_id chain1 = chain_id chain2 -> chain1 = chain2).
Proof.
  intros Hreg Hi Hf Hne1 Hj Hg Hne2 Hc1 Hc2.
  destruct (generate_navigation_ok files Hreg) as [nav Hnav].
  exists nav. split; [exact Hnav|].
  split; [now apply (folder_header_in_navigation files i f chain1 below1)|].
  split; [now apply (folder_header_in_navigation files j g chain2 below2)|].
  now apply chain_id_injective.
Qed.

Lemma folder_identifiers_unique_witness :
  exists nav,
    generate_navigation docs_files = Ok nav
    /\ Contains (folder_header "a_docs" "Docs") nav
    /\ Contains (folder_header "b_docs" "Docs") nav.
Proof.
  destruct (folder_identifiers_of_clean_names_are_unique
              docs_files 1 2 ["a"; "docs"; "x.md"] ["b"; "docs"; "y.md"]
              ["a"; "docs"] [] ["b"; "docs"] [])
    as (nav & Hnav & H1 & H2 & _);
    try reflexivity; try discriminate.
  exists nav. auto.
Defined.

(** ** The tag index on tags that are sequences of strings *)

Lemma strings_of_map (l : list yaml) (ss : list string) :
  strings_of l = Some ss -> l = map YStr ss /\ forallb hashable l = true.
Proof.
  revert ss. induction l as [|y l IH]; intros ss H; cbn [strings_of] in H.
  - injection H as <-. now split.
  - destruct y as [| | |s| |]; cbn [as_string] in H; try discriminate.
    destruct (strings_of l) as [ss'|]; [|discriminate]. injection H as <-.
    destruct (IH ss' eq_refl) as [-> Hh]. split; [reflexivity | exact Hh].
Qed.

Lemma blank_frontmatter safe_load (content : string) :
  strip content = "" -> fst (fst (parse_frontmatter safe_load content)) = YMap [].
Proof. intros H. unfold parse_frontmatter. now rewrite H. Qed.

(** On such a frontmatter the loop reads the tag list of the
    specification. *)
Lemma document_tags_as_specified safe_load disk (f : RelPath) :
  tags_as_specified (frontmatter_of safe_load disk f) = true ->
  document_tags safe_load disk f
  = Ok (map YStr (spec_tag_list (frontmatter_of safe_load disk f))).
Proof.
  unfold document_tags, frontmatter_of.
  destruct (String.eqb_spec (strip (fst (read_markdown_file disk f))) "") as [Hb|Hb].
  - intros _. cbn [negb]. now rewrite (blank_frontmatter safe_load _ Hb).
  - cbn [negb].
    destruct (fst (fst (parse_frontmatter safe_load (fst (read_markdown_file disk f)))))
      as [|b|n|s|l|m]; cbn [tags_as_specified]; try discriminate.
    cbn [frontmatter_tags spec_tag_list].
    destruct (find _ m) as [[k v]|]; [|reflexivity].
    destruct v as [|b|n|s|l|m'].
    + reflexivity.
    + cbn [truthy]. intros H. apply negb_true_iff in H. now rewrite H.
    + intros H. apply negb_true_iff in H. now rewrite H.
    + intros H. apply negb_true_iff in H. now rewrite H.
    + destruct (strings_of l) as [ss|] eqn:E; [|discriminate]. intros _.
      destruct (strings_of_map _ _ E) as [-> Hh].
      destruct ss as [|s ss]; [reflexivity|]. cbn [map truthy iterate bind] in Hh |- *.
      now rewrite Hh.
    + intros H. apply negb_true_iff in H. now rewrite H.
Qed.

Lemma filter_tag_strings (t : string) (ss : list string) (e : tag_entry) :
  map (fun _ => e) (filter (fun k => key_eqb k (YStr t)) (map YStr ss))
  = map (fun _ => e) (filter (String.eqb t) ss).
Proof.
  induction ss as [|s ss IH]; [reflexivity|].
  cbn [map filter key_eqb]. rewrite (String.eqb_sym t s).
  destruct (String.eqb s t); cbn [map]; now rewrite IH.
Qed.

(** When every document has its tags as the specification has them and the
    run completes, the bucket of a tag holds one entry per occurrence of the
    tag in the tag list of each document, in document order. *)
Lemma tag_index_on_string_sequences
      safe_load md_convert cwd input_folder show_frontmatter disk markdown_files p :
  generate_html_content safe_load md_convert cwd input_folder show_frontmatter
                        disk markdown_files = Ok p ->
  Forall (fun f => tags_as_specified (frontmatter_of safe_load disk f) = true)
         markdown_files ->
  forall t, tag_get (YStr t) (page_tags p)
            = nonempty (spec_tag_index safe_load disk
                                       (enumerate_from 0 markdown_files) t).
Proof.
  intros Hrun Hspec t.
  destruct (tag_index_matches_spec _ _ _ _ _ _ _ _ Hrun) as (_ & -> & _).
  clear Hrun. f_equal. unfold tag_index_spec, spec_tag_index, enumerate_from.
  generalize 0 as start. induction Hspec as [|f files Hf _ IH]; intros start.
  - reflexivity.
  - cbn [List.length seq combine flat_map fst snd]. rewrite (IH (S start)). f_equal.
    unfold tags_of. rewrite (document_tags_as_specified _ _ _ Hf).
    apply filter_tag_strings.
Qed.
